(** * AIS data relay: a shallow embedding of the ingestion, fan-out and
    persistence pipeline, and the properties of its specification.

    Sources embedded here:
    - [app/main.py]: [AISRelayServer] (login frames, normaliser, coordinate
      extraction, persistence step, decoupling queue, TCP gate, rotation);
    - [main.py]: [GeographicBounds.contains] and [AISRelayServer.broadcast_ws];
    - [app/configuration.py]: [AuthConfig.verify_tcp_credentials];
    - [connector/database_unrestricted.py]: [DatabaseManager].

    Python values are embedded as an inductive type, dictionaries as finite
    maps, floats as IEEE binary64 numbers, exceptions as an error monad, and
    input/output as explicit traces. *)

From Stdlib Require Import ZArith NArith List Bool Lia.
From Stdlib.Strings Require Import String Ascii Byte.
From Stdlib Require Import PrimFloat FloatOps SpecFloat.
From stdpp Require Import gmap strings list pretty.

Set Warnings "-register-all".

(* ===================================================================== *)
(** * Part I. The Python fragment the program uses                        *)
(* ===================================================================== *)

Module Py.

(** ** Text and bytes *)

(** A Python [str] is a sequence of Unicode code points. *)
Definition pystr : Type := list N.

(** The code points of an ASCII literal of the source. *)
Definition cps (s : string) : pystr :=
  map (fun b => Byte.to_N b) (list_byte_of_string s).

(** A Python [bytes] literal of the source. *)
Definition lit (s : string) : list byte := list_byte_of_string s.

Definition byte_of (n : N) : byte :=
  match Byte.of_N n with Some b => b | None => x00 end.

(** ** Numbers *)

(** [int] and [float]; a [bool] compares and counts as the int 0 or 1. *)
Inductive pynum : Type :=
| NInt (z : Z)
| NFloat (f : float).

(** [z <= f] for an int and a float, compared exactly as CPython does. *)
Definition Z_le_float (z : Z) (f : float) : bool :=
  match Prim2SF f with
  | S754_nan => false
  | S754_infinity neg => negb neg
  | S754_zero _ => (z <=? 0)%Z
  | S754_finite neg m e =>
      let v := if neg then Z.neg m else Z.pos m in
      if (0 <=? e)%Z then (z <=? v * 2 ^ e)%Z else (z * 2 ^ (- e) <=? v)%Z
  end.

(** [f <= z] for a float and an int. *)
Definition float_le_Z (f : float) (z : Z) : bool :=
  match Prim2SF f with
  | S754_nan => false
  | S754_infinity neg => neg
  | S754_zero _ => (0 <=? z)%Z
  | S754_finite neg m e =>
      let v := if neg then Z.neg m else Z.pos m in
      if (0 <=? e)%Z then (v * 2 ^ e <=? z)%Z else (v <=? z * 2 ^ (- e))%Z
  end.

(** [a <= b] on numbers. *)
Definition num_le (a b : pynum) : bool :=
  match a, b with
  | NInt x, NInt y => (x <=? y)%Z
  | NFloat x, NFloat y => PrimFloat.leb x y
  | NInt x, NFloat y => Z_le_float x y
  | NFloat x, NInt y => float_le_Z x y
  end.

(** Truth value of a number: false exactly for zero (of either sign). *)
Definition num_truthy (a : pynum) : bool :=
  match a with
  | NInt z => negb (z =? 0)%Z
  | NFloat f => negb (PrimFloat.eqb f 0%float)
  end.

(** ** Values *)

(** The values a decoded sentence, a normalised report or a JSON control
    message can hold. An enum member carries its [name] and, for an
    [IntEnum], the int it is. *)
Inductive value : Type :=
| VNone
| VBool (b : bool)
| VInt (z : Z)
| VFloat (f : float)
| VStr (s : pystr)
| VBytes (bs : list byte)
| VEnum (name : pystr) (as_int : option Z)
| VList (l : list value)
| VDict (d : gmap string value).

(** The number a value is, when it is one ([bool] and [IntEnum] are ints). *)
Definition as_num (v : value) : option pynum :=
  match v with
  | VBool b => Some (NInt (Z.b2z b))
  | VInt z => Some (NInt z)
  | VFloat f => Some (NFloat f)
  | VEnum _ (Some z) => Some (NInt z)
  | _ => None
  end.

(** [isinstance(v, (int, float))]. *)
Definition isinstance_int_float (v : value) : bool :=
  match as_num v with Some _ => true | None => false end.

(** [bool(v)], the test of [if v:]. *)
Definition truthy (v : value) : bool :=
  match v with
  | VNone => false
  | VBool b => b
  | VInt z => negb (z =? 0)%Z
  | VFloat f => negb (PrimFloat.eqb f 0%float)
  | VStr s => negb (Nat.eqb (length s) 0)
  | VBytes bs => negb (Nat.eqb (length bs) 0)
  | VEnum _ None => true
  | VEnum _ (Some z) => negb (z =? 0)%Z
  | VList l => negb (Nat.eqb (length l) 0)
  | VDict d => negb (Nat.eqb (size d) 0)
  end.

(** [v is not None]. *)
Definition is_not_None (v : value) : bool :=
  match v with VNone => false | _ => true end.

(** ** Exceptions *)

Inductive exn : Type :=
| AttributeError
| TypeError
| ValueError
| KeyError
| UnicodeEncodeError
| ConnectionError
| TimeoutError
| QueueFull
| IndexError
| OverflowError
| ProgrammingError
| IntegrityError
| InvalidCoordinates (lon lat : value).

Inductive result (A : Type) : Type :=
| Ok (a : A)
| Raise (e : exn).
Arguments Ok {A} a.
Arguments Raise {A} e.

#[global] Instance result_ret : MRet result := fun A a => Ok a.
#[global] Instance result_bind : MBind result :=
  fun A B f r => match r with Ok a => f a | Raise e => Raise e end.

(** [a <= b] where [a] is a number: a [TypeError] unless [b] is one too. *)
Definition le_num_value (a : pynum) (b : value) : result bool :=
  match as_num b with
  | Some n => Ok (num_le a n)
  | None => Raise TypeError
  end.

(** [a <= b] where [b] is a number. *)
Definition le_value_num (a : value) (b : pynum) : result bool :=
  match as_num a with
  | Some n => Ok (num_le n b)
  | None => Raise TypeError
  end.

(** ** Builtins on bytes *)

(** [int.from_bytes(bs, "big")]. *)
Definition int_from_bytes_big (bs : list byte) : Z :=
  fold_left (fun acc b => (acc * 256 + Z.of_N (Byte.to_N b))%Z) bs 0%Z.

Definition hex_digit (n : N) : N :=
  if (n <? 10)%N then (48 + n)%N else (87 + n)%N.

(** One byte of [repr(bytes)] inside quotes [q]. *)
Definition repr_byte (q : N) (b : byte) : pystr :=
  let c := Byte.to_N b in
  if (c =? q)%N || (c =? 92)%N then [92%N; c]
  else if (c =? 9)%N then cps "\t"
  else if (c =? 10)%N then cps "\n"
  else if (c =? 13)%N then cps "\r"
  else if (c <? 32)%N || (127 <=? c)%N
       then [92%N; 120%N; hex_digit (c / 16); hex_digit (c mod 16)]
  else [c].

Definition has_byte (c : N) (bs : list byte) : bool :=
  existsb (fun b => (Byte.to_N b =? c)%N) bs.

(** [str(bs)] for [bs : bytes], that is [repr(bs)]: [b'...'], in double
    quotes when the bytes hold a single quote and no double quote. *)
Definition str_of_bytes (bs : list byte) : pystr :=
  let q := if has_byte 39 bs && negb (has_byte 34 bs) then 34%N else 39%N in
  98%N :: q :: flat_map (repr_byte q) bs ++ [q].

(** [len(v)]. *)
Definition py_len (v : value) : result nat :=
  match v with
  | VStr s => Ok (length s)
  | VBytes bs => Ok (length bs)
  | VList l => Ok (length l)
  | VDict d => Ok (size d)
  | _ => Raise TypeError
  end.

(** [v[i]] for an int index [i >= 0]; the keys of a dict are strings, so
    an int is never one of them. *)
Definition py_index (v : value) (i : nat) : result value :=
  match v with
  | VList l => match l !! i with Some x => Ok x | None => Raise IndexError end
  | VStr s => match s !! i with Some c => Ok (VStr [c]) | None => Raise IndexError end
  | VBytes bs =>
      match bs !! i with
      | Some b => Ok (VInt (Z.of_N (Byte.to_N b)))
      | None => Raise IndexError
      end
  | VDict _ => Raise KeyError
  | _ => Raise TypeError
  end.

(** [v.get(key, default)]: only a dict has the method. *)
Definition py_get (v : value) (key : string) (default : value) : result value :=
  match v with
  | VDict d => Ok (match d !! key with Some x => x | None => default end)
  | _ => Raise AttributeError
  end.

(** [d.get(key)] on a dict: [None] when the key is missing. *)
Definition dict_get (d : gmap string value) (key : string) : value :=
  match d !! key with Some x => x | None => VNone end.

(** ** Text codecs *)

(** [s.encode("ascii")]: a code point above 127 raises. *)
Definition encode_ascii (s : pystr) : result (list byte) :=
  if forallb (fun c => (c <? 128)%N) s
  then Ok (map byte_of s)
  else Raise UnicodeEncodeError.

(** The UTF-8 bytes of one code point; [None] for a surrogate or a number
    beyond U+10FFFF. *)
Definition utf8_of_cp (c : N) : option (list N) :=
  if (c <? 128)%N then Some [c]
  else if (c <? 2048)%N then Some [192 + c / 64; 128 + c mod 64]%N
  else if (55296 <=? c)%N && (c <? 57344)%N then None
  else if (c <? 65536)%N
       then Some [224 + c / 4096; 128 + (c / 64) mod 64; 128 + c mod 64]%N
  else if (c <? 1114112)%N
       then Some [240 + c / 262144; 128 + (c / 4096) mod 64;
                  128 + (c / 64) mod 64; 128 + c mod 64]%N
  else None.

(** A code point [encode("utf-8")] accepts. *)
Definition encodable (c : N) : Prop := utf8_of_cp c <> None.

(** [s.encode("utf-8")]. *)
Fixpoint encode_utf8 (s : pystr) : result (list byte) :=
  match s with
  | [] => Ok []
  | c :: rest =>
      match utf8_of_cp c with
      | None => Raise UnicodeEncodeError
      | Some bs =>
          match encode_utf8 rest with
          | Ok out => Ok (map byte_of bs ++ out)
          | Raise e => Raise e
          end
      end
  end.

Definition is_cont (b : N) : bool := (128 <=? b)%N && (b <? 192)%N.

(** Length of the sequence a lead byte opens; 0 for a byte that opens none. *)
Definition lead_len (b0 : N) : nat :=
  if (b0 <? 128)%N then 1
  else if (b0 <? 194)%N then 0
  else if (b0 <? 224)%N then 2
  else if (b0 <? 240)%N then 3
  else if (b0 <? 245)%N then 4
  else 0.

(** The second byte is a continuation byte, in the narrower range that
    rules out overlong forms, surrogates and values beyond U+10FFFF. *)
Definition second_ok (b0 b1 : N) : bool :=
  if (b0 =? 224)%N then (160 <=? b1)%N && (b1 <? 192)%N
  else if (b0 =? 237)%N then (128 <=? b1)%N && (b1 <? 160)%N
  else if (b0 =? 240)%N then (144 <=? b1)%N && (b1 <? 192)%N
  else if (b0 =? 244)%N then (128 <=? b1)%N && (b1 <? 144)%N
  else is_cont b1.

(** [bs.decode("utf-8", errors="ignore")] on byte values: well-formed
    sequences decode, every other byte is dropped. *)
Fixpoint decode_utf8_ignore (bs : list N) : pystr :=
  match bs with
  | [] => []
  | b0 :: r0 =>
      match lead_len b0, r0 with
      | 1, _ => b0 :: decode_utf8_ignore r0
      | 2, b1 :: r1 =>
          if second_ok b0 b1
          then ((b0 - 192) * 64 + (b1 - 128))%N :: decode_utf8_ignore r1
          else decode_utf8_ignore r0
      | 3, b1 :: b2 :: r2 =>
          if second_ok b0 b1 && is_cont b2
          then ((b0 - 224) * 4096 + (b1 - 128) * 64 + (b2 - 128))%N
               :: decode_utf8_ignore r2
          else decode_utf8_ignore r0
      | 4, b1 :: b2 :: b3 :: r3 =>
          if second_ok b0 b1 && is_cont b2 && is_cont b3
          then ((b0 - 240) * 262144 + (b1 - 128) * 4096
                + (b2 - 128) * 64 + (b3 - 128))%N
               :: decode_utf8_ignore r3
          else decode_utf8_ignore r0
      | _, _ => decode_utf8_ignore r0
      end
  end.

Definition decode_ignore (bs : list byte) : pystr :=
  decode_utf8_ignore (map Byte.to_N bs).

(** [c.isspace()], the characters [str.strip()] removes. *)
Definition is_space (c : N) : bool :=
  ((9 <=? c)%N && (c <=? 13)%N) || ((28 <=? c)%N && (c <=? 32)%N)
  || (c =? 133)%N || (c =? 160)%N || (c =? 5760)%N
  || ((8192 <=? c)%N && (c <=? 8202)%N)
  || (c =? 8232)%N || (c =? 8233)%N || (c =? 8239)%N
  || (c =? 8287)%N || (c =? 12288)%N.

Fixpoint lstrip (s : pystr) : pystr :=
  match s with
  | c :: rest => if is_space c then lstrip rest else s
  | [] => []
  end.

(** [s.strip()]. *)
Definition strip (s : pystr) : pystr := rev (lstrip (rev (lstrip s))).

Definition is_ascii (s : pystr) : bool := forallb (fun c => (c <? 128)%N) s.

Definition pystr_eqb (a b : pystr) : bool := bool_decide (a = b).

(** [secrets.compare_digest(a, b)] on two [str]: equality, and a
    [TypeError] when either holds a non-ASCII character. *)
Definition compare_digest (a b : pystr) : result bool :=
  if is_ascii a && is_ascii b then Ok (pystr_eqb a b) else Raise TypeError.

(** ** [base64.b64encode] *)

Definition b64_char (i : N) : N :=
  if (i <? 26)%N then (65 + i)%N
  else if (i <? 52)%N then (97 + (i - 26))%N
  else if (i <? 62)%N then (48 + (i - 52))%N
  else if (i =? 62)%N then 43%N else 47%N.

Fixpoint b64_groups (bs : list N) : list N :=
  match bs with
  | [] => []
  | [a] => [b64_char (a / 4); b64_char ((a mod 4) * 16); 61; 61]%N
  | [a; b] =>
      [b64_char (a / 4); b64_char ((a mod 4) * 16 + b / 16);
       b64_char ((b mod 16) * 4); 61]%N
  | a :: b :: c :: rest =>
      [b64_char (a / 4); b64_char ((a mod 4) * 16 + b / 16);
       b64_char ((b mod 16) * 4 + c / 64); b64_char (c mod 64)]%N
      ++ b64_groups rest
  end.

Definition b64encode (bs : list byte) : list byte :=
  map byte_of (b64_groups (map Byte.to_N bs)).

(** ** [hashlib.md5] (RFC 1321), on 32-bit words held in [N] *)

Definition w32 (x : N) : N := (x mod 4294967296)%N.

Definition rotl32 (x : N) (c : N) : N :=
  w32 (N.lor (N.shiftl x c) (N.shiftr x (32 - c))).

Definition not32 (x : N) : N := N.lxor x 4294967295.

Definition md5_K : list N :=
  [3614090360; 3905402710; 606105819; 3250441966; 4118548399; 1200080426;
   2821735955; 4249261313; 1770035416; 2336552879; 4294925233; 2304563134;
   1804603682; 4254626195; 2792965006; 1236535329; 4129170786; 3225465664;
   643717713; 3921069994; 3593408605; 38016083; 3634488961; 3889429448;
   568446438; 3275163606; 4107603335; 1163531501; 2850285829; 4243563512;
   1735328473; 2368359562; 4294588738; 2272392833; 1839030562; 4259657740;
   2763975236; 1272893353; 4139469664; 3200236656; 681279174; 3936430074;
   3572445317; 76029189; 3654602809; 3873151461; 530742520; 3299628645;
   4096336452; 1126891415; 2878612391; 4237533241; 1700485571; 2399980690;
   4293915773; 2240044497; 1873313359; 4264355552; 2734768916; 1309151649;
   4149444226; 3174756917; 718787259; 3951481745]%N.

Definition md5_S : list N :=
  [7; 12; 17; 22; 7; 12; 17; 22; 7; 12; 17; 22; 7; 12; 17; 22;
   5; 9; 14; 20; 5; 9; 14; 20; 5; 9; 14; 20; 5; 9; 14; 20;
   4; 11; 16; 23; 4; 11; 16; 23; 4; 11; 16; 23; 4; 11; 16; 23;
   6; 10; 15; 21; 6; 10; 15; 21; 6; 10; 15; 21; 6; 10; 15; 21]%N.

Definition nthN (l : list N) (i : N) : N := nth (N.to_nat i) l 0%N.

(** Round [i] of the compression function on the state [(A, B, C, D)]. *)
Definition md5_round (M : list N) (st : N * N * N * N) (i : N)
  : N * N * N * N :=
  let '(A, B, C, D) := st in
  let '(F, g) :=
    if (i <? 16)%N then (N.lor (N.land B C) (N.land (not32 B) D), i)
    else if (i <? 32)%N
         then (N.lor (N.land D B) (N.land (not32 D) C), (5 * i + 1) mod 16)%N
    else if (i <? 48)%N then (N.lxor (N.lxor B C) D, (3 * i + 5) mod 16)%N
    else (N.lxor C (N.lor B (not32 D)), (7 * i) mod 16)%N in
  let F' := w32 (F + A + nthN md5_K i + nthN M g) in
  (D, w32 (B + rotl32 F' (nthN md5_S i)), B, C).

(** Little-endian 32-bit words of a list of byte values. *)
Fixpoint le_words (bs : list N) : list N :=
  match bs with
  | a :: b :: c :: d :: rest =>
      (a + 256 * b + 65536 * c + 16777216 * d)%N :: le_words rest
  | _ => []
  end.

Definition le_bytes (n : nat) (x : N) : list N :=
  map (fun k => (x / 256 ^ N.of_nat k) mod 256)%N (seq 0 n).

Definition md5_block (h : N * N * N * N) (block : list N) : N * N * N * N :=
  let M := le_words block in
  let '(a0, b0, c0, d0) := h in
  let '(A, B, C, D) :=
    fold_left (md5_round M) (map N.of_nat (seq 0 64)) h in
  (w32 (a0 + A), w32 (b0 + B), w32 (c0 + C), w32 (d0 + D)).

Fixpoint md5_blocks (n : nat) (h : N * N * N * N) (bs : list N)
  : N * N * N * N :=
  match n with
  | O => h
  | S n' => md5_blocks n' (md5_block h (firstn 64 bs)) (skipn 64 bs)
  end.

(** The message, a one bit, zero bits up to 56 modulo 64 bytes, and the
    bit length as 8 little-endian bytes. *)
Definition md5_pad (bs : list N) : list N :=
  let len := N.of_nat (length bs) in
  let zeros := ((119 - len mod 64) mod 64)%N in
  bs ++ [128%N] ++ repeat 0%N (N.to_nat zeros)
     ++ le_bytes 8 ((8 * len) mod 18446744073709551616)%N.

Definition md5_init : N * N * N * N :=
  (1732584193, 4023233417, 2562383102, 271733878)%N.

(** [hashlib.md5(bs).digest()]. *)
Definition md5 (bs : list byte) : list byte :=
  let padded := md5_pad (map Byte.to_N bs) in
  let '(a, b, c, d) :=
    md5_blocks (length padded / 64) md5_init padded in
  map byte_of (le_bytes 4 a ++ le_bytes 4 b ++ le_bytes 4 c ++ le_bytes 4 d).

(** ** Builtins on [bytes] lines *)

(** Dropping from the front the items that satisfy [P]. *)
Fixpoint lstrip_by {A : Type} (P : A -> bool) (l : list A) : list A :=
  match l with
  | x :: rest => if P x then lstrip_by P rest else l
  | [] => []
  end.

Definition strip_by {A : Type} (P : A -> bool) (l : list A) : list A :=
  rev (lstrip_by P (rev (lstrip_by P l))).

(** The ASCII white space [bytes.strip()] removes: tab, newline, vertical
    tab, form feed, carriage return and space. *)
Definition is_bytes_space (b : byte) : bool :=
  let c := Byte.to_N b in
  ((9 <=? c)%N && (c <=? 13)%N) || (c =? 32)%N.

(** [bs.strip()] on bytes. *)
Definition bytes_strip (bs : list byte) : list byte :=
  strip_by is_bytes_space bs.

(** [bs.startswith(prefix)]. *)
Fixpoint bytes_startswith (bs prefix : list byte) : bool :=
  match prefix, bs with
  | [], _ => true
  | p :: prefix', b :: bs' =>
      (Byte.to_N p =? Byte.to_N b)%N && bytes_startswith bs' prefix'
  | _ :: _, [] => false
  end.

End Py.
Import Py.

(* ===================================================================== *)
(** * Part II. The relay server of [app/main.py]                          *)
(* ===================================================================== *)

Module Relay.

(** ** The storage gateway the pipeline calls *)

(** Keyword arguments of [DatabaseManager.create_vessel]. *)
Record vessel_args : Type := {
  mmsi : value;
  imo : value;
  ship_name : value;
  ship_type : value }.

(** Keyword arguments of [DatabaseManager.create_vessel_state]. *)
Record vessel_state_args : Type := {
  latitude : value;
  longitude : value;
  speed : value;
  heading : value;
  course : value;
  draught : value;
  status : value;
  call_sign : value;
  destination : value;
  vessel_mmsi : value }.

(** A call the pipeline makes on [self.database]. *)
Inductive db_call : Type :=
| CreateVessel (a : vessel_args)
| CreateVesselState (a : vessel_state_args).

(** The two operations of the storage object the persistence step uses: a
    call leaves the store in a new state and may raise. *)
Class StorageGateway (S : Type) : Type := {
  create_vessel : vessel_args -> S -> S * option exn;
  create_vessel_state : vessel_state_args -> S -> S * option exn }.

(** ** [normalize_ais_message] *)

(** [is_enum_instance(value)]. *)
Definition is_enum_instance (v : value) : bool :=
  match v with VEnum _ _ => true | _ => false end.

(** [value.name]; read on enum members only. *)
Definition enum_name (v : value) : value :=
  match v with VEnum name _ => VStr name | _ => v end.

(** One round of the loop over [list(entry.keys())]: an enum member is
    replaced by its [name]. *)
Definition enum_step (entry : gmap string value) (key : string)
  : gmap string value :=
  match entry !! key with
  | Some v =>
      if is_enum_instance v then <[key := enum_name v]> entry else entry
  | None => entry
  end.

Definition convert_enums (entry : gmap string value) : gmap string value :=
  foldl enum_step entry (map fst (map_to_list entry)).

(** The GeoJSON point [{"type": "Point", "coordinates": [lon, lat]}]. *)
Definition geo_point (lon lat : value) : value :=
  VDict (<["type" := VStr (cps "Point")]>
         (<["coordinates" := VList [lon; lat]]> ∅)).

(** The block "Convert lat/lon to GeoJSON Point". *)
Definition fold_lat_lon (entry : gmap string value) : gmap string value :=
  match entry !! "lat", entry !! "lon" with
  | Some lat, Some lon =>
      if isinstance_int_float lat && isinstance_int_float lon
      then delete "lon" (delete "lat" (<["location" := geo_point lon lat]> entry))
      else entry
  | _, _ => entry
  end.

(** The inner function [decode_bytes(value, key)]. *)
Definition decode_bytes (v : value) (key : string) : value :=
  match v with
  | VBytes bs =>
      if (key =? "spare_1")%string || (key =? "spare_2")%string
      then VInt (int_from_bytes_big bs)
      else VStr (str_of_bytes bs)
  | _ => v
  end.

(** One round of the loop over the binary keys. *)
Definition bin_step (entry : gmap string value) (bin_key : string)
  : gmap string value :=
  match entry !! bin_key with
  | Some v => <[bin_key := decode_bytes v bin_key]> entry
  | None => entry
  end.

Definition bin_keys : list string := ["spare_1"; "spare_2"; "data"].

(** The normaliser; the input map is a value, so the copy is implicit. *)
Definition normalize_ais_message (entry : gmap string value)
  : gmap string value :=
  foldl bin_step (fold_lat_lon (convert_enums entry)) bin_keys.

(** ** Coordinate validation and extraction *)

(** [is_valid_geo_point(lon, lat)]: the range test runs only when both
    arguments are truthy, otherwise the point counts as valid. *)
Definition is_valid_geo_point (lon lat : value) : result bool :=
  if truthy lon && truthy lat then
    a ← le_num_value (NInt (-180)) lon;
    if negb a then Ok false else
    b ← le_value_num lon (NInt 180);
    if negb b then Ok false else
    c ← le_num_value (NInt (-90)) lat;
    if negb c then Ok false else
    le_value_num lat (NInt 90)
  else Ok true.

(** [_extract_coordinates(decoded)]: the pair [(lon, lat)], or the
    exception raised (after the error is logged) for an invalid pair. *)
Definition _extract_coordinates (decoded : gmap string value)
  : result (value * value) :=
  let location :=
    match decoded !! "location" with Some x => x | None => VDict ∅ end in
  coords ← py_get location "coordinates" (VList [VNone; VNone]);
  n0 ← py_len coords;
  lon ← (if Nat.ltb 0 n0 then py_index coords 0 else Ok VNone);
  n1 ← py_len coords;
  lat ← (if Nat.ltb 1 n1 then py_index coords 1 else Ok VNone);
  if is_not_None lon && is_not_None lat then
    valid ← is_valid_geo_point lon lat;
    if negb valid then Raise (InvalidCoordinates lon lat) else Ok (lon, lat)
  else Ok (lon, lat).

(** ** [process_ais_message] *)

Definition _extract_vessel_data (decoded : gmap string value) : vessel_args :=
  {| mmsi := dict_get decoded "mmsi";
     imo := dict_get decoded "imo";
     ship_name := dict_get decoded "shipname";
     ship_type := dict_get decoded "ship_type" |}.

(** [_extract_vessel_state(decoded, lon, lat)] followed by the assignment
    [vessel_state["vessel_mmsi"] = vessel["mmsi"]]. *)
Definition _extract_vessel_state (decoded : gmap string value)
    (lon lat : value) (vessel : vessel_args) : vessel_state_args :=
  {| latitude := lat;
     longitude := lon;
     speed := dict_get decoded "speed";
     heading := dict_get decoded "heading";
     course := dict_get decoded "course";
     draught := dict_get decoded "draught";
     status := dict_get decoded "status";
     call_sign := dict_get decoded "callsign";
     destination := dict_get decoded "destination";
     vessel_mmsi := mmsi vessel |}.

(** The persistence step: the calls it made on the storage object, in
    order, the store it leaves, and the exception that ended it, if any. *)
Definition process_ais_message {S : Type} {gateway : StorageGateway S}
    (decoded_normalized : gmap string value) (database : S)
  : list db_call * S * option exn :=
  match _extract_coordinates decoded_normalized with
  | Raise e => ([], database, Some e)
  | Ok (lon, lat) =>
      let vessel := _extract_vessel_data decoded_normalized in
      let vessel_state :=
        _extract_vessel_state decoded_normalized lon lat vessel in
      match create_vessel vessel database with
      | (database1, Some e) => ([CreateVessel vessel], database1, Some e)
      | (database1, None) =>
          let '(database2, raised) :=
            create_vessel_state vessel_state database1 in
          ([CreateVessel vessel; CreateVesselState vessel_state],
           database2, raised)
      end
  end.

(** ** The decoupling queue and the persistence workers *)

(** [asyncio.Queue(maxsize)]: the items waiting, oldest first. *)
Record queue (A : Type) : Type := {
  maxsize : Z;
  items : list A }.
Arguments maxsize {A} q.
Arguments items {A} q.

(** [Queue.full()]: a queue with [maxsize <= 0] is never full. *)
Definition full {A : Type} (q : queue A) : bool :=
  if (maxsize q <=? 0)%Z then false
  else (maxsize q <=? Z.of_nat (length (items q)))%Z.

(** [Queue.put_nowait(item)]: returns at once, with the item appended or
    with [QueueFull] raised. *)
Definition put_nowait {A : Type} (q : queue A) (item : A) : result (queue A) :=
  if full q then Raise QueueFull
  else Ok {| maxsize := maxsize q; items := items q ++ [item] |}.

Inductive level : Type := INFO | WARNING | ERROR.

(** The part of [AISRelayServer] the persistence path touches: the queue,
    the storage object, the records handed to the logger and the calls made
    on the storage object so far. *)
Record server (S : Type) : Type := {
  db_queue : queue (gmap string value);
  database : S;
  log : list (level * string);
  calls : list db_call }.
Arguments db_queue {S} s.
Arguments database {S} s.
Arguments log {S} s.
Arguments calls {S} s.

(** [self.db_queue] as [__init__] creates it. *)
Definition new_db_queue : queue (gmap string value) :=
  {| maxsize := 200000; items := [] |}.

(** The statement "enqueue for DB" of [read_ais_data], with the handler of
    [QueueFull] around it and the handler of the loop body behind that
    (whose record ends with the text of the exception). *)
Definition enqueue_for_db {S : Type} (decoded_normalized : gmap string value)
    (srv : server S) : server S :=
  match put_nowait (db_queue srv) decoded_normalized with
  | Ok q =>
      {| db_queue := q; database := database srv;
         log := log srv; calls := calls srv |}
  | Raise QueueFull =>
      {| db_queue := db_queue srv; database := database srv;
         log := log srv ++ [(WARNING, "DB queue full — dropping AIS message")];
         calls := calls srv |}
  | Raise _ =>
      {| db_queue := db_queue srv; database := database srv;
         log := log srv ++ [(ERROR, "Error processing AIS message")];
         calls := calls srv |}
  end.

(** One round of the loop of [db_worker]: with the queue empty the worker
    stays suspended in [get()]; otherwise it takes the oldest item and runs
    the persistence step, logging the exception if one comes out (the
    record ends with its text). The rounds follow one another here and a
    persistence step is taken as a whole: this is the program with one
    worker, and with its four workers on the schedules where no two
    persistence steps overlap in the executor threads. Steps that overlap
    are left out. *)
Definition db_worker_step {S : Type} {gateway : StorageGateway S}
    (srv : server S)
  : server S :=
  match items (db_queue srv) with
  | [] => srv
  | message :: rest =>
      let '(made, database', raised) :=
        process_ais_message message (database srv) in
      {| db_queue := {| maxsize := maxsize (db_queue srv); items := rest |};
         database := database';
         log := match raised with
                | Some _ => log srv ++ [(ERROR, "DB worker error")]
                | None => log srv
                end;
         calls := calls srv ++ made |}
  end.

Fixpoint db_worker {S : Type} {gateway : StorageGateway S} (rounds : nat)
    (srv : server S) : server S :=
  match rounds with
  | O => srv
  | S n => db_worker n (db_worker_step srv)
  end.

(** ** The login frames of the upstream connection *)

(** [create_logon_msg()]. *)
Definition create_logon_msg (ais_user ais_password : pystr)
  : result (list byte) :=
  user ← encode_ascii ais_user;
  password ← encode_ascii ais_password;
  Ok ([x01] ++ user ++ [x00] ++ password ++ [x00]).

(** [create_logon_msg_hashed()]; the base64 text is ASCII, so encoding it
    gives back its bytes. *)
Definition create_logon_msg_hashed (ais_user ais_password : pystr)
  : result (list byte) :=
  password_utf8 ← encode_utf8 ais_password;
  let md5_hash := md5 password_utf8 in
  let password_encoded := b64encode md5_hash in
  user ← encode_ascii ais_user;
  Ok ([x02] ++ user ++ [x00] ++ password_encoded ++ [x00]).

(** ** The TCP client gate *)

(** What one [reader.read(1)] under [wait_for] meets: a byte, the end of
    the stream, or no data within the timeout. A script that has run out
    stands for a peer that stays silent. *)
Inductive read_event : Type :=
| RData (b : byte)
| REof
| RTimeout.

Definition is_newline (b : byte) : bool := (Byte.to_N b =? 10)%N.

(** The loop of [read_line_limited(reader, max_bytes, timeout)] with [buf]
    as read so far: the line, or the exception, and the script left. *)
Fixpoint read_line_loop (reader : list read_event) (max_bytes : nat)
    (buf : list byte) : result (list byte) * list read_event :=
  match reader with
  | [] => (Raise TimeoutError, [])
  | RTimeout :: rest => (Raise TimeoutError, rest)
  | REof :: rest => (Raise ConnectionError, rest)
  | RData b :: rest =>
      let buf' := buf ++ [b] in
      if Nat.ltb max_bytes (length buf') then (Raise ValueError, rest)
      else if is_newline b then (Ok buf', rest)
      else read_line_loop rest max_bytes buf'
  end.

Definition read_line_limited (reader : list read_event) (max_bytes : nat)
  : result (list byte) * list read_event :=
  read_line_loop reader max_bytes [].

(** [AuthConfig] of [app/configuration.py], the fields the TCP gate reads. *)
Record AuthConfig : Type := {
  tcp_username : pystr;
  tcp_password : pystr;
  enable_tcp_auth : bool }.

(** [AuthConfig.verify_tcp_credentials]: both comparisons run, then [and]. *)
Definition verify_tcp_credentials (cfg : AuthConfig)
    (username password : pystr) : result bool :=
  username_match ← compare_digest username (tcp_username cfg);
  password_match ← compare_digest password (tcp_password cfg);
  Ok (username_match && password_match).

(** The outcome of the gate for one connection: what was written to the
    client, what is left of the script, and the answer or the exception
    that escapes. *)
Record gate_run : Type := {
  written : list (list byte);
  unread : list read_event;
  answer : result bool }.

(** [is_authenticated_tcp_client(reader, writer)]. Only a timeout is
    handled; any other exception leaves the function. Writing to the
    client is taken to succeed. *)
Definition is_authenticated_tcp_client (cfg : AuthConfig)
    (reader : list read_event) : gate_run :=
  if negb (enable_tcp_auth cfg) then
    {| written := []; unread := reader; answer := Ok true |}
  else
    let w0 := [lit "AUTH REQUIRED" ++ [x0d; x0a] ++ lit "Username: "] in
    match read_line_limited reader 64 with
    | (Raise TimeoutError, r1) =>
        {| written := w0 ++ [lit "AUTH TIMEOUT" ++ [x0d; x0a]];
           unread := r1; answer := Ok false |}
    | (Raise e, r1) => {| written := w0; unread := r1; answer := Raise e |}
    | (Ok username_data, r1) =>
        let username := strip (decode_ignore username_data) in
        let w1 := w0 ++ [lit "Password: "] in
        match read_line_limited r1 256 with
        | (Raise TimeoutError, r2) =>
            {| written := w1 ++ [lit "AUTH TIMEOUT" ++ [x0d; x0a]];
               unread := r2; answer := Ok false |}
        | (Raise e, r2) => {| written := w1; unread := r2; answer := Raise e |}
        | (Ok password_data, r2) =>
            let password := strip (decode_ignore password_data) in
            match verify_tcp_credentials cfg username password with
            | Ok true =>
                {| written := w1 ++ [lit "AUTH SUCCESS" ++ [x0d; x0a]];
                   unread := r2; answer := Ok true |}
            | Ok false =>
                {| written := w1 ++ [lit "AUTH FAILED" ++ [x0d; x0a]];
                   unread := r2; answer := Ok false |}
            | Raise e => {| written := w1; unread := r2; answer := Raise e |}
            end
        end
    end.

(** An operation on [self.tcp_clients]. *)
Inductive registry_op : Type :=
| Add (writer : nat)
| Remove (writer : nat).


Definition is_eof (ev : read_event) : bool :=
  match ev with REof => true | _ => false end.

(** The life of one connection in [handle_tcp_client]: what the client was
    sent, the operations made on the registry in order, the registry they
    leave, and the exception that escaped the handler, if one did. The
    plain [reader.read()] returns when the peer closes; while the script
    holds no end of stream the handler stays in it, the writer registered. *)
Record client_run : Type := {
  sent : list (list byte);
  ops : list registry_op;
  tcp_clients : gset nat;
  escaped : option exn }.

Definition handle_tcp_client (cfg : AuthConfig) (writer : nat)
    (reader : list read_event) (clients : gset nat) : client_run :=
  let g := is_authenticated_tcp_client cfg reader in
  match answer g with
  | Ok true =>
      if existsb is_eof (unread g)
      then {| sent := written g; ops := [Add writer; Remove writer];
              tcp_clients := (clients ∪ {[writer]}) ∖ {[writer]};
              escaped := None |}
      else {| sent := written g; ops := [Add writer];
              tcp_clients := clients ∪ {[writer]}; escaped := None |}
  | Ok false =>
      {| sent := written g; ops := []; tcp_clients := clients;
         escaped := None |}
  | Raise e =>
      {| sent := written g; ops := []; tcp_clients := clients;
         escaped := Some e |}
  end.

(** ** Rotation of the live database *)

(** The file names of the database directory with their modification
    times, as [datetime] values counted in microseconds; [None] when the
    directory does not exist. Paths are compared by file name: every path
    the server builds is [database_url / name]. Listing the directory,
    reading a modification time and unlinking a file are taken to succeed. *)
Record rotation : Type := {
  LIVE_DB : string;
  SNAPSHOT_DB : string;
  db_dir : option (gmap string Z);
  rot_log : list (level * string) }.

(** [get_new_db_name()], given the date text of [datetime.now()] and the
    text of the fresh [uuid.uuid4()]. *)
Definition get_new_db_name (date_str uuid_str : string) : string :=
  (date_str ++ "_" ++ String.substring 0 8 uuid_str ++ "_ais_db.db")%string.

(** [reset_db()]: the new live path; creating the [DatabaseManager] makes
    the directory, and [init_db()] creates the file when it is not there. *)
Definition reset_db (date_str uuid_str : string) (now : Z) (r : rotation)
  : rotation :=
  let name := get_new_db_name date_str uuid_str in
  let files := match db_dir r with Some fs => fs | None => ∅ end in
  {| LIVE_DB := name;
     SNAPSHOT_DB := SNAPSHOT_DB r;
     db_dir := Some (match files !! name with
                     | Some _ => files
                     | None => <[name := now]> files
                     end);
     rot_log := rot_log r |}.

(** [timedelta(weeks=weeks)] in microseconds. *)
Definition timedelta_weeks (weeks : Z) : Z := (weeks * 604800000000)%Z.

(** The names [db_dir.glob("*.db")] yields. *)
Definition is_db_file (name : string) : bool :=
  let n := String.length name in
  Nat.leb 3 n && (String.substring (n - 3) 3 name =? ".db")%string.

(** One round of the loop of [delete_old_database] on the directory and
    the names deleted so far ([deleted_count] is their number). *)
Definition delete_step (live snapshot : string) (cutoff_time : Z)
    (acc : gmap string Z * list string) (db_file : string * Z)
  : gmap string Z * list string :=
  let '(files, deleted) := acc in
  let '(name, file_mtime) := db_file in
  if (name =? live)%string || (name =? snapshot)%string then acc
  else if (file_mtime <? cutoff_time)%Z
       then (delete name files, deleted ++ [name])
       else acc.

(** [delete_old_database(weeks)] at time [now]: one record per deleted
    file, then the summary. *)
Definition delete_old_database (weeks : Z) (now : Z) (r : rotation)
  : rotation :=
  let cutoff_time := (now - timedelta_weeks weeks)%Z in
  match db_dir r with
  | None =>
      {| LIVE_DB := LIVE_DB r; SNAPSHOT_DB := SNAPSHOT_DB r; db_dir := None;
         rot_log :=
           rot_log r ++ [(WARNING, "Database directory does not exist")] |}
  | Some files =>
      let globbed :=
        filter (fun f => is_db_file (fst f) = true) (map_to_list files) in
      let '(files', deleted) :=
        foldl (delete_step (LIVE_DB r) (SNAPSHOT_DB r) cutoff_time)
              (files, []) globbed in
      let deleted_count := length deleted in
      {| LIVE_DB := LIVE_DB r; SNAPSHOT_DB := SNAPSHOT_DB r;
         db_dir := Some files';
         rot_log :=
           rot_log r
           ++ map (fun name =>
                     (INFO, "Deleted old database file: " +:+ name)) deleted
           ++ [(INFO, if Nat.ltb 0 deleted_count
                      then "Deleted " +:+ pretty deleted_count
                           +:+ " old database file(s)"
                      else "No old database files to delete")] |}
  end.

(** The rotation step [reset_db_on_new_day()]: a new live database, then
    the cleanup with the retention of one week. (The log file it also
    deletes is no part of the database directory.) *)
Definition reset_db_on_new_day (date_str uuid_str : string) (now : Z)
    (r : rotation) : rotation :=
  delete_old_database 1 now (reset_db date_str uuid_str now r).

(** ** The filter of the upstream lines *)

(** [not line.strip()] for bytes: the empty line is falsy. *)
Definition bytes_truthy (bs : list byte) : bool :=
  match bs with [] => false | _ :: _ => true end.

(** [filter_valid_ais_lines(lines)]: the stripped lines that are not empty
    and do not start with the prefix [$ABVSI]. *)
Definition filter_valid_ais_lines (lines : list (list byte))
  : list (list byte) :=
  map bytes_strip
    (List.filter
       (fun line =>
          bytes_truthy (bytes_strip line)
          && negb (bytes_startswith (bytes_strip line) (lit "$ABVSI")))
       lines).

(** ** The raw fan-out *)

(** [self.tcp_clients.remove(writer)]: a [KeyError] for a writer that is
    not in the set. *)
Definition set_remove (clients : gset nat) (writer : nat)
  : result (gset nat) :=
  if bool_decide (writer ∈ clients) then Ok (clients ∖ {[writer]})
  else Raise KeyError.

(** What one raw broadcast did: the bytes it sent, the writers whose write
    and drain returned, the writers it closed, and the registry it left. *)
Record raw_fanout : Type := {
  data : list byte;
  delivered : list nat;
  closed : list nat;
  remaining : gset nat }.

(** Whether writing and draining [d] returns for a writer. *)
Definition drained (write : nat -> list byte -> option exn)
    (d : list byte) (writer : nat) : bool :=
  match write writer d with None => true | Some _ => false end.

(** One round of the first loop on the writers served and the set [dead];
    [write] tells what writing and draining raise for a writer. *)
Definition raw_step (write : nat -> list byte -> option exn)
    (data : list byte) (acc : list nat * list nat) (writer : nat)
  : list nat * list nat :=
  let '(served, dead) := acc in
  match write writer data with
  | None => (served ++ [writer], dead)
  | Some _ => (served, dead ++ [writer])
  end.

(** The second loop: each dead writer is removed, then closed. *)
Fixpoint remove_dead (clients : gset nat) (dead closed : list nat)
  : result (gset nat * list nat) :=
  match dead with
  | [] => Ok (clients, closed)
  | writer :: rest =>
      clients' ← set_remove clients writer;
      remove_dead clients' rest (closed ++ [writer])
  end.

(** [broadcast_tcp(message)] on the registry [tcp_clients], for a broadcast
    during which no other task changes the registry; the writers are
    visited in the order of the finite set. *)
Definition broadcast_tcp (write : nat -> list byte -> option exn)
    (message : pystr) (tcp_clients : gset nat) : result raw_fanout :=
  data ← encode_utf8 (message ++ [13; 10]%N);
  let '(served, dead) :=
    foldl (raw_step write data) ([], []) (elements tcp_clients) in
  '(clients', closed) ← remove_dead tcp_clients dead [];
  Ok {| data := data; delivered := served; closed := closed;
        remaining := clients' |}.

(** The block "RAW message for TCP relay" of [read_ais_data]: the line is
    decoded, stripped and, unless nothing is left of it, broadcast. As
    for [broadcast_tcp], this is a relay during which no other task
    changes the registry: a handler that adds or removes a writer while a
    drain is awaited makes the iteration over the set raise
    [RuntimeError], or the later [remove] raise [KeyError], and neither
    is caught in the block; that path is left out. *)
Definition relay_raw_line (write : nat -> list byte -> option exn)
    (line : list byte) (tcp_clients : gset nat) : result (option raw_fanout) :=
  let raw_message := strip (decode_ignore line) in
  match raw_message with
  | [] => Ok None
  | _ :: _ => run ← broadcast_tcp write raw_message tcp_clients; Ok (Some run)
  end.

End Relay.

(* ===================================================================== *)
(** * The structured fan-out of [main.py]                                 *)
(* ===================================================================== *)

Module Fanout.

(** The dataclass [GeographicBounds]; its fields are declared [float] and
    hold the numbers of the filter message. *)
Record GeographicBounds : Type := {
  min_lat : pynum;
  max_lat : pynum;
  min_lon : pynum;
  max_lon : pynum }.

(** [GeographicBounds.contains(lat, lon)]: two chained comparisons joined
    by [and], each stopping at the first false link. *)
Definition contains (self : GeographicBounds) (lat lon : value)
  : result bool :=
  a ← le_num_value (min_lat self) lat;
  if negb a then Ok false else
  b ← le_value_num lat (max_lat self);
  if negb b then Ok false else
  c ← le_num_value (min_lon self) lon;
  if negb c then Ok false else
  le_value_num lon (max_lon self).

(** [v[key]] for a string key. *)
Definition py_getitem (v : value) (key : string) : result value :=
  match v with
  | VDict d => match d !! key with Some x => Ok x | None => Raise KeyError end
  | _ => Raise TypeError
  end.

(** The unpacking [a, b = v]: [v] is iterated and must yield two items; a
    dict yields its keys. *)
Definition unpack2 (v : value) : result (value * value) :=
  match v with
  | VList [a; b] => Ok (a, b)
  | VList _ => Raise ValueError
  | VStr [a; b] => Ok (VStr [a], VStr [b])
  | VStr _ => Raise ValueError
  | VBytes [a; b] =>
      Ok (VInt (Z.of_N (Byte.to_N a)), VInt (Z.of_N (Byte.to_N b)))
  | VBytes _ => Raise ValueError
  | VDict d =>
      match map_to_list d with
      | [(k1, _); (k2, _)] => Ok (VStr (cps k1), VStr (cps k2))
      | _ => Raise ValueError
      end
  | _ => Raise TypeError
  end.

(** The filter of the loop body of [broadcast_ws]: [Ok true] when control
    reaches [send_json], [Ok false] when a [continue] is taken. A bounds
    object is always truthy, so [if bounds:] tests that a filter is set. *)
Definition passes_filter (bounds : option GeographicBounds)
    (message : gmap string value) : result bool :=
  match bounds with
  | None => Ok true
  | Some b =>
      let loc := dict_get message "location" in
      if negb (truthy loc) then Ok false else
      coordinates ← py_getitem loc "coordinates";
      '(lon, lat) ← unpack2 coordinates;
      contains b lat lon
  end.

(** What one round of the loop did for its subscriber. *)
Inductive delivery : Type :=
| Sent
| Skipped
| Dead (e : exn).

(** One round: the filter, then [ws.send_json(message)], which raises what
    the transport [send_json] says; every exception marks the socket. *)
Definition deliver (send_json : nat -> gmap string value -> option exn)
    (message : gmap string value) (ws : nat)
    (bounds : option GeographicBounds) : delivery :=
  match passes_filter bounds message with
  | Raise e => Dead e
  | Ok false => Skipped
  | Ok true =>
      match send_json ws message with
      | Some e => Dead e
      | None => Sent
      end
  end.

(** The state of the first loop: the sockets [send_json] was called on
    and returned, those it was called on at all, and the list [dead]. *)
Record fanout : Type := {
  sent : list nat;
  called : list nat;
  dead : list nat }.

Definition broadcast_step (send_json : nat -> gmap string value -> option exn)
    (message : gmap string value) (acc : fanout)
    (client : nat * option GeographicBounds) : fanout :=
  let '(ws, bounds) := client in
  match passes_filter bounds message with
  | Raise _ =>
      {| sent := sent acc; called := called acc; dead := dead acc ++ [ws] |}
  | Ok false => acc
  | Ok true =>
      match send_json ws message with
      | Some _ =>
          {| sent := sent acc; called := called acc ++ [ws];
             dead := dead acc ++ [ws] |}
      | None =>
          {| sent := sent acc ++ [ws]; called := called acc ++ [ws];
             dead := dead acc |}
      end
  end.

(** [broadcast_ws(message)] on the registry [ws_clients] (socket to
    filter) for a broadcast during which no other task touches the
    registry: the bookkeeping of the first loop and the registry after the
    second loop has popped the dead sockets. The registry is a finite map,
    so one broadcast visits the sockets in the order of the map, not in
    the order in which they connected. *)
Definition broadcast_ws_undisturbed
    (send_json : nat -> gmap string value -> option exn)
    (message : gmap string value)
    (ws_clients : gmap nat (option GeographicBounds))
  : fanout * gmap nat (option GeographicBounds) :=
  let run :=
    foldl (broadcast_step send_json message)
          {| sent := []; called := []; dead := [] |}
          (map_to_list ws_clients) in
  (run, foldl (fun clients ws => delete ws clients) ws_clients (dead run)).

(** How the first loop of [broadcast_ws] ends. The iteration over
    [self.ws_clients.items()] comes to its end, and the second loop runs.
    Or the [for] statement, which stands outside the [try], raises
    [RuntimeError] (dictionary changed size during iteration) when it asks
    for the next item, because other tasks added or popped sockets while a
    send was awaited; the exception leaves [broadcast_ws] and the second
    loop does not run. Or other tasks left as many sockets but other ones:
    what the iteration yields next then depends on the layout of the
    dictionary, and the model stops there. *)
Inductive loop_end : Type :=
| Exhausted
| RuntimeError
| KeysChanged.

(** The first loop with the other tasks running at its one suspension
    point: [others ws clients] is the registry the handlers of [ws_ais]
    have made of [clients] by the time the send to [ws] returns or raises
    (they accept sockets, set filters and pop sockets). [used] and [keys]
    are the size and the keys of the registry when the iteration began,
    [pending] the sockets not yet visited; each socket is visited with the
    filter it has at that moment. *)
Fixpoint first_loop (send_json : nat -> gmap string value -> option exn)
    (others : nat -> gmap nat (option GeographicBounds)
              -> gmap nat (option GeographicBounds))
    (message : gmap string value) (used : nat) (keys : gset nat)
    (pending : list nat) (acc : fanout)
    (clients : gmap nat (option GeographicBounds))
  : fanout * gmap nat (option GeographicBounds) * loop_end :=
  if negb (Nat.eqb (size clients) used) then (acc, clients, RuntimeError)
  else if negb (bool_decide (dom clients = keys))
       then (acc, clients, KeysChanged)
  else
    match pending with
    | [] => (acc, clients, Exhausted)
    | ws :: rest =>
        match clients !! ws with
        | None => (acc, clients, KeysChanged)
        | Some bounds =>
            first_loop send_json others message used keys rest
              (broadcast_step send_json message acc (ws, bounds))
              (match passes_filter bounds message with
               | Ok true => others ws clients
               | _ => clients
               end)
        end
    end.

(** [broadcast_ws(message)] among the other tasks: the bookkeeping of the
    first loop, the registry it leaves, and how the first loop ended; the
    dead sockets are popped only when the first loop came to its end. *)
Definition broadcast_ws (send_json : nat -> gmap string value -> option exn)
    (others : nat -> gmap nat (option GeographicBounds)
              -> gmap nat (option GeographicBounds))
    (message : gmap string value)
    (ws_clients : gmap nat (option GeographicBounds))
  : fanout * gmap nat (option GeographicBounds) * loop_end :=
  let '(run, clients, ended) :=
    first_loop send_json others message (size ws_clients) (dom ws_clients)
      (map fst (map_to_list ws_clients))
      {| sent := []; called := []; dead := [] |} ws_clients in
  match ended with
  | Exhausted =>
      (run, foldl (fun clients ws => delete ws clients) clients (dead run),
       Exhausted)
  | _ => (run, clients, ended)
  end.

End Fanout.

(* ===================================================================== *)
(** * The storage of [connector/database_unrestricted.py]                 *)
(* ===================================================================== *)

Module Db.

(** A value as SQLite stores it. *)
Inductive sqlval : Type :=
| SNull
| SInteger (z : Z)
| SReal (f : float)
| SText (s : pystr)
| SBlob (bs : list byte).

(** What the model takes from SQLite's environment: the text a REAL turns
    into when it meets TEXT affinity, and the text of [datetime('now')]. *)
Record sqlite_env : Type := {
  real_to_text : float -> pystr;
  now : pystr }.

(** Binding a Python value to a statement parameter. *)
Definition bind_param (v : value) : result sqlval :=
  let bind_int (z : Z) :=
    if (- 2 ^ 63 <=? z)%Z && (z <? 2 ^ 63)%Z
    then Ok (SInteger z) else Raise OverflowError in
  match v with
  | VNone => Ok SNull
  | VBool b => Ok (SInteger (Z.b2z b))
  | VInt z => bind_int z
  | VEnum _ (Some z) => bind_int z
  | VFloat f => Ok (if PrimFloat.eqb f f then SReal f else SNull)
  | VStr s => _ ← encode_utf8 s; Ok (SText s)
  | VBytes bs => Ok (SBlob bs)
  | _ => Raise ProgrammingError
  end.

Section Storage.

Variable env : sqlite_env.

(** TEXT affinity: a number becomes its text, the rest stays as it is. *)
Definition text_affinity (v : sqlval) : sqlval :=
  match v with
  | SInteger z => SText (cps (pretty z))
  | SReal f => SText (real_to_text env f)
  | _ => v
  end.

(** [a = b] on two values that went through TEXT affinity: NULL equals
    nothing, texts and blobs compare by content. *)
Definition text_eqb (a b : sqlval) : bool :=
  match a, b with
  | SText x, SText y => bool_decide (x = y)
  | SBlob x, SBlob y => bool_decide (map Byte.to_N x = map Byte.to_N y)
  | _, _ => false
  end.

(** A row of [vessels]. *)
Record vessel : Type := {
  mmsi : sqlval;
  imo : sqlval;
  ship_name : sqlval;
  ship_type : sqlval;
  created_at : sqlval;
  updated_at : sqlval }.

(** A row of [vessel_states]; the affinity of the numeric columns is not
    applied, the values are kept as bound. *)
Record vessel_state : Type := {
  id : Z;
  vessel_mmsi : sqlval;
  latitude : sqlval;
  longitude : sqlval;
  speed : sqlval;
  heading : sqlval;
  course : sqlval;
  draught : sqlval;
  status : sqlval;
  call_sign : sqlval;
  destination : sqlval;
  received_at : sqlval;
  state_updated_at : sqlval }.

(** The database file: both tables in row order and the AUTOINCREMENT
    counter of [vessel_states]. Foreign keys are not enforced: the pragma
    is set on the connection of [_apply_pragma] only, and every method
    opens a connection of its own. *)
Record db : Type := {
  vessels : list vessel;
  vessel_states : list vessel_state;
  seq : Z }.

Definition init_db : db := {| vessels := []; vessel_states := []; seq := 0 |}.

(** The rows [SELECT * FROM vessels WHERE mmsi=?] matches. *)
Definition has_mmsi (key : sqlval) (row : vessel) : bool :=
  text_eqb (mmsi row) (text_affinity key).

(** [get_vessel(mmsi)]: the first matching row, or [None]. *)
Definition get_vessel (d : db) (m : value) : result (option vessel) :=
  key ← bind_param m;
  Ok (find (has_mmsi key) (vessels d)).

(** The keyword arguments [k=v] of [update_vessel] and [create_vessel]. *)
Record vessel_fields : Type := {
  f_imo : value;
  f_ship_name : value;
  f_ship_type : value }.

(** A column of the SET clause: kept when the argument is [None]. *)
Definition set_field (arg : value) (old : sqlval) : result sqlval :=
  match arg with
  | VNone => Ok old
  | _ => v ← bind_param arg; Ok (text_affinity v)
  end.

(** [update_vessel(mmsi, **kwargs)]: the arguments that are not [None]
    are set on every matching row, and [updated_at] with them. *)
Definition update_vessel (d : db) (m : value) (kw : vessel_fields)
  : db * option exn :=
  match set_field (f_imo kw) SNull, set_field (f_ship_name kw) SNull,
        set_field (f_ship_type kw) SNull, bind_param m with
  | Ok _, Ok _, Ok _, Ok key =>
      let upd (row : vessel) : vessel :=
        if has_mmsi key row then
          {| mmsi := mmsi row;
             imo := match set_field (f_imo kw) (imo row) with
                    | Ok v => v | Raise _ => imo row end;
             ship_name := match set_field (f_ship_name kw) (ship_name row) with
                          | Ok v => v | Raise _ => ship_name row end;
             ship_type := match set_field (f_ship_type kw) (ship_type row) with
                          | Ok v => v | Raise _ => ship_type row end;
             created_at := created_at row;
             updated_at := SText (now env) |}
        else row in
      ({| vessels := map upd (vessels d);
          vessel_states := vessel_states d; seq := seq d |}, None)
  | Raise e, _, _, _ => (d, Some e)
  | _, Raise e, _, _ => (d, Some e)
  | _, _, Raise e, _ => (d, Some e)
  | _, _, _, Raise e => (d, Some e)
  end.

(** [INSERT INTO vessels]: the primary key admits NULL and, among the
    other values, no second row with the same [mmsi]. *)
Definition insert_vessel (d : db) (m : value) (kw : vessel_fields)
  : db * option exn :=
  match bind_param m, bind_param (f_imo kw), bind_param (f_ship_name kw),
        bind_param (f_ship_type kw) with
  | Ok key, Ok i, Ok n, Ok t =>
      if existsb (has_mmsi key) (vessels d) then (d, Some IntegrityError)
      else
        ({| vessels :=
              vessels d ++
              [{| mmsi := text_affinity key; imo := text_affinity i;
                  ship_name := text_affinity n; ship_type := text_affinity t;
                  created_at := SText (now env);
                  updated_at := SText (now env) |}];
            vessel_states := vessel_states d; seq := seq d |}, None)
  | Raise e, _, _, _ => (d, Some e)
  | _, Raise e, _, _ => (d, Some e)
  | _, _, Raise e, _ => (d, Some e)
  | _, _, _, Raise e => (d, Some e)
  end.

(** [create_vessel(mmsi, imo, ship_name, ship_type)]: an update when the
    vessel is there, an insert otherwise. The lookup and the statement
    see the same database here: no other connection writes between them
    ([create_vessel_between] lifts this). *)
Definition create_vessel (d : db) (m : value) (kw : vessel_fields)
  : db * option exn :=
  match get_vessel d m with
  | Raise e => (d, Some e)
  | Ok (Some _) => update_vessel d m kw
  | Ok None => insert_vessel d m kw
  end.

(** [create_vessel] when other connections write between its two
    statements: every method opens a connection of its own and the
    workers run in threads, so [seen] is the database as [get_vessel]
    read it and [d] the database on which the UPDATE or INSERT runs. *)
Definition create_vessel_between (seen d : db) (m : value)
    (kw : vessel_fields) : db * option exn :=
  match get_vessel seen m with
  | Raise e => (d, Some e)
  | Ok (Some _) => update_vessel d m kw
  | Ok None => insert_vessel d m kw
  end.

(** The keyword arguments [**fields] of [create_vessel_state]. *)
Record state_fields : Type := {
  f_latitude : value;
  f_longitude : value;
  f_speed : value;
  f_heading : value;
  f_course : value;
  f_draught : value;
  f_status : value;
  f_call_sign : value;
  f_destination : value }.

Definition bind_all (vs : list value) : result (list sqlval) :=
  foldr (fun v acc => x ← bind_param v; xs ← acc; Ok (x :: xs)) (Ok []) vs.

(** [INSERT INTO vessel_states]: a fresh [id] and the bound values. *)
Definition insert_vessel_state (d : db) (m : value) (fields : state_fields)
  : db * option exn :=
  match bind_all [m; f_latitude fields; f_longitude fields; f_speed fields;
                  f_heading fields; f_course fields; f_draught fields;
                  f_status fields; f_call_sign fields; f_destination fields]
  with
  | Ok [key; la; lo; sp; he; co; dr; st; cs; de] =>
      ({| vessels := vessels d;
          vessel_states :=
            vessel_states d ++
            [{| id := (seq d + 1)%Z; vessel_mmsi := text_affinity key;
                latitude := la; longitude := lo; speed := sp; heading := he;
                course := co; draught := dr; status := text_affinity st;
                call_sign := text_affinity cs;
                destination := text_affinity de;
                received_at := SText (now env);
                state_updated_at := SText (now env) |}];
          seq := (seq d + 1)%Z |}, None)
  | Ok _ => (d, Some ProgrammingError)
  | Raise e => (d, Some e)
  end.

Definition no_fields : vessel_fields :=
  {| f_imo := VNone; f_ship_name := VNone; f_ship_type := VNone |}.

(** [create_vessel_state(vessel_mmsi, **fields)]: the vessel row is
    created first when [get_vessel] finds none. *)
Definition create_vessel_state (d : db) (m : value) (fields : state_fields)
  : db * option exn :=
  match get_vessel d m with
  | Raise e => (d, Some e)
  | Ok (Some _) => insert_vessel_state d m fields
  | Ok None =>
      match create_vessel d m no_fields with
      | (d1, Some e) => (d1, Some e)
      | (d1, None) => insert_vessel_state d1 m fields
      end
  end.

End Storage.

End Db.

(** The [DatabaseManager] as the storage object of the relay server. *)
#[global] Instance DatabaseManager_gateway (env : Db.sqlite_env)
  : Relay.StorageGateway Db.db := {
  Relay.create_vessel a d :=
    Db.create_vessel env d (Relay.mmsi a)
      {| Db.f_imo := Relay.imo a; Db.f_ship_name := Relay.ship_name a;
         Db.f_ship_type := Relay.ship_type a |};
  Relay.create_vessel_state a d :=
    Db.create_vessel_state env d (Relay.vessel_mmsi a)
      {| Db.f_latitude := Relay.latitude a;
         Db.f_longitude := Relay.longitude a;
         Db.f_speed := Relay.speed a; Db.f_heading := Relay.heading a;
         Db.f_course := Relay.course a; Db.f_draught := Relay.draught a;
         Db.f_status := Relay.status a; Db.f_call_sign := Relay.call_sign a;
         Db.f_destination := Relay.destination a |} }.

(* ===================================================================== *)
(** * Notions used to state the properties                                *)
(* ===================================================================== *)

Module Spec.

(** A value that is a number of its own: an [int], a [float] or a [bool]. *)
Definition is_number (v : value) : bool :=
  match v with
  | VBool _ | VInt _ | VFloat _ => true
  | _ => false
  end.

(** [lo <= v <= hi] for a value that is a number. *)
Definition within (lo hi : Z) (v : value) : bool :=
  match as_num v with
  | Some n => num_le (NInt lo) n && num_le n (NInt hi)
  | None => false
  end.

(** Longitude in [-180, 180] and latitude in [-90, 90]. *)
Definition in_valid_range (lon lat : value) : bool :=
  within (-180) 180 lon && within (-90) 90 lat.

(** What the last loop of the normaliser does to the value under [key]. *)
Definition decode_field (key : string) (v : value) : value :=
  if bool_decide (key ∈ Relay.bin_keys) then Relay.decode_bytes v key else v.

(** A file the cleanup removes: a [.db] file that is neither the live
    database nor the snapshot and whose age, [now] minus its modification
    time, exceeds [weeks] weeks. *)
Definition expired (live snapshot : string) (weeks now : Z)
    (name : string) (mtime : Z) : bool :=
  Relay.is_db_file name
  && negb (name =? live)%string && negb (name =? snapshot)%string
  && (Relay.timedelta_weeks weeks <? now - mtime)%Z.

(** The directory after the cleanup, file by file. *)
Definition after_cleanup (live snapshot : string) (weeks now : Z)
    (files : gmap string Z) (name : string) : option Z :=
  match files !! name with
  | Some mtime =>
      if expired live snapshot weeks now name mtime then None else Some mtime
  | None => None
  end.

(** [min_lat <= lat <= max_lat] and [min_lon <= lon <= max_lon]. *)
Definition in_bounds (b : Fanout.GeographicBounds) (lat lon : pynum) : bool :=
  num_le (Fanout.min_lat b) lat && num_le lat (Fanout.max_lat b)
  && num_le (Fanout.min_lon b) lon && num_le lon (Fanout.max_lon b).

(** The report carries the coordinates [(lat, lon)]: its [location] has
    [coordinates] that unpack into a longitude and a latitude, both
    numbers. *)
Definition carries_coordinates (message : gmap string value)
    (lat lon : pynum) : Prop :=
  exists loc coordinates lon_v lat_v,
    message !! "location" = Some loc /\
    Fanout.py_getitem loc "coordinates" = Ok coordinates /\
    Fanout.unpack2 coordinates = Ok (lon_v, lat_v) /\
    as_num lat_v = Some lat /\ as_num lon_v = Some lon.

(** What a client that types [s] and a newline puts on the wire. *)
Definition line (s : pystr) : list Relay.read_event :=
  map Relay.RData (map byte_of s ++ [x0a]).



Definition auth_required : list byte :=
  lit "AUTH REQUIRED" ++ [x0d; x0a] ++ lit "Username: ".




(** A value SQLite can bind to a statement parameter. *)
Definition bindable (v : value) : Prop := exists x, Db.bind_param v = Ok x.

(** The exceptions that binding a parameter raises. *)
Definition binding_error (e : exn) : Prop :=
  e = OverflowError \/ e = ProgrammingError \/ e = UnicodeEncodeError.

(** What a column of [vessels] holds after [create_vessel] was given [arg]
    for it: with [None] what the row held before, NULL in a new row;
    otherwise the argument as the column stores it. *)
Definition stored_field (env : Db.sqlite_env) (arg : value)
    (old : option Db.sqlval) (new : Db.sqlval) : Prop :=
  match arg with
  | VNone => new = default Db.SNull old
  | _ => exists x, Db.bind_param arg = Ok x /\ new = Db.text_affinity env x
  end.

(** No key matches two rows of [vessels]. *)
Definition unique_keys (env : Db.sqlite_env) (d : Db.db) : Prop :=
  forall key, length (List.filter (Db.has_mmsi env key) (Db.vessels d)) <= 1.

(** The states have distinct ids, all positive and none beyond the
    AUTOINCREMENT counter. *)
Definition fresh_ids (d : Db.db) : Prop :=
  NoDup (map Db.id (Db.vessel_states d)) /\ (0 <= Db.seq d)%Z /\
  forall s, s ∈ Db.vessel_states d -> (0 < Db.id s <= Db.seq d)%Z.

(** The nine fields [create_vessel_state] binds after the MMSI. *)
Definition state_values (fields : Db.state_fields) : list value :=
  [Db.f_latitude fields; Db.f_longitude fields; Db.f_speed fields;
   Db.f_heading fields; Db.f_course fields; Db.f_draught fields;
   Db.f_status fields; Db.f_call_sign fields; Db.f_destination fields].

(** How many more items a queue takes; [None] for a queue without bound. *)
Definition room {A : Type} (q : Relay.queue A) : option nat :=
  if (Relay.maxsize q <=? 0)%Z then None
  else Some (Z.to_nat (Relay.maxsize q) - length (Relay.items q)).

(** The messages of a burst a queue takes: the first that fit. *)
Definition accepted {A : Type} (q : Relay.queue A) (burst : list A) : list A :=
  match room q with
  | None => burst
  | Some n => take n burst
  end.

(** The record logged for a message the queue had no room for. *)
Definition dropped_record : Relay.level * string :=
  (Relay.WARNING, "DB queue full — dropping AIS message").

(** The record logged when the persistence step of a worker raises. *)
Definition worker_error_record : Relay.level * string :=
  (Relay.ERROR, "DB worker error").

(** The persistence step on each message of a batch in turn, each on the
    storage the one before left: the calls made, the storage at the end
    and the exceptions that came out. *)
Fixpoint persist_all {S : Type} {gateway : Relay.StorageGateway S}
    (batch : list (gmap string value)) (database : S)
  : list Relay.db_call * S * list exn :=
  match batch with
  | [] => ([], database, [])
  | message :: rest =>
      let '(made, database1, raised) :=
        Relay.process_ais_message message database in
      let '(made', database2, errors) := persist_all rest database1 in
      (made ++ made', database2, option_list raised ++ errors)
  end.

(** The race of two [create_vessel] for one new vessel: the lookup found
    no row for the key, yet a row with it is there when the INSERT runs. *)
Definition raced (env : Db.sqlite_env) (seen d : Db.db) (m : value) : Prop :=
  exists key,
    Db.bind_param m = Ok key /\
    find (Db.has_mmsi env key) (Db.vessels seen) = None /\
    existsb (Db.has_mmsi env key) (Db.vessels d) = true.

(** A line with no item satisfying [P] at either end, the empty line
    included. *)
Definition stripped {A : Type} (P : A -> bool) (l : list A) : Prop :=
  match l with
  | [] => True
  | x :: _ => P x = false /\ exists y, last l = Some y /\ P y = false
  end.

(** A line the upstream filter keeps as it is. *)
Definition clean_line (line : list byte) : Prop :=
  line <> [] /\ stripped is_bytes_space line /\
  bytes_startswith line (lit "$ABVSI") = false.

(** A whole line of at most [max_bytes] bytes: bytes without a newline and
    the newline that ends them. *)
Definition whole_line (max_bytes : nat) (line : list byte) : Prop :=
  exists body,
    line = body ++ [x0a] /\
    Forall (fun b => Relay.is_newline b = false) body /\
    length line <= max_bytes.

End Spec.

(* ===================================================================== *)
(** * Concrete inputs                                                     *)
(* ===================================================================== *)

Module Samples.

Import Relay.

(** A decoded position report with an enum member and a binary field. *)
Definition decoded_position : gmap string value :=
  <["mmsi" := VInt 123456789]>
  (<["lat" := VFloat 57.5%float]>
  (<["lon" := VFloat 18.25%float]>
  (<["status" := VEnum (cps "UnderWayUsingEngine") (Some 0%Z)]>
  (<["spare_1" := VBytes [x00]]> ∅)))).

(** A normalised report on the Greenwich meridian whose latitude is the
    "not available" value 91 of AIS. *)
Definition report_zero_longitude : gmap string value :=
  <["mmsi" := VInt 123456789]>
  (<["location" := geo_point (VFloat 0%float) (VFloat 91%float)]> ∅).

(** The decoded sentence it comes from. *)
Definition decoded_zero_longitude : gmap string value :=
  <["mmsi" := VInt 123456789]>
  (<["lat" := VFloat 91%float]> (<["lon" := VFloat 0%float]> ∅)).

(** A normalised report far outside both ranges. *)
Definition location_out_of_range : gmap string value :=
  <["type" := VStr (cps "Point")]>
  (<["coordinates" := VList [VFloat 181%float; VFloat 91%float]]> ∅).

Definition report_out_of_range : gmap string value :=
  <["mmsi" := VInt 123456789]>
  (<["location" := VDict location_out_of_range]> ∅).

(** A report whose location holds a longitude and no latitude. *)
Definition location_longitude_only : gmap string value :=
  <["type" := VStr (cps "Point")]>
  (<["coordinates" := VList [VFloat 18.25%float]]> ∅).

Definition report_longitude_only : gmap string value :=
  <["mmsi" := VInt 123456789]>
  (<["location" := VDict location_longitude_only]> ∅).

Definition sample_env : Db.sqlite_env :=
  {| Db.real_to_text := fun _ => cps "0.0";
     Db.now := cps "2026-01-01 00:00:00" |}.

(** The SQLite storage as the gateway of the pipeline. *)
Definition sqlite_gateway : StorageGateway Db.db :=
  DatabaseManager_gateway sample_env.

(** The calls the persistence step makes for a report that holds nothing
    but the identifier 123456789 and a position. *)
Definition vessel_123456789 : vessel_args :=
  {| mmsi := VInt 123456789; imo := VNone; ship_name := VNone;
     ship_type := VNone |}.

Definition state_123456789 (lon lat : value) : vessel_state_args :=
  {| latitude := lat; longitude := lon; speed := VNone; heading := VNone;
     course := VNone; draught := VNone; status := VNone; call_sign := VNone;
     destination := VNone; vessel_mmsi := VInt 123456789 |}.

(** A server whose queue of capacity one is full. *)
Definition full_server : server Db.db :=
  {| db_queue := {| maxsize := 1; items := [report_out_of_range] |};
     database := Db.init_db; log := []; calls := [] |}.

(** A database directory: the live database, the snapshot, two files
    older than a week, one younger, and a file that is no database. Times
    are microseconds; [now_us] is the time of the rotation. *)
Definition now_us : Z := 1000000000000000.

Definition day_us : Z := 86400000000.

Definition sample_dir : gmap string Z :=
  <["2026-01-01_aaaaaaaa_ais_db.db" := (now_us - 1000000)%Z]>
  (<["ais_snapshot.db" := (now_us - 30 * day_us)%Z]>
  (<["2025-12-01_bbbbbbbb_ais_db.db" := (now_us - 31 * day_us)%Z]>
  (<["2025-12-20_cccccccc_ais_db.db" := (now_us - 8 * day_us)%Z]>
  (<["2025-12-30_dddddddd_ais_db.db" := (now_us - 2 * day_us)%Z]>
  (<["notes.txt" := (now_us - 90 * day_us)%Z]> ∅))))).

Definition sample_rotation : rotation :=
  {| LIVE_DB := "2026-01-01_aaaaaaaa_ais_db.db";
     SNAPSHOT_DB := "ais_snapshot.db";
     db_dir := Some sample_dir;
     rot_log := [] |}.

(** The filter of the test client: latitudes 56 to 58, longitudes 18 to
    21, the numbers as the JSON parser gives them. *)
Definition bounds_56_58_18_21 : Fanout.GeographicBounds :=
  {| Fanout.min_lat := NInt 56; Fanout.max_lat := NInt 58;
     Fanout.min_lon := NInt 18; Fanout.max_lon := NInt 21 |}.

(** A normalised report at the given position. *)
Definition report_at (lat lon : float) : gmap string value :=
  <["mmsi" := VInt 123456789]>
  (<["location" := geo_point (VFloat lon) (VFloat lat)]> ∅).

(** A normalised report without a position. *)
Definition report_static : gmap string value :=
  <["mmsi" := VInt 123456789]> (<["shipname" := VStr (cps "EXAMPLE")]> ∅).

(** Three subscribers: 1 without a filter, 2 and 3 with the filter. *)
Definition three_clients : gmap nat (option Fanout.GeographicBounds) :=
  <[1%nat := None]>
  (<[2%nat := Some bounds_56_58_18_21]>
  (<[3%nat := Some bounds_56_58_18_21]> ∅)).

(** A transport on which every send succeeds. *)
Definition send_ok (ws : nat) (message : gmap string value) : option exn :=
  None.

(** The TCP gate with the default credentials, switched on. *)
Definition default_auth : AuthConfig :=
  {| tcp_username := cps "admin"; tcp_password := cps "1234";
     enable_tcp_auth := true |}.


(** A configuration whose password is "på" (U+0070 U+00E5). *)
Definition non_ascii_auth : AuthConfig :=
  {| tcp_username := cps "admin"; tcp_password := [112; 229]%N;
     enable_tcp_auth := true |}.

(** The dynamic fields of a position report. *)
Definition fields_position : Db.state_fields :=
  {| Db.f_latitude := VFloat 57.5%float; Db.f_longitude := VFloat 18.25%float;
     Db.f_speed := VFloat 12.5%float; Db.f_heading := VInt 90;
     Db.f_course := VFloat 91.5%float; Db.f_draught := VNone;
     Db.f_status := VStr (cps "UnderWayUsingEngine");
     Db.f_call_sign := VNone; Db.f_destination := VNone |}.

(** Two raw clients, and a transport on which writer 2 is gone. *)
Definition two_writers : gset nat := {[1%nat; 2%nat]}.

Definition write_fails_on_2 (writer : nat) (d : list byte) : option exn :=
  if Nat.eqb writer 2 then Some ConnectionError else None.

(** One sentence as the upstream sends it. *)
Definition sentence : pystr :=
  cps "!AIVDM,1,1,,B,15M67FC000G?ufbE`FepT@3n00Sa,0*5C".

(** The other tasks at rest: the registry stays as it is during a send. *)
Definition stays (ws : nat) (clients : gmap nat (option Fanout.GeographicBounds))
  : gmap nat (option Fanout.GeographicBounds) := clients.

(** A fourth client is accepted while a send is awaited: [ws_ais]
    registers it without a filter. *)
Definition connects_4 (ws : nat)
    (clients : gmap nat (option Fanout.GeographicBounds))
  : gmap nat (option Fanout.GeographicBounds) := <[4%nat := None]> clients.

(** A decoded report that holds a latitude and no longitude. *)
Definition decoded_latitude_only : gmap string value :=
  <["mmsi" := VInt 123456789]> (<["lat" := VFloat 57.5%float]> ∅).

End Samples.

(* ===================================================================== *)
(** * Part III. Properties                                                *)
(* ===================================================================== *)


Example str_of_bytes_plain :
  str_of_bytes (lit "abc") = cps "b'abc'".
Proof. reflexivity. Qed.

Example str_of_bytes_escapes :
  str_of_bytes [x00; x7f; xff; x09; x5c] = cps "b'\x00\x7f\xff\t\\'".
Proof. reflexivity. Qed.

(** A single quote alone switches the delimiters to double quotes (34). *)
Example str_of_bytes_quote :
  str_of_bytes (lit "a'b") = [98; 34; 97; 39; 98; 34]%N.
Proof. reflexivity. Qed.

Example int_from_bytes_big_abc : int_from_bytes_big (lit "abc") = 6382179%Z.
Proof. reflexivity. Qed.

Example num_le_mixed :
  num_le (NInt 56) (NFloat 57.0%float) = true /\
  num_le (NFloat 60.0%float) (NInt 58) = false /\
  num_le (NFloat nan) (NInt 58) = false.
Proof. repeat split; vm_compute; reflexivity. Qed.

(** ** The normaliser *)

Section Normalizer.

Import Relay Spec.

Implicit Types (entry : gmap string value) (key k : string) (v : value).

Lemma enum_name_idem v : enum_name (enum_name v) = enum_name v.
Proof. by destruct v. Qed.

Lemma enum_step_lookup entry key k :
  enum_step entry key !! k
  = (if decide (k = key) then enum_name else id) <$> entry !! k.
Proof.
  unfold enum_step. destruct (decide (k = key)) as [->|Hne].
  - destruct (entry !! key) as [v|] eqn:E; [|by rewrite E].
    destruct (is_enum_instance v) eqn:Hv.
    + by rewrite lookup_insert_eq.
    + rewrite E. simpl. f_equal. by destruct v.
  - destruct (entry !! key) as [v|] eqn:E.
    + destruct (is_enum_instance v).
      * rewrite lookup_insert_ne by done. by destruct (entry !! k).
      * by destruct (entry !! k).
    + by destruct (entry !! k).
Qed.

Lemma foldl_enum_step_lookup (keys : list string) entry k :
  foldl enum_step entry keys !! k
  = (if decide (k ∈ keys) then enum_name else id) <$> entry !! k.
Proof.
  revert entry. induction keys as [|key keys IH]; intros entry.
  - case_decide as Hin; [by apply elem_of_nil in Hin|].
    simpl. by destruct (entry !! k).
  - cbn [foldl]. rewrite IH, enum_step_lookup.
    destruct (entry !! k) as [v|]; [|done]. cbn [fmap option_fmap option_map].
    f_equal.
    destruct (decide (k = key)) as [Hk|Hk], (decide (k ∈ keys)) as [Hin|Hin],
      (decide (k ∈ key :: keys)) as [Hc|Hc];
      try done; try (rewrite elem_of_cons in Hc; tauto).
    apply enum_name_idem.
Qed.

(** The first loop replaces every enum member by its name. *)
Lemma convert_enums_lookup entry k :
  convert_enums entry !! k = enum_name <$> entry !! k.
Proof.
  unfold convert_enums. rewrite foldl_enum_step_lookup.
  destruct (entry !! k) as [v|] eqn:E; simpl; [|done].
  rewrite decide_True; [done|].
  apply list_elem_of_fmap. exists (k, v). split; [done|].
  by apply elem_of_map_to_list.
Qed.

Lemma convert_enums_fmap entry : convert_enums entry = enum_name <$> entry.
Proof. apply map_eq. intros k. by rewrite convert_enums_lookup, lookup_fmap. Qed.

Lemma bin_step_lookup entry key k :
  bin_step entry key !! k
  = (if decide (k = key) then fun v => decode_bytes v key else id)
    <$> entry !! k.
Proof.
  unfold bin_step. destruct (decide (k = key)) as [->|Hne].
  - destruct (entry !! key) as [v|] eqn:E; [|by rewrite E].
    by rewrite lookup_insert_eq.
  - destruct (entry !! key) as [v|] eqn:E.
    + rewrite lookup_insert_ne by done. by destruct (entry !! k).
    + by destruct (entry !! k).
Qed.

Lemma decode_bytes_idem v key :
  decode_bytes (decode_bytes v key) key = decode_bytes v key.
Proof.
  destruct v; try done. simpl.
  by destruct ((key =? "spare_1")%string || (key =? "spare_2")%string).
Qed.

Lemma decode_field_idem key v :
  decode_field key (decode_field key v) = decode_field key v.
Proof.
  unfold decode_field. case_bool_decide; [apply decode_bytes_idem | done].
Qed.

(** The last loop decodes the three binary fields and nothing else. *)
Lemma decode_bins_lookup entry k :
  foldl bin_step entry bin_keys !! k = decode_field k <$> entry !! k.
Proof.
  unfold decode_field, bin_keys. cbn [foldl].
  rewrite !bin_step_lookup.
  destruct (entry !! k) as [v|]; [|done]. cbn [fmap option_fmap option_map].
  f_equal. case_bool_decide as Hin.
  - rewrite !elem_of_cons in Hin.
    destruct Hin as [->|[->|[->|Hin]]]; [done|done|done|].
    by apply elem_of_nil in Hin.
  - rewrite !elem_of_cons in Hin.
    repeat case_decide; try done; tauto.
Qed.

Lemma decode_field_other key v :
  key ∉ bin_keys -> decode_field key v = v.
Proof. intros H. unfold decode_field. by rewrite bool_decide_eq_false_2. Qed.

Lemma normalize_lookup entry k :
  normalize_ais_message entry !! k
  = decode_field k <$> fold_lat_lon (convert_enums entry) !! k.
Proof. apply decode_bins_lookup. Qed.

Lemma lat_not_bin : "lat" ∉ bin_keys.
Proof.
  unfold bin_keys. rewrite !elem_of_cons, elem_of_nil.
  intros [?|[?|[?|[]]]]; discriminate.
Qed.

Lemma lon_not_bin : "lon" ∉ bin_keys.
Proof.
  unfold bin_keys. rewrite !elem_of_cons, elem_of_nil.
  intros [?|[?|[?|[]]]]; discriminate.
Qed.

Lemma location_not_bin : "location" ∉ bin_keys.
Proof.
  unfold bin_keys. rewrite !elem_of_cons, elem_of_nil.
  intros [?|[?|[?|[]]]]; discriminate.
Qed.

Lemma is_number_enum_name v :
  is_number v = true -> enum_name v = v /\ isinstance_int_float v = true.
Proof. by destruct v. Qed.

(** After the first loop no value is an enum member. *)
Lemma enum_name_not_enum v : is_enum_instance (enum_name v) = false.
Proof. by destruct v. Qed.

Lemma decode_field_not_enum key v :
  is_enum_instance v = false -> is_enum_instance (decode_field key v) = false.
Proof.
  unfold decode_field. case_bool_decide; [|done].
  destruct v; try done. intros _. simpl.
  by destruct ((key =? "spare_1")%string || (key =? "spare_2")%string).
Qed.

Lemma fold_lat_lon_not_enum entry k v :
  (forall k' v', entry !! k' = Some v' -> is_enum_instance v' = false) ->
  fold_lat_lon entry !! k = Some v -> is_enum_instance v = false.
Proof.
  intros Hno. unfold fold_lat_lon.
  destruct (entry !! "lat") as [lat|]; [|by apply Hno].
  destruct (entry !! "lon") as [lon|]; [|by apply Hno].
  destruct (isinstance_int_float lat && isinstance_int_float lon);
    [|by apply Hno].
  intros H. apply lookup_delete_Some in H as [_ H].
  apply lookup_delete_Some in H as [_ H].
  apply lookup_insert_Some in H as [[_ <-]|[_ H]]; [done|by eapply Hno].
Qed.

Lemma normalize_not_enum entry k v :
  normalize_ais_message entry !! k = Some v -> is_enum_instance v = false.
Proof.
  rewrite normalize_lookup. intros H.
  apply fmap_Some in H as (w & Hw & ->).
  apply decode_field_not_enum.
  eapply fold_lat_lon_not_enum; [|exact Hw].
  intros k' v'. rewrite convert_enums_lookup. intros H.
  apply fmap_Some in H as (u & _ & ->). apply enum_name_not_enum.
Qed.

Lemma enum_name_id v : is_enum_instance v = false -> enum_name v = v.
Proof. by destruct v. Qed.

(** The two ways the middle block can go. *)
Lemma fold_lat_lon_cases entry :
  (exists lat lon,
      entry !! "lat" = Some lat /\ entry !! "lon" = Some lon /\
      isinstance_int_float lat && isinstance_int_float lon = true /\
      fold_lat_lon entry
      = delete "lon" (delete "lat" (<["location" := geo_point lon lat]> entry)))
  \/ (fold_lat_lon entry = entry /\
      forall lat lon,
        entry !! "lat" = Some lat -> entry !! "lon" = Some lon ->
        isinstance_int_float lat && isinstance_int_float lon = false).
Proof.
  unfold fold_lat_lon.
  destruct (entry !! "lat") as [lat|]; [|by right].
  destruct (entry !! "lon") as [lon|]; [|by right].
  destruct (isinstance_int_float lat && isinstance_int_float lon) eqn:Hnum.
  - left. by exists lat, lon.
  - right. split; [done|]. by intros ? ? [= <-] [= <-].
Qed.

(** A second pass finds no lat/lon pair left to fold. *)
Lemma fold_lat_lon_normalized entry :
  fold_lat_lon (normalize_ais_message entry) = normalize_ais_message entry.
Proof.
  set (n := normalize_ais_message entry).
  destruct (fold_lat_lon_cases (convert_enums entry))
    as [(lat & lon & Hlat & Hlon & Hnum & Heq) | [Heq Hno]].
  - assert (n !! "lat" = None) as Hn.
    { subst n. rewrite normalize_lookup, Heq.
      by rewrite lookup_delete_ne, lookup_delete_eq. }
    unfold fold_lat_lon. by rewrite Hn.
  - assert (n !! "lat" = convert_enums entry !! "lat") as Hn1.
    { subst n. rewrite normalize_lookup, Heq.
      destruct (convert_enums entry !! "lat"); [|done]. simpl.
      by rewrite decode_field_other by apply lat_not_bin. }
    assert (n !! "lon" = convert_enums entry !! "lon") as Hn2.
    { subst n. rewrite normalize_lookup, Heq.
      destruct (convert_enums entry !! "lon"); [|done]. simpl.
      by rewrite decode_field_other by apply lon_not_bin. }
    unfold fold_lat_lon. rewrite Hn1, Hn2.
    destruct (convert_enums entry !! "lat") as [lat|] eqn:Elat; [|done].
    destruct (convert_enums entry !! "lon") as [lon|] eqn:Elon; [|done].
    by rewrite (Hno lat lon).
Qed.

Lemma isinstance_enum_name v :
  isinstance_int_float (enum_name v) = is_number v.
Proof. by destruct v. Qed.

Lemma decode_bytes_not_bytes v key bs : decode_bytes v key <> VBytes bs.
Proof.
  destruct v; try done. simpl.
  by destruct ((key =? "spare_1")%string || (key =? "spare_2")%string).
Qed.


(** C9. The normaliser is idempotent: a second pass returns its input,
    for after one pass no value is an enum member, no lat/lon pair is left
    that the middle block would fold, and no binary field holds bytes. *)
Theorem normalize_ais_message_idempotent entry :
  normalize_ais_message (normalize_ais_message entry)
  = normalize_ais_message entry
  /\ (forall k v, normalize_ais_message entry !! k = Some v ->
               is_enum_instance v = false)
  /\ fold_lat_lon (normalize_ais_message entry) = normalize_ais_message entry
  /\ (forall k bs, k ∈ bin_keys ->
                normalize_ais_message entry !! k <> Some (VBytes bs)).
Proof.
  assert (forall k bs, k ∈ bin_keys ->
            normalize_ais_message entry !! k <> Some (VBytes bs)) as Hbytes.
  { intros k bs Hk. rewrite normalize_lookup. intros H.
    apply fmap_Some in H as (w & _ & Hw). unfold decode_field in Hw.
    rewrite bool_decide_eq_true_2 in Hw by done.
    symmetry in Hw. by apply decode_bytes_not_bytes in Hw. }
  split; [|split; [apply normalize_not_enum | split; [|done]]];
    [|apply fold_lat_lon_normalized].
  set (n := normalize_ais_message entry).
  assert (convert_enums n = n) as Henum.
  { apply map_eq. intros k. rewrite convert_enums_lookup.
    destruct (n !! k) as [v|] eqn:E; [|done]. simpl. f_equal.
    apply enum_name_id. by eapply normalize_not_enum. }
  unfold normalize_ais_message at 1. fold n.
  rewrite Henum. subst n. rewrite fold_lat_lon_normalized.
  apply map_eq. intros k. rewrite decode_bins_lookup, normalize_lookup.
  destruct (fold_lat_lon (convert_enums entry) !! k); [|done]. simpl.
  by rewrite decode_field_idem.
Qed.

End Normalizer.

(** ** Coordinate validation and the persistence step *)

Section Persistence.

Import Relay Spec.

Context {S : Type} {gateway : StorageGateway S}.

Implicit Types (decoded : gmap string value) (lon lat : value).

(** On two truthy numbers the validity test is the range test. *)
Lemma is_valid_geo_point_truthy lon lat a b :
  as_num lon = Some a -> as_num lat = Some b ->
  truthy lon = true -> truthy lat = true ->
  is_valid_geo_point lon lat = Ok (in_valid_range lon lat).
Proof.
  intros Ha Hb Tlon Tlat.
  unfold is_valid_geo_point, in_valid_range, within, le_num_value, le_value_num.
  rewrite Tlon, Tlat, Ha, Hb.
  cbn [andb mbind result_bind negb].
  destruct (num_le (NInt (-180)) a); [|reflexivity].
  cbn [andb mbind result_bind negb].
  destruct (num_le a (NInt 180)); [|reflexivity].
  cbn [andb mbind result_bind negb].
  destruct (num_le (NInt (-90)) b); reflexivity.
Qed.

(** A falsy argument, zero included, switches the range test off. *)
Lemma is_valid_geo_point_falsy lon lat :
  truthy lon && truthy lat = false -> is_valid_geo_point lon lat = Ok true.
Proof. intros Hf. unfold is_valid_geo_point. by rewrite Hf. Qed.

Lemma as_num_not_None v n : as_num v = Some n -> is_not_None v = true.
Proof. by destruct v. Qed.

(** What the first lines of the extraction read from a coordinate list. *)
Lemma extract_coordinates_list decoded loc coords :
  decoded !! "location" = Some (VDict loc) ->
  loc !! "coordinates" = Some (VList coords) ->
  let lon := default VNone (coords !! 0%nat) in
  let lat := default VNone (coords !! 1%nat) in
  _extract_coordinates decoded
  = if is_not_None lon && is_not_None lat then
      valid ← is_valid_geo_point lon lat;
      if negb valid then Raise (InvalidCoordinates lon lat) else Ok (lon, lat)
    else Ok (lon, lat).
Proof.
  intros Hloc Hcoords. unfold _extract_coordinates. rewrite Hloc. simpl.
  rewrite Hcoords. simpl.
  destruct coords as [|x [|y rest]]; done.
Qed.

(** The positive half of C1: a pair of non-zero numbers of which one is
    out of range is rejected before any call reaches the storage. *)
Lemma invalid_nonzero_coordinates_rejected decoded loc lon lat rest a b :
  decoded !! "location" = Some (VDict loc) ->
  loc !! "coordinates" = Some (VList (lon :: lat :: rest)) ->
  as_num lon = Some a -> as_num lat = Some b ->
  truthy lon = true -> truthy lat = true ->
  in_valid_range lon lat = false ->
  _extract_coordinates decoded = Raise (InvalidCoordinates lon lat) /\
  forall database : S,
    process_ais_message decoded database
    = ([], database, Some (InvalidCoordinates lon lat)).
Proof.
  intros Hloc Hcoords Ha Hb Tlon Tlat Hrange.
  assert (_extract_coordinates decoded = Raise (InvalidCoordinates lon lat))
    as Hex.
  { rewrite (extract_coordinates_list _ _ _ Hloc Hcoords). simpl.
    rewrite (as_num_not_None _ _ Ha), (as_num_not_None _ _ Hb). simpl.
    rewrite (is_valid_geo_point_truthy _ _ _ _ Ha Hb Tlon Tlat), Hrange.
    done. }
  split; [done|]. intros database. unfold process_ais_message. by rewrite Hex.
Qed.

(** The persistence step called on a report whose coordinate list gives
    exactly one component that is not [None] (the normaliser writes no
    such list): the extraction raises nothing and returns the pair as
    read; the persistence step then calls [create_vessel] and, unless
    that call raises, [create_vessel_state] with the one coordinate and
    [None] for the other. *)
Lemma one_sided_coordinates_reach_storage decoded loc coords lon lat :
  decoded !! "location" = Some (VDict loc) ->
  loc !! "coordinates" = Some (VList coords) ->
  lon = default VNone (coords !! 0%nat) ->
  lat = default VNone (coords !! 1%nat) ->
  xorb (is_not_None lon) (is_not_None lat) = true ->
  _extract_coordinates decoded = Ok (lon, lat) /\
  forall database : S,
    let vessel := _extract_vessel_data decoded in
    let vessel_state := _extract_vessel_state decoded lon lat vessel in
    longitude vessel_state = lon /\ latitude vessel_state = lat /\
    match create_vessel vessel database with
    | (database1, Some e) =>
        process_ais_message decoded database
        = ([CreateVessel vessel], database1, Some e)
    | (database1, None) =>
        process_ais_message decoded database
        = ([CreateVessel vessel; CreateVesselState vessel_state],
           fst (create_vessel_state vessel_state database1),
           snd (create_vessel_state vessel_state database1))
    end.
Proof.
  intros Hloc Hcoords -> -> Hone.
  assert (_extract_coordinates decoded
          = Ok (default VNone (coords !! 0%nat), default VNone (coords !! 1%nat)))
    as Hex.
  { rewrite (extract_coordinates_list _ _ _ Hloc Hcoords). simpl.
    destruct (is_not_None (default VNone (coords !! 0%nat))),
      (is_not_None (default VNone (coords !! 1%nat))); done. }
  split; [done|]. intros database vessel vessel_state.
  split; [done|]. split; [done|].
  unfold process_ais_message. rewrite Hex. fold vessel. fold vessel_state.
  destruct (create_vessel vessel database) as [database1 [e|]]; [done|].
  by destruct (create_vessel_state vessel_state database1).
Qed.

(** The worker reads the queue, the store and the calls, never the log. *)
Lemma db_worker_step_ignores_log (s1 s2 : server S) :
  db_queue s1 = db_queue s2 -> database s1 = database s2 ->
  calls s1 = calls s2 ->
  db_queue (db_worker_step s1) = db_queue (db_worker_step s2) /\
  database (db_worker_step s1) = database (db_worker_step s2) /\
  calls (db_worker_step s1) = calls (db_worker_step s2).
Proof.
  intros Hq Hd Hc. unfold db_worker_step. rewrite Hq, Hd, Hc.
  destruct (items (db_queue s2)) as [|message rest]; [done|].
  by destruct (process_ais_message message (database s2)) as [[made d'] r].
Qed.

Lemma db_worker_ignores_log rounds (s1 s2 : server S) :
  db_queue s1 = db_queue s2 -> database s1 = database s2 ->
  calls s1 = calls s2 ->
  db_queue (db_worker rounds s1) = db_queue (db_worker rounds s2) /\
  database (db_worker rounds s1) = database (db_worker rounds s2) /\
  calls (db_worker rounds s1) = calls (db_worker rounds s2).
Proof.
  revert s1 s2. induction rounds as [|n IH]; intros s1 s2 Hq Hd Hc; [done|].
  simpl. destruct (db_worker_step_ignores_log s1 s2 Hq Hd Hc) as (? & ? & ?).
  by apply IH.
Qed.

(** C4. On a full queue the enqueue returns at once with [QueueFull]; the
    handler logs one warning and leaves queue, store and calls as they
    were, so whatever the workers do afterwards they do as if the dropped
    report had never been offered: no storage call comes from it. *)
Theorem full_queue_drops_report (srv : server S)
    (decoded_normalized : gmap string value) :
  full (db_queue srv) = true ->
  put_nowait (db_queue srv) decoded_normalized = Raise QueueFull /\
  enqueue_for_db decoded_normalized srv
  = {| db_queue := db_queue srv; database := database srv;
       log := log srv ++ [(WARNING, "DB queue full — dropping AIS message")];
       calls := calls srv |} /\
  forall rounds,
    calls (db_worker rounds (enqueue_for_db decoded_normalized srv))
    = calls (db_worker rounds srv) /\
    database (db_worker rounds (enqueue_for_db decoded_normalized srv))
    = database (db_worker rounds srv) /\
    db_queue (db_worker rounds (enqueue_for_db decoded_normalized srv))
    = db_queue (db_worker rounds srv).
Proof.
  intros Hfull.
  assert (put_nowait (db_queue srv) decoded_normalized = Raise QueueFull)
    as Hput by (unfold put_nowait; by rewrite Hfull).
  split; [done|].
  assert (enqueue_for_db decoded_normalized srv
          = {| db_queue := db_queue srv; database := database srv;
               log := log srv
                      ++ [(WARNING, "DB queue full — dropping AIS message")];
               calls := calls srv |}) as Henq
    by (unfold enqueue_for_db; by rewrite Hput).
  split; [done|]. intros rounds. rewrite Henq.
  destruct (db_worker_ignores_log rounds
              {| db_queue := db_queue srv; database := database srv;
                 log := log srv
                        ++ [(WARNING, "DB queue full — dropping AIS message")];
                 calls := calls srv |} srv) as (Hq & Hd & Hc); done.
Qed.

End Persistence.

(** ** The persistence step on the SQLite storage, at concrete reports *)

Section PersistenceCases.

Import Relay Spec Samples.

(** C1 at the failing input: longitude 0 with latitude 91, as the
    normaliser hands it on. The latitude is out of range, yet the
    validity test answers true, the extraction raises nothing and both
    storage calls are made, the second with latitude 91. *)
Lemma zero_longitude_escapes_validation :
  normalize_ais_message decoded_zero_longitude = report_zero_longitude /\
  in_valid_range (VFloat 0%float) (VFloat 91%float) = false /\
  is_valid_geo_point (VFloat 0%float) (VFloat 91%float) = Ok true /\
  _extract_coordinates report_zero_longitude
  = Ok (VFloat 0%float, VFloat 91%float) /\
  fst (fst (process_ais_message (gateway := sqlite_gateway) report_zero_longitude
              Db.init_db))
  = [CreateVessel vessel_123456789;
     CreateVesselState (state_123456789 (VFloat 0%float) (VFloat 91%float))] /\
  snd (process_ais_message (gateway := sqlite_gateway) report_zero_longitude Db.init_db)
  = None.
Proof. repeat split; vm_compute; reflexivity. Qed.

(** The same latitude next to a non-zero longitude is rejected. *)
Lemma out_of_range_rejected_witness :
  _extract_coordinates report_out_of_range
  = Raise (InvalidCoordinates (VFloat 181%float) (VFloat 91%float)) /\
  forall database : Db.db,
    process_ais_message (gateway := sqlite_gateway) report_out_of_range database
    = ([], database,
       Some (InvalidCoordinates (VFloat 181%float) (VFloat 91%float))).
Proof.
  apply (invalid_nonzero_coordinates_rejected (gateway := sqlite_gateway)
           report_out_of_range location_out_of_range
           (VFloat 181%float) (VFloat 91%float) []
           (NFloat 181%float) (NFloat 91%float));
    vm_compute; reflexivity.
Defined.

(** The persistence step called on a location with a longitude and no
    latitude: both storage calls are made and nothing is raised. *)
Lemma longitude_only_is_persisted :
  _extract_coordinates report_longitude_only = Ok (VFloat 18.25%float, VNone) /\
  fst (fst (process_ais_message (gateway := sqlite_gateway) report_longitude_only
              Db.init_db))
  = [CreateVessel vessel_123456789;
     CreateVesselState (state_123456789 (VFloat 18.25%float) VNone)] /\
  snd (process_ais_message (gateway := sqlite_gateway) report_longitude_only Db.init_db)
  = None.
Proof. repeat split; vm_compute; reflexivity. Qed.

Lemma one_sided_coordinates_reach_storage_witness :
  _extract_coordinates report_longitude_only = Ok (VFloat 18.25%float, VNone).
Proof.
  apply (one_sided_coordinates_reach_storage (gateway := sqlite_gateway)
           report_longitude_only location_longitude_only
           [VFloat 18.25%float] (VFloat 18.25%float) VNone);
    vm_compute; reflexivity.
Defined.

Lemma full_queue_drops_report_witness :
  full (db_queue full_server) = true /\
  put_nowait (db_queue full_server) report_zero_longitude = Raise QueueFull.
Proof.
  split; [reflexivity|].
  apply (full_queue_drops_report (gateway := sqlite_gateway) full_server
           report_zero_longitude).
  reflexivity.
Defined.


(** The whole normalised report for the sample: the enum member by name,
    the pair folded, the spare bytes as an int. *)
Example normalize_decoded_position :
  normalize_ais_message decoded_position
  = <["mmsi" := VInt 123456789]>
    (<["location" := geo_point (VFloat 18.25%float) (VFloat 57.5%float)]>
    (<["status" := VStr (cps "UnderWayUsingEngine")]>
    (<["spare_1" := VInt 0]> ∅))).
Proof. vm_compute. reflexivity. Qed.

End PersistenceCases.

(** ** The login frames *)

Section Login.

Import Relay.

Implicit Types (s : pystr).

Lemma is_ascii_cons c s :
  is_ascii (c :: s) = true <-> (c < 128)%N /\ is_ascii s = true.
Proof.
  unfold is_ascii. simpl. rewrite andb_true_iff, N.ltb_lt. reflexivity.
Qed.

(** ASCII text encodes to one byte per character. *)
Lemma encode_ascii_ascii s : is_ascii s = true -> encode_ascii s = Ok (map byte_of s).
Proof. intros Hs. unfold encode_ascii. unfold is_ascii in Hs. by rewrite Hs. Qed.

Lemma encode_ascii_non_ascii s :
  is_ascii s = false -> encode_ascii s = Raise UnicodeEncodeError.
Proof. intros Hs. unfold encode_ascii. unfold is_ascii in Hs. by rewrite Hs. Qed.

(** On ASCII text UTF-8 and ASCII agree. *)
Lemma encode_utf8_ascii s : is_ascii s = true -> encode_utf8 s = Ok (map byte_of s).
Proof.
  induction s as [|c s IH]; [done|].
  intros [Hc Hs]%is_ascii_cons. simpl.
  unfold utf8_of_cp. apply N.ltb_lt in Hc. rewrite Hc.
  by rewrite (IH Hs).
Qed.

(** Encoding raises nothing but [UnicodeEncodeError]. *)
Lemma encode_utf8_error s e : encode_utf8 s = Raise e -> e = UnicodeEncodeError.
Proof.
  induction s as [|c s IH]; [done|]. simpl.
  destruct (utf8_of_cp c); [|by intros [= <-]].
  destruct (encode_utf8 s); [done|]. intros [= <-]. by apply IH.
Qed.

(** C7, as the code has it. For an ASCII username and password the plain
    frame is 0x01, the username bytes, 0x00, the password bytes, 0x00; for
    an ASCII username and any password with a UTF-8 encoding the hashed
    frame is 0x02, the username bytes, 0x00, the base64 text of the MD5
    digest of the encoded password, 0x00. A username outside ASCII makes
    both constructions raise [UnicodeEncodeError] instead of giving a
    frame; so does a password outside ASCII for the plain frame, and a
    password without a UTF-8 encoding for the hashed frame. *)
Theorem login_frames (ais_user ais_password : pystr) :
  (is_ascii ais_user = true -> is_ascii ais_password = true ->
   create_logon_msg ais_user ais_password
   = Ok ([x01] ++ map byte_of ais_user ++ [x00]
              ++ map byte_of ais_password ++ [x00])) /\
  (is_ascii ais_user = true ->
   forall password_bytes,
     encode_utf8 ais_password = Ok password_bytes ->
     create_logon_msg_hashed ais_user ais_password
     = Ok ([x02] ++ map byte_of ais_user ++ [x00]
                ++ b64encode (md5 password_bytes) ++ [x00])) /\
  (is_ascii ais_user = false ->
   create_logon_msg ais_user ais_password = Raise UnicodeEncodeError /\
   create_logon_msg_hashed ais_user ais_password = Raise UnicodeEncodeError) /\
  (is_ascii ais_password = false ->
   create_logon_msg ais_user ais_password = Raise UnicodeEncodeError) /\
  (forall e, encode_utf8 ais_password = Raise e ->
   create_logon_msg_hashed ais_user ais_password = Raise UnicodeEncodeError).
Proof.
  split; [|split; [|split; [|split]]].
  - intros Hu Hp. unfold create_logon_msg.
    by rewrite (encode_ascii_ascii _ Hu), (encode_ascii_ascii _ Hp).
  - intros Hu pb Hpb. unfold create_logon_msg_hashed.
    by rewrite Hpb, (encode_ascii_ascii _ Hu).
  - intros Hu. split.
    + unfold create_logon_msg. by rewrite (encode_ascii_non_ascii _ Hu).
    + unfold create_logon_msg_hashed.
      destruct (encode_utf8 ais_password) as [pb|e] eqn:Ep; simpl.
      * by rewrite (encode_ascii_non_ascii _ Hu).
      * by rewrite (encode_utf8_error _ _ Ep).
  - intros Hp. unfold create_logon_msg.
    destruct (is_ascii ais_user) eqn:Hu.
    + by rewrite (encode_ascii_ascii _ Hu), (encode_ascii_non_ascii _ Hp).
    + by rewrite (encode_ascii_non_ascii _ Hu).
  - intros e Ep. unfold create_logon_msg_hashed. rewrite Ep. simpl.
    by rewrite (encode_utf8_error _ _ Ep).
Qed.

End Login.

Section LoginCases.

Import Relay.

(** The frames for the default credentials [user] and [pass]. *)
Lemma login_frames_witness :
  create_logon_msg (cps "user") (cps "pass")
  = Ok ([x01] ++ lit "user" ++ [x00] ++ lit "pass" ++ [x00]) /\
  create_logon_msg_hashed (cps "user") (cps "pass")
  = Ok ([x02] ++ lit "user" ++ [x00] ++ lit "Gh3JHJBzJcaScd3wyUS8cg=="
             ++ [x00]).
Proof.
  split.
  - apply (proj1 (login_frames (cps "user") (cps "pass"))); reflexivity.
  - apply (proj1 (proj2 (login_frames (cps "user") (cps "pass")))
             eq_refl (lit "pass")).
    reflexivity.
Defined.

(** C7 as stated fails for a username outside ASCII: for the username "å"
    (U+00E5) neither construction gives a frame. *)
Lemma login_frame_non_ascii_username :
  create_logon_msg [229%N] (cps "pass") = Raise UnicodeEncodeError /\
  create_logon_msg_hashed [229%N] (cps "pass") = Raise UnicodeEncodeError.
Proof. split; vm_compute; reflexivity. Qed.

(** A password outside ASCII: no plain frame, while the hashed frame is
    built from the UTF-8 bytes of the password. *)
Example login_frame_non_ascii_password :
  create_logon_msg (cps "user") [112; 229]%N = Raise UnicodeEncodeError /\
  create_logon_msg_hashed (cps "user") [112; 229]%N
  = Ok ([x02] ++ lit "user" ++ [x00]
             ++ b64encode (md5 [byte_of 112; byte_of 195; byte_of 165])
             ++ [x00]).
Proof. split; vm_compute; reflexivity. Qed.

(** A password with a lone surrogate (U+D800) has no UTF-8 encoding: no
    hashed frame. *)
Example login_frame_surrogate_password :
  create_logon_msg_hashed (cps "user") [55296%N] = Raise UnicodeEncodeError.
Proof. vm_compute. reflexivity. Qed.

Example md5_test_vectors :
  b64encode (md5 (lit "pass")) = lit "Gh3JHJBzJcaScd3wyUS8cg==" /\
  md5 [] = [xd4; x1d; x8c; xd9; x8f; x00; xb2; x04;
            xe9; x80; x09; x98; xec; xf8; x42; x7e].
Proof. split; vm_compute; reflexivity. Qed.

End LoginCases.

(** ** Rotation *)

Section Rotation.

Import Relay Spec.

Implicit Types (files : gmap string Z) (name live snapshot : string).

(** Two appends with prefixes of one length agree part by part. *)
Lemma string_app_inv (a1 a2 b1 b2 : string) :
  String.length a1 = String.length a2 ->
  (a1 ++ b1 = a2 ++ b2)%string -> a1 = a2 /\ b1 = b2.
Proof.
  revert a2. induction a1 as [|c a1 IH]; intros [|c2 a2]; simpl; try done.
  intros [= Hlen] [= -> Happ]. destruct (IH a2 Hlen Happ) as [-> ->]. done.
Qed.

Lemma string_app_length (a b : string) :
  String.length (a ++ b) = String.length a + String.length b.
Proof. induction a as [|c a IH]; simpl; [done|]. by rewrite IH. Qed.

Lemma string_app_inv_r (a1 a2 b : string) :
  (a1 ++ b = a2 ++ b)%string -> a1 = a2.
Proof.
  intros Happ. apply (string_app_inv a1 a2 b b); [|done].
  apply (f_equal String.length) in Happ.
  rewrite !string_app_length in Happ. lia.
Qed.

(** The name determines the date and the first eight characters of the
    UUID, once the two dates have one length (they are [%Y-%m-%d] texts). *)
Lemma get_new_db_name_inj (d1 u1 d2 u2 : string) :
  String.length d1 = String.length d2 ->
  get_new_db_name d1 u1 = get_new_db_name d2 u2 ->
  d1 = d2 /\ String.substring 0 8 u1 = String.substring 0 8 u2.
Proof.
  unfold get_new_db_name. intros Hlen Heq.
  apply string_app_inv in Heq as [-> Heq]; [|done]. split; [done|].
  injection Heq as Heq.
  change (String.substring 0 8 u1 +:+ "_ais_db.db"
          = String.substring 0 8 u2 +:+ "_ais_db.db") in Heq.
  by apply string_app_inv_r in Heq.
Qed.

(** What one round of the cleanup leaves under a name. *)
Lemma delete_step_lookup live snapshot cutoff files n k m name :
  (delete_step live snapshot cutoff (files, n) (k, m)).1 !! name
  = if bool_decide (name = k)
       && negb (k =? live)%string && negb (k =? snapshot)%string
       && (m <? cutoff)%Z
    then None else files !! name.
Proof.
  unfold delete_step.
  destruct ((k =? live)%string) eqn:E1; simpl.
  { by rewrite andb_false_r. }
  destruct ((k =? snapshot)%string) eqn:E2; simpl.
  { by rewrite andb_false_r. }
  rewrite !andb_true_r.
  destruct (m <? cutoff)%Z; simpl; [|by rewrite andb_false_r].
  rewrite andb_true_r. case_bool_decide as Hk.
  - subst. apply lookup_delete_eq.
  - by apply lookup_delete_ne.
Qed.

Lemma delete_step_pair live snapshot cutoff
    (acc : gmap string Z * list string) f :
  delete_step live snapshot cutoff acc f
  = ((delete_step live snapshot cutoff acc f).1,
     (delete_step live snapshot cutoff acc f).2).
Proof. by destruct (delete_step live snapshot cutoff acc f). Qed.

(** The loop never adds a file and never changes a modification time. *)
Lemma delete_loop_subset live snapshot cutoff (l : list (string * Z))
    files n name mtime :
  (foldl (delete_step live snapshot cutoff) (files, n) l).1 !! name
  = Some mtime ->
  files !! name = Some mtime.
Proof.
  revert files n. induction l as [|[k m] l IH]; intros files n; [done|].
  cbn [foldl]. rewrite delete_step_pair. intros Hl. apply IH in Hl.
  rewrite delete_step_lookup in Hl.
  by destruct (bool_decide (name = k) && negb (k =? live)%string
               && negb (k =? snapshot)%string && (m <? cutoff)%Z).
Qed.

(** A listed file that is old and unprotected is gone after the loop. *)
Lemma delete_loop_removes live snapshot cutoff (l : list (string * Z))
    files n name mtime :
  (name, mtime) ∈ l ->
  (name =? live)%string = false -> (name =? snapshot)%string = false ->
  (mtime <? cutoff)%Z = true ->
  (foldl (delete_step live snapshot cutoff) (files, n) l).1 !! name = None.
Proof.
  intros Hin Hlive Hsnap Hold. revert files n Hin.
  induction l as [|[k m] l IH]; intros files n Hin.
  { by apply elem_of_nil in Hin. }
  cbn [foldl]. rewrite delete_step_pair.
  apply elem_of_cons in Hin as [[= <- <-]|Hin]; [|by apply IH].
  match goal with |- ?x = None => destruct x eqn:E; [|done] end.
  apply delete_loop_subset in E. rewrite delete_step_lookup in E.
  rewrite bool_decide_eq_true_2, Hlive, Hsnap, Hold in E by done. done.
Qed.

(** A file for which no listed entry is old and unprotected stays. *)
Lemma delete_loop_keeps live snapshot cutoff (l : list (string * Z))
    files n name :
  (forall mtime, (name, mtime) ∈ l ->
     negb (name =? live)%string && negb (name =? snapshot)%string
     && (mtime <? cutoff)%Z = false) ->
  (foldl (delete_step live snapshot cutoff) (files, n) l).1 !! name
  = files !! name.
Proof.
  revert files n. induction l as [|[k m] l IH]; intros files n Hno; [done|].
  cbn [foldl]. rewrite delete_step_pair, IH.
  - rewrite delete_step_lookup. case_bool_decide as Hk; [|done].
    subst k. simpl. rewrite <- !andb_assoc.
    rewrite !andb_assoc, (Hno m); [done|]. apply list_elem_of_here.
  - intros mtime Hin. apply Hno. by apply list_elem_of_further.
Qed.

Lemma timedelta_cutoff weeks now mtime :
  (mtime <? now - timedelta_weeks weeks)%Z
  = (timedelta_weeks weeks <? now - mtime)%Z.
Proof.
  destruct (Z.ltb_spec mtime (now - timedelta_weeks weeks)),
    (Z.ltb_spec (timedelta_weeks weeks) (now - mtime)); (done || lia).
Qed.

(** The cleanup removes exactly the expired files. *)
Lemma delete_old_database_files weeks now (r : rotation) files :
  db_dir r = Some files ->
  exists files',
    db_dir (delete_old_database weeks now r) = Some files' /\
    LIVE_DB (delete_old_database weeks now r) = LIVE_DB r /\
    SNAPSHOT_DB (delete_old_database weeks now r) = SNAPSHOT_DB r /\
    forall name,
      files' !! name
      = after_cleanup (LIVE_DB r) (SNAPSHOT_DB r) weeks now files name.
Proof.
  intros Hdir. unfold delete_old_database. rewrite Hdir.
  set (globbed :=
         filter (fun f => is_db_file f.1 = true) (map_to_list files)).
  set (cutoff := (now - timedelta_weeks weeks)%Z).
  destruct (foldl (delete_step (LIVE_DB r) (SNAPSHOT_DB r) cutoff)
              (files, []) globbed) as [files' cnt] eqn:Efold.
  exists files'. split; [done|]. split; [done|]. split; [done|].
  intros name.
  assert (files' = (foldl (delete_step (LIVE_DB r) (SNAPSHOT_DB r) cutoff)
                      (files, []) globbed).1) as -> by (by rewrite Efold).
  unfold after_cleanup, expired.
  destruct (files !! name) as [mtime|] eqn:Ename.
  - destruct (is_db_file name) eqn:Edb; simpl.
    + destruct (negb (name =? LIVE_DB r)%string
                && negb (name =? SNAPSHOT_DB r)%string
                && (timedelta_weeks weeks <? now - mtime)%Z) eqn:Eexp.
      * apply andb_true_iff in Eexp as [Eexp Hold].
        apply andb_true_iff in Eexp as [Hl Hs].
        apply negb_true_iff in Hl, Hs.
        apply (delete_loop_removes _ _ _ _ _ _ _ mtime); try done.
        -- subst globbed. apply list_elem_of_filter. split; [done|].
           by apply elem_of_map_to_list.
        -- subst cutoff. by rewrite timedelta_cutoff.
      * rewrite delete_loop_keeps; [done|].
        intros mtime' Hin. subst globbed.
        apply list_elem_of_filter in Hin as [_ Hin].
        apply elem_of_map_to_list in Hin.
        assert (mtime' = mtime) as -> by congruence.
        subst cutoff. by rewrite timedelta_cutoff.
    + rewrite delete_loop_keeps; [done|].
      intros mtime' Hin. subst globbed.
      apply list_elem_of_filter in Hin as [Hdb _]. simpl in Hdb. congruence.
  - destruct ((foldl (delete_step (LIVE_DB r) (SNAPSHOT_DB r) cutoff)
                 (files, []) globbed).1 !! name) eqn:E; [|done].
    apply delete_loop_subset in E. congruence.
Qed.

(** C8, as the code has it. The rotation step makes the live path the
    freshly generated name; that name differs from the prior live path
    whenever the date or the first eight characters of the UUID differ
    from those the prior name was generated from. The cleanup that follows
    removes from the directory exactly the [.db] files whose age exceeds
    one week and that are neither the new live database nor the snapshot;
    every other file stays, with its modification time. *)
Theorem rotation_step (date_str uuid_str : string) (now : Z) (r : rotation) :
  let r1 := reset_db date_str uuid_str now r in
  let r' := reset_db_on_new_day date_str uuid_str now r in
  LIVE_DB r' = get_new_db_name date_str uuid_str /\
  SNAPSHOT_DB r' = SNAPSHOT_DB r /\
  (forall d0 u0,
      LIVE_DB r = get_new_db_name d0 u0 ->
      String.length d0 = String.length date_str ->
      (d0, String.substring 0 8 u0)
      <> (date_str, String.substring 0 8 uuid_str) ->
      LIVE_DB r' <> LIVE_DB r) /\
  exists files1 files',
    db_dir r1 = Some files1 /\ db_dir r' = Some files' /\
    is_Some (files1 !! LIVE_DB r') /\
    (forall name,
        name <> LIVE_DB r' ->
        files1 !! name = default ∅ (db_dir r) !! name) /\
    forall name,
      files' !! name
      = after_cleanup (LIVE_DB r') (SNAPSHOT_DB r) 1 now files1 name.
Proof.
  intros r1 r'.
  set (files1 :=
         match default ∅ (db_dir r) !! get_new_db_name date_str uuid_str with
         | Some _ => default ∅ (db_dir r)
         | None => <[get_new_db_name date_str uuid_str := now]>
                     (default ∅ (db_dir r))
         end).
  assert (db_dir r1 = Some files1) as Hdir1.
  { subst r1 files1. unfold reset_db. simpl. by destruct (db_dir r). }
  destruct (delete_old_database_files 1 now r1 files1 Hdir1)
    as (files' & Hdir' & Hlive & Hsnap & Hfiles).
  assert (LIVE_DB r' = get_new_db_name date_str uuid_str) as Hnew.
  { subst r'. unfold reset_db_on_new_day. fold r1. by rewrite Hlive. }
  split; [done|]. split.
  { subst r'. unfold reset_db_on_new_day. fold r1. by rewrite Hsnap. }
  split.
  { intros d0 u0 Hold Hlen Hne. rewrite Hnew, Hold. intros Heq.
    symmetry in Heq.
    apply get_new_db_name_inj in Heq as [-> Hu]; [|done].
    apply Hne. by rewrite Hu. }
  exists files1, files'. split; [done|]. split; [done|].
  rewrite Hnew. split; [|split].
  - subst files1.
    destruct (default ∅ (db_dir r) !! get_new_db_name date_str uuid_str)
      eqn:E; [by rewrite E|].
    rewrite lookup_insert_eq. by eexists.
  - intros name Hname. subst files1.
    destruct (default ∅ (db_dir r) !! get_new_db_name date_str uuid_str);
      [done|].
    by rewrite lookup_insert_ne.
  - intros name. rewrite Hfiles. by subst r1.
Qed.

End Rotation.

Section RotationCases.

Import Relay Spec Samples.

(** C8 as stated fails when the fresh UUID starts with the eight
    characters of the one before on the same date: the live path after
    the rotation is the live path before it. *)
Lemma rotation_repeats_name_on_equal_uuid_prefix :
  LIVE_DB (reset_db_on_new_day "2026-01-01"
             "aaaaaaaa-1111-4111-8111-111111111111" now_us sample_rotation)
  = LIVE_DB sample_rotation.
Proof. vm_compute. reflexivity. Qed.

(** A rotation of the sample directory on the next day: the two files
    older than a week are gone; the new and the old live database, the
    snapshot, the two-day-old database and the text file are there. *)
Lemma rotation_step_witness :
  LIVE_DB (reset_db_on_new_day "2026-01-02"
             "eeeeeeee-2222-4222-8222-222222222222" now_us sample_rotation)
  = "2026-01-02_eeeeeeee_ais_db.db" /\
  db_dir (reset_db_on_new_day "2026-01-02"
            "eeeeeeee-2222-4222-8222-222222222222" now_us sample_rotation)
  = Some (<["2026-01-02_eeeeeeee_ais_db.db" := now_us]>
          (<["2026-01-01_aaaaaaaa_ais_db.db" := (now_us - 1000000)%Z]>
          (<["ais_snapshot.db" := (now_us - 30 * day_us)%Z]>
          (<["2025-12-30_dddddddd_ais_db.db" := (now_us - 2 * day_us)%Z]>
          (<["notes.txt" := (now_us - 90 * day_us)%Z]> ∅))))).
Proof.
  split.
  - apply (proj1 (rotation_step "2026-01-02"
                    "eeeeeeee-2222-4222-8222-222222222222" now_us
                    sample_rotation)).
  - vm_compute. reflexivity.
Defined.

End RotationCases.

(** ** The structured fan-out *)

Section FanoutFacts.

Import Fanout Spec.

Variable send_json : nat -> gmap string value -> option exn.
Variable message : gmap string value.

Implicit Types (b : GeographicBounds) (ws : nat)
  (bounds : option GeographicBounds) (acc : fanout).

(** [contains] answers true exactly on two numbers within the bounds. *)
Lemma contains_true b lat_v lon_v :
  contains b lat_v lon_v = Ok true <->
  exists lat lon,
    as_num lat_v = Some lat /\ as_num lon_v = Some lon /\
    in_bounds b lat lon = true.
Proof.
  unfold contains, in_bounds, le_num_value, le_value_num. split.
  - destruct (as_num lat_v) as [lat|]; [|done].
    cbn [mbind result_bind].
    destruct (num_le (min_lat b) lat) eqn:H1; [|done]. cbn [negb].
    destruct (num_le lat (max_lat b)) eqn:H2; [|done]. cbn [negb].
    destruct (as_num lon_v) as [lon|]; [|done].
    cbn [mbind result_bind].
    destruct (num_le (min_lon b) lon) eqn:H3; [|done]. cbn [negb].
    intros [= H4]. exists lat, lon. by rewrite H1, H2, H3, H4.
  - intros (lat & lon & -> & -> & Hin).
    apply andb_true_iff in Hin as [Hin H4].
    apply andb_true_iff in Hin as [Hin H3].
    apply andb_true_iff in Hin as [H1 H2].
    cbn [mbind result_bind]. by rewrite H1, H2, H3, H4.
Qed.

Lemma py_getitem_truthy loc key x :
  py_getitem loc key = Ok x -> truthy loc = true.
Proof.
  destruct loc; try done. simpl.
  destruct (d !! key) eqn:E; [|done]. intros _.
  apply negb_true_iff, Nat.eqb_neq. intros Hsize.
  apply map_size_empty_iff in Hsize. subst d. by rewrite lookup_empty in E.
Qed.

(** The filter lets a report through exactly when no filter is set, or
    the report carries coordinates within the bounds. *)
Lemma passes_filter_true bounds :
  passes_filter bounds message = Ok true <->
  bounds = None \/
  exists b lat lon,
    bounds = Some b /\ carries_coordinates message lat lon /\
    in_bounds b lat lon = true.
Proof.
  destruct bounds as [b|]; simpl.
  2:{ split; [by left | done]. }
  unfold dict_get. split.
  - destruct (message !! "location") as [loc|] eqn:Eloc; [|done].
    destruct (truthy loc) eqn:Et; [|done]. cbn [negb].
    destruct (py_getitem loc "coordinates") as [coordinates|] eqn:Eget;
      [|done].
    cbn [mbind result_bind].
    destruct (unpack2 coordinates) as [[lon_v lat_v]|] eqn:Eun; [|done].
    cbn [mbind result_bind].
    intros (lat & lon & Hlat & Hlon & Hin)%contains_true.
    right. exists b, lat, lon. split; [done|]. split; [|done].
    by exists loc, coordinates, lon_v, lat_v.
  - intros [|(b' & lat & lon & [= <-] & Hc & Hin)]; [done|].
    destruct Hc as (loc & coordinates & lon_v & lat_v
                    & -> & Hget & Hun & Hlat & Hlon).
    rewrite (py_getitem_truthy _ _ _ Hget), Hget. cbn [negb mbind result_bind].
    rewrite Hun. cbn [mbind result_bind].
    apply contains_true. by exists lat, lon.
Qed.

Lemma broadcast_step_called acc ws bounds :
  called (broadcast_step send_json message acc (ws, bounds))
  = called acc
    ++ match passes_filter bounds message with Ok true => [ws] | _ => [] end.
Proof.
  unfold broadcast_step.
  destruct (passes_filter bounds message) as [[|]|];
    [|by rewrite app_nil_r|by rewrite app_nil_r].
  by destruct (send_json ws message).
Qed.

Lemma broadcast_step_sent acc ws bounds :
  sent (broadcast_step send_json message acc (ws, bounds))
  = sent acc
    ++ match passes_filter bounds message, send_json ws message with
       | Ok true, None => [ws]
       | _, _ => []
       end.
Proof.
  unfold broadcast_step.
  destruct (passes_filter bounds message) as [[|]|];
    [|by rewrite app_nil_r|by rewrite app_nil_r].
  destruct (send_json ws message); [by rewrite app_nil_r | done].
Qed.

(** The sockets [send_json] is called on during the first loop. *)
Lemma broadcast_fold_called (l : list (nat * option GeographicBounds)) acc ws :
  ws ∈ called (foldl (broadcast_step send_json message) acc l) <->
  ws ∈ called acc \/
  exists bounds, (ws, bounds) ∈ l /\ passes_filter bounds message = Ok true.
Proof.
  revert acc. induction l as [|[ws' bounds'] l IH]; intros acc.
  - simpl. split; [by left|]. intros [|(? & []%elem_of_nil & _)]; done.
  - cbn [foldl]. rewrite IH, broadcast_step_called, elem_of_app. split.
    + intros [[Hacc|Hnew]|(bounds & Hin & Hp)].
      * by left.
      * right. exists bounds'.
        destruct (passes_filter bounds' message) as [[|]|];
          try by apply elem_of_nil in Hnew.
        apply list_elem_of_singleton in Hnew as ->.
        split; [apply list_elem_of_here | done].
      * right. exists bounds. split; [by apply list_elem_of_further | done].
    + intros [Hacc|(bounds & Hin & Hp)]; [by left; left|].
      apply elem_of_cons in Hin as [[= -> ->]|Hin].
      * left. right. rewrite Hp. apply list_elem_of_here.
      * right. by exists bounds.
Qed.

(** The sockets on which [send_json] returned. *)
Lemma broadcast_fold_sent (l : list (nat * option GeographicBounds)) acc ws :
  ws ∈ sent (foldl (broadcast_step send_json message) acc l) <->
  ws ∈ sent acc \/
  exists bounds, (ws, bounds) ∈ l /\ passes_filter bounds message = Ok true
                 /\ send_json ws message = None.
Proof.
  revert acc. induction l as [|[ws' bounds'] l IH]; intros acc.
  - simpl. split; [by left|]. intros [|(? & []%elem_of_nil & _)]; done.
  - cbn [foldl]. rewrite IH, broadcast_step_sent, elem_of_app. split.
    + intros [[Hacc|Hnew]|(bounds & Hin & Hp)].
      * by left.
      * right. exists bounds'.
        destruct (passes_filter bounds' message) as [[|]|];
          try by apply elem_of_nil in Hnew.
        destruct (send_json ws' message) eqn:Es;
          try by apply elem_of_nil in Hnew.
        apply list_elem_of_singleton in Hnew as ->.
        split; [apply list_elem_of_here | done].
      * right. exists bounds. split; [by apply list_elem_of_further | done].
    + intros [Hacc|(bounds & Hin & Hp & Hs)]; [by left; left|].
      apply elem_of_cons in Hin as [[= -> ->]|Hin].
      * left. right. rewrite Hp, Hs. apply list_elem_of_here.
      * right. by exists bounds.
Qed.

(** Delivery in a broadcast that no other task disturbs: for a subscriber
    of the registry with its filter, [send_json] is called for it when its
    filter is unset; when its filter is set to bounds, [send_json] is
    called for it if and only if the report carries coordinates
    [(lat, lon)] with [min_lat <= lat <= max_lat] and
    [min_lon <= lon <= max_lon]; a report without a location is never sent
    to a subscriber with a set filter; and the report arrives whenever the
    call is made and the transport does not fail. *)
Lemma broadcast_ws_undisturbed_delivery
    (ws_clients : gmap nat (option GeographicBounds)) ws bounds :
  ws_clients !! ws = Some bounds ->
  let run := (broadcast_ws_undisturbed send_json message ws_clients).1 in
  (bounds = None -> ws ∈ called run) /\
  (forall b, bounds = Some b ->
     (ws ∈ called run <->
      exists lat lon,
        carries_coordinates message lat lon /\ in_bounds b lat lon = true)) /\
  (forall b, bounds = Some b -> message !! "location" = None ->
     ws ∉ called run) /\
  (ws ∈ sent run <-> ws ∈ called run /\ send_json ws message = None).
Proof.
  intros Hws run.
  assert (forall bounds', (ws, bounds') ∈ map_to_list ws_clients ->
                          bounds' = bounds) as Huniq.
  { intros bounds' Hin%elem_of_map_to_list. congruence. }
  assert (ws ∈ called run <-> passes_filter bounds message = Ok true)
    as Hcalled.
  { subst run. unfold broadcast_ws_undisturbed. cbn [fst].
    rewrite broadcast_fold_called.
    split.
    - intros [[]%elem_of_nil|(bounds' & Hin & Hp)].
      by rewrite <- (Huniq _ Hin).
    - intros Hp. right. exists bounds. split; [|done].
      by apply elem_of_map_to_list. }
  split; [|split; [|split]].
  - intros ->. by apply Hcalled.
  - intros b ->. rewrite Hcalled, passes_filter_true. split.
    + intros [|(b' & lat & lon & [= <-] & Hc & Hin)]; [done|].
      by exists lat, lon.
    + intros (lat & lon & Hc & Hin). right. by exists b, lat, lon.
  - intros b -> Hnone. rewrite Hcalled. simpl. unfold dict_get.
    by rewrite Hnone.
  - rewrite Hcalled. subst run. unfold broadcast_ws_undisturbed. cbn [fst].
    rewrite broadcast_fold_sent. split.
    + intros [[]%elem_of_nil|(bounds' & Hin & Hp & Hs)].
      by rewrite <- (Huniq _ Hin).
    + intros [Hp Hs]. right. exists bounds. split; [|done].
      by apply elem_of_map_to_list.
Qed.

End FanoutFacts.

Section FanoutCases.

Import Fanout Spec Samples.

(** The example of the specification: with bounds 56, 58, 18, 21 a report
    at (57.0, 19.0) passes the filter and one at (60.0, 19.0) does not; a
    report without a position passes no set filter. *)
Example passes_filter_examples :
  passes_filter (Some bounds_56_58_18_21) (report_at 57.0 19.0) = Ok true /\
  passes_filter (Some bounds_56_58_18_21) (report_at 60.0 19.0) = Ok false /\
  passes_filter (Some bounds_56_58_18_21) report_static = Ok false /\
  passes_filter None report_static = Ok true.
Proof. repeat split; vm_compute; reflexivity. Qed.

(** The whole broadcast for the three subscribers, undisturbed (the
    sockets in the order the finite map lists them, which is not the order
    of arrival). *)
Example broadcast_ws_examples :
  (broadcast_ws_undisturbed send_ok (report_at 57.0 19.0) three_clients).1
  = {| sent := [2; 3; 1]%nat; called := [2; 3; 1]%nat; dead := [] |} /\
  (broadcast_ws_undisturbed send_ok (report_at 60.0 19.0) three_clients).1
  = {| sent := [1%nat]; called := [1%nat]; dead := [] |} /\
  (broadcast_ws_undisturbed send_ok report_static three_clients).1
  = {| sent := [1%nat]; called := [1%nat]; dead := [] |}.
Proof. repeat split; vm_compute; reflexivity. Qed.

End FanoutCases.

(** ** The TCP client gate *)

Section TcpGate.

Import Relay Spec.

Implicit Types (s : pystr) (bs buf : list byte) (rest : list read_event).

Lemma to_N_byte_of c : (c < 256)%N -> Byte.to_N (byte_of c) = c.
Proof.
  intros Hc. unfold byte_of.
  destruct (Byte.of_N c) as [b|] eqn:E.
  - by apply Byte.to_of_N.
  - apply Byte.of_N_None_iff in E. lia.
Qed.

Lemma is_ascii_forall s : is_ascii s = true <-> Forall (fun c => (c < 128)%N) s.
Proof.
  unfold is_ascii. rewrite forallb_forall, Forall_forall.
  split; intros Hs c Hc.
  - apply N.ltb_lt, Hs. by apply list_elem_of_In.
  - apply N.ltb_lt, Hs. by apply list_elem_of_In.
Qed.

Lemma to_N_bytes_of_ascii s :
  is_ascii s = true -> map Byte.to_N (map byte_of s) = s.
Proof.
  rewrite is_ascii_forall. induction 1 as [|c s Hc _ IH]; [done|].
  simpl. rewrite IH, to_N_byte_of by lia. done.
Qed.

(** ASCII bytes decode to themselves. *)
Lemma decode_utf8_ignore_ascii (l : list N) :
  Forall (fun c => (c < 128)%N) l -> decode_utf8_ignore l = l.
Proof.
  induction 1 as [|c l Hc _ IH]; [done|].
  simpl. unfold lead_len. apply N.ltb_lt in Hc. rewrite Hc. by rewrite IH.
Qed.





(** Reading a line that fits: the bytes up to and with the newline. *)
Lemma read_line_loop_line bs buf rest (max_bytes : nat) :
  Forall (fun b => is_newline b = false) bs ->
  length buf + length bs + 1 <= max_bytes ->
  read_line_loop (map RData (bs ++ [x0a]) ++ rest) max_bytes buf
  = (Ok (buf ++ bs ++ [x0a]), rest).
Proof.
  intros Hbs. revert buf. induction Hbs as [|b bs Hb _ IH]; intros buf Hlen.
  - simpl. rewrite length_app. simpl.
    destruct (Nat.ltb_spec max_bytes (length buf + 1)); [simpl in *; lia|].
    done.
  - simpl in *. rewrite length_app. simpl.
    destruct (Nat.ltb_spec max_bytes (length buf + 1)); [lia|].
    rewrite Hb, IH.
    + by rewrite <- app_assoc.
    + rewrite length_app. simpl. lia.
Qed.



Lemma forallb_lstrip (P : N -> bool) s :
  forallb P s = true -> forallb P (lstrip s) = true.
Proof.
  induction s as [|c s IH]; [done|]. simpl.
  intros [Hc Hs]%andb_true_iff.
  destruct (is_space c); [by apply IH|]. simpl. by rewrite Hc, Hs.
Qed.

Lemma forallb_rev (P : N -> bool) s :
  forallb P s = true -> forallb P (rev s) = true.
Proof.
  rewrite !forallb_forall. intros Hs c Hc. apply Hs. by apply in_rev.
Qed.

Lemma is_ascii_strip s : is_ascii s = true -> is_ascii (strip s) = true.
Proof.
  unfold is_ascii, strip. intros Hs.
  by apply forallb_rev, forallb_lstrip, forallb_rev, forallb_lstrip.
Qed.







End TcpGate.

Section TcpGateCases.

Import Relay Spec Samples.




(** A configured password outside ASCII: the client sends its UTF-8
    bytes, the comparison raises [TypeError], no status line is written
    and the writer is not added. *)
Example non_ascii_password_raises :
  handle_tcp_client non_ascii_auth 7
    (line (cps "admin") ++ map RData [x70; xc3; xa5; x0a] ++ [REof]) ∅
  = {| sent := [auth_required; lit "Password: "];
       ops := []; tcp_clients := ∅; escaped := Some TypeError |}.
Proof. vm_compute. reflexivity. Qed.

(** A client that stays silent is answered with the timeout line. *)
Example silent_client_times_out :
  handle_tcp_client default_auth 7 (line (cps "admin") ++ [RTimeout]) ∅
  = {| sent := [auth_required; lit "Password: ";
                lit "AUTH TIMEOUT" ++ [x0d; x0a]];
       ops := []; tcp_clients := ∅; escaped := None |}.
Proof. vm_compute. reflexivity. Qed.

(** A username line of more than 64 bytes raises [ValueError]. *)
Example long_username_raises :
  escaped (handle_tcp_client default_auth 7
             (map RData (repeat x61 65)) ∅)
  = Some ValueError.
Proof. vm_compute. reflexivity. Qed.

End TcpGateCases.

(** ** The storage *)

Section Storage.

Import Db Spec.

Variable env : sqlite_env.

Implicit Types (d : db) (m : value) (key : sqlval) (kw : vessel_fields)
  (fields : state_fields) (v : vessel).

Lemma text_affinity_idem key :
  text_affinity env (text_affinity env key) = text_affinity env key.
Proof. by destruct key. Qed.

(** A value under TEXT affinity that is not NULL equals itself. *)
Lemma text_eqb_refl key :
  text_affinity env key <> SNull ->
  text_eqb (text_affinity env key) (text_affinity env key) = true.
Proof.
  destruct key; simpl; try done; intros _; by apply bool_decide_eq_true_2.
Qed.


Lemma get_vessel_bind d m r :
  get_vessel env d m = Ok r -> exists key, bind_param m = Ok key.
Proof.
  unfold get_vessel. destruct (bind_param m) as [key|]; [|done]. by exists key.
Qed.

(** [update_vessel] touches neither the keys of [vessels] nor the states. *)
Lemma update_vessel_frame d m kw :
  vessel_states (update_vessel env d m kw).1 = vessel_states d /\
  map mmsi (vessels (update_vessel env d m kw).1) = map mmsi (vessels d).
Proof.
  unfold update_vessel.
  destruct (set_field env (f_imo kw) SNull); [|done].
  destruct (set_field env (f_ship_name kw) SNull); [|done].
  destruct (set_field env (f_ship_type kw) SNull); [|done].
  destruct (bind_param m) as [key|]; [|done].
  split; [done|]. cbn [fst vessels]. rewrite map_map. apply map_ext.
  intros row. by destruct (has_mmsi env key row).
Qed.

(** [insert_vessel] appends one row or changes nothing. *)
Lemma insert_vessel_frame d m kw :
  vessel_states (insert_vessel env d m kw).1 = vessel_states d /\
  ((insert_vessel env d m kw).1 = d /\ (insert_vessel env d m kw).2 <> None
   \/ exists key row,
        bind_param m = Ok key /\ mmsi row = text_affinity env key /\
        vessels (insert_vessel env d m kw).1 = vessels d ++ [row] /\
        (insert_vessel env d m kw).2 = None).
Proof.
  unfold insert_vessel.
  destruct (bind_param m) as [key|]; [|by split; [|left]].
  destruct (bind_param (f_imo kw)); [|by split; [|left]].
  destruct (bind_param (f_ship_name kw)); [|by split; [|left]].
  destruct (bind_param (f_ship_type kw)); [|by split; [|left]].
  destruct (existsb (has_mmsi env key) (vessels d)); [by split; [|left]|].
  split; [done|]. right. eexists key, _.
  split; [done|]. split; [|split; [cbn; reflexivity|done]]. done.
Qed.

(** [create_vessel] keeps the states and every key that was there. *)
Lemma create_vessel_frame d m kw :
  vessel_states (create_vessel env d m kw).1 = vessel_states d /\
  forall v, v ∈ vessels d ->
    exists v', v' ∈ vessels (create_vessel env d m kw).1 /\ mmsi v' = mmsi v.
Proof.
  unfold create_vessel.
  destruct (get_vessel env d m) as [[found|]|]; [| |by split; eauto].
  - destruct (update_vessel_frame d m kw) as [Hst Hkeys].
    split; [done|]. intros v Hv.
    assert (mmsi v ∈ map mmsi (vessels (update_vessel env d m kw).1)) as Hin.
    { rewrite Hkeys. by apply list_elem_of_fmap_2. }
    apply list_elem_of_fmap in Hin as (v' & Heq & Hv'). by exists v'.
  - destruct (insert_vessel_frame d m kw)
      as [Hst [[Hsame _]|(key & row & _ & _ & Hrows & _)]].
    + rewrite Hsame. split; eauto.
    + split; [done|]. intros v Hv. exists v. split; [|done].
      rewrite Hrows. apply elem_of_app. by left.
Qed.


Lemma bind_all_cons (x : value) (xs : list value) :
  bind_all (x :: xs)
  = match bind_param x with
    | Ok y => match bind_all xs with
              | Ok ys => Ok (y :: ys)
              | Raise e => Raise e
              end
    | Raise e => Raise e
    end.
Proof. unfold bind_all. simpl. by destruct (bind_param x). Qed.

(** [insert_vessel_state] appends one state or changes nothing. *)
Lemma insert_vessel_state_frame d m fields :
  vessels (insert_vessel_state env d m fields).1 = vessels d /\
  ((insert_vessel_state env d m fields).1 = d /\
   (insert_vessel_state env d m fields).2 <> None
   \/ exists key s,
        bind_param m = Ok key /\ vessel_mmsi s = text_affinity env key /\
        vessel_states (insert_vessel_state env d m fields).1
        = vessel_states d ++ [s] /\
        (insert_vessel_state env d m fields).2 = None).
Proof.
  unfold insert_vessel_state. rewrite bind_all_cons.
  destruct (bind_param m) as [key|]; [|by split; [|left]].
  destruct (bind_all _) as [l|]; [|by split; [|left]].
  do 9 (destruct l as [|? l]; [by split; [|left]|]).
  destruct l; [|by split; [|left]].
  split; [done|]. right. eexists key, _.
  split; [done|]. split; [|split; [cbn; reflexivity|done]]. done.
Qed.



End Storage.

Section StorageCases.

Import Db Spec Samples.

(** A first state for a vessel the storage has not seen: the vessel row is
    created, the state row refers to it, and the int MMSI is stored as
    text in both. *)
Example create_vessel_state_on_empty :
  create_vessel_state sample_env init_db (VInt 123456789) fields_position
  = ({| vessels :=
          [{| mmsi := SText (cps "123456789"); imo := SNull;
              ship_name := SNull; ship_type := SNull;
              created_at := SText (now sample_env);
              updated_at := SText (now sample_env) |}];
        vessel_states :=
          [{| id := 1; vessel_mmsi := SText (cps "123456789");
              latitude := SReal 57.5%float; longitude := SReal 18.25%float;
              speed := SReal 12.5%float; heading := SInteger 90;
              course := SReal 91.5%float; draught := SNull;
              status := SText (cps "UnderWayUsingEngine");
              call_sign := SNull; destination := SNull;
              received_at := SText (now sample_env);
              state_updated_at := SText (now sample_env) |}];
        seq := 1 |}, None).
Proof. vm_compute. reflexivity. Qed.

(** A second state for the same vessel, given as text this time: no second
    vessel row, a second state row. *)
Example create_vessel_state_twice :
  let d1 := (create_vessel_state sample_env init_db (VInt 123456789)
               fields_position).1 in
  let d2 := (create_vessel_state sample_env d1 (VStr (cps "123456789"))
               fields_position).1 in
  length (vessels d2) = 1 /\ map id (vessel_states d2) = [1; 2]%Z /\
  map vessel_mmsi (vessel_states d2)
  = [SText (cps "123456789"); SText (cps "123456789")].
Proof. vm_compute. repeat split; reflexivity. Qed.

(** An MMSI of [None] is stored as NULL and refers to no vessel. *)
Example create_vessel_state_null :
  let d1 := (create_vessel_state sample_env init_db VNone fields_position).1 in
  map mmsi (vessels d1) = [SNull] /\
  map vessel_mmsi (vessel_states d1) = [SNull].
Proof. vm_compute. split; reflexivity. Qed.

(** An argument SQLite cannot bind: the call raises before it writes. *)
Example create_vessel_state_unbindable :
  create_vessel_state sample_env init_db (VList []) fields_position
  = (init_db, Some ProgrammingError).
Proof. vm_compute. reflexivity. Qed.


End StorageCases.

Section PipelineCases.

Import Relay Spec Samples.

(** The scenario of the specification: one decoded position report is
    normalised and persisted with one [create_vessel] and one
    [create_vessel_state] call that carries the coordinates. *)
Example position_report_is_persisted :
  (process_ais_message (gateway := sqlite_gateway)
     (normalize_ais_message decoded_position) Db.init_db).1.1
  = [CreateVessel vessel_123456789;
     CreateVesselState
       {| latitude := VFloat 57.5%float; longitude := VFloat 18.25%float;
          speed := VNone; heading := VNone; course := VNone;
          draught := VNone; status := VStr (cps "UnderWayUsingEngine");
          call_sign := VNone; destination := VNone;
          vessel_mmsi := VInt 123456789 |}].
Proof. vm_compute. reflexivity. Qed.

(** Two reports for one vessel: one vessel row, two state rows. *)
Example two_reports_one_vessel :
  let srv :=
    {| db_queue := new_db_queue; database := Db.init_db; log := [];
       calls := [] |} in
  let srv2 :=
    db_worker (gateway := sqlite_gateway) 2
      (enqueue_for_db (normalize_ais_message decoded_position)
         (enqueue_for_db (normalize_ais_message decoded_position) srv)) in
  length (Db.vessels (database srv2)) = 1 /\
  length (Db.vessel_states (database srv2)) = 2 /\
  length (calls srv2) = 4 /\ items (db_queue srv2) = [] /\ log srv2 = [].
Proof. vm_compute. repeat split; reflexivity. Qed.

End PipelineCases.

(** ** Stripping, and the filter of the upstream lines *)

Section Stripping.

Import Relay Spec.

Context {A : Type} (P : A -> bool).

Implicit Types (l : list A) (x y : A).

Lemma lstrip_by_head l :
  match lstrip_by P l with [] => True | x :: _ => P x = false end.
Proof.
  induction l as [|x l IH]; simpl; [done|].
  destruct (P x) eqn:E; [done|]. done.
Qed.

Lemma rstrip_by_snoc l x :
  rev (lstrip_by P (rev (l ++ [x])))
  = if P x then rev (lstrip_by P (rev l)) else l ++ [x].
Proof.
  rewrite rev_app_distr. simpl. destruct (P x); [done|].
  simpl. by rewrite rev_involutive.
Qed.

Lemma rstrip_by_cons x l :
  P x = false ->
  rev (lstrip_by P (rev (x :: l))) = x :: rev (lstrip_by P (rev l)).
Proof.
  intros Hx. induction l as [|y l IH] using rev_ind.
  - simpl. by rewrite Hx.
  - change (x :: l ++ [y]) with ((x :: l) ++ [y]).
    rewrite !rstrip_by_snoc. by destruct (P y).
Qed.

Lemma rstrip_by_last l :
  match last (rev (lstrip_by P (rev l))) with
  | Some y => P y = false
  | None => rev (lstrip_by P (rev l)) = []
  end.
Proof.
  induction l as [|y l IH] using rev_ind; [done|].
  rewrite rstrip_by_snoc. destruct (P y) eqn:E; [done|].
  by rewrite last_snoc.
Qed.

(** What [strip] returns has nothing to strip at either end. *)
Lemma strip_by_stripped l : stripped P (strip_by P l).
Proof.
  unfold strip_by. pose proof (lstrip_by_head l) as Hhead.
  destruct (lstrip_by P l) as [|x r]; [done|].
  rewrite rstrip_by_cons by done. split; [done|].
  pose proof (rstrip_by_last (x :: r)) as Hlast.
  rewrite rstrip_by_cons in Hlast by done.
  destruct (last (x :: rev (lstrip_by P (rev r)))) as [y|]; [|done].
  by exists y.
Qed.

(** A line with nothing to strip is returned as it is. *)
Lemma strip_by_id l : stripped P l -> strip_by P l = l.
Proof.
  destruct l as [|x r]; [done|]. intros [Hx (y & Hlast & Hy)].
  unfold strip_by. simpl. rewrite Hx.
  destruct (last_Some (x :: r) y) as [(l' & Hl') _]; [done|].
  rewrite Hl', rstrip_by_snoc, Hy. done.
Qed.

Lemma strip_by_idem l : strip_by P (strip_by P l) = strip_by P l.
Proof. apply strip_by_id, strip_by_stripped. Qed.

End Stripping.

Section UpstreamFilter.

Import Relay Spec.

Implicit Types (line raw : list byte) (lines : list (list byte)).

Lemma bytes_truthy_nonempty line : bytes_truthy line = true <-> line <> [].
Proof. by destruct line. Qed.

Lemma clean_line_kept line :
  clean_line line ->
  bytes_strip line = line /\
  bytes_truthy (bytes_strip line)
  && negb (bytes_startswith (bytes_strip line) (lit "$ABVSI")) = true.
Proof.
  intros (Hne & Hstripped & Hnoise).
  assert (bytes_strip line = line) as Hid by (by apply strip_by_id).
  split; [done|]. rewrite Hid, Hnoise.
  by apply bytes_truthy_nonempty in Hne as ->.
Qed.

Lemma filter_valid_ais_lines_elem lines line :
  line ∈ filter_valid_ais_lines lines <->
  exists raw, raw ∈ lines /\ line = bytes_strip raw /\ clean_line line.
Proof.
  unfold filter_valid_ais_lines. rewrite list_elem_of_fmap. split.
  - intros (raw & -> & Hin). apply list_elem_of_In, filter_In in Hin.
    destruct Hin as [Hin Hcond]. apply andb_true_iff in Hcond as [Hne Hnoise].
    exists raw. split; [by apply list_elem_of_In|]. split; [done|].
    split; [by apply bytes_truthy_nonempty|]. split.
    + apply strip_by_stripped.
    + by apply negb_true_iff.
  - intros (raw & Hin & -> & Hne & _ & Hnoise). exists raw. split; [done|].
    apply list_elem_of_In, filter_In. split; [by apply list_elem_of_In|].
    apply andb_true_iff. split; [by apply bytes_truthy_nonempty|].
    by apply negb_true_iff.
Qed.

Lemma filter_valid_ais_lines_clean lines :
  Forall clean_line lines -> filter_valid_ais_lines lines = lines.
Proof.
  induction 1 as [|line lines Hline _ IH]; [done|].
  destruct (clean_line_kept line Hline) as [Hid Hcond].
  unfold filter_valid_ais_lines in *. simpl. rewrite Hcond. simpl.
  by rewrite Hid, IH.
Qed.

(** The filter returns exactly the stripped forms of the input lines that
    are clean once stripped: not empty, no white space at either end, not
    the noise sentence. *)
Theorem filter_valid_ais_lines_keeps_clean_lines lines line :
  line ∈ filter_valid_ais_lines lines <->
  exists raw, raw ∈ lines /\ line = bytes_strip raw /\ clean_line line.
Proof. apply filter_valid_ais_lines_elem. Qed.

(** Filtering twice is filtering once, and the filter never returns more
    lines than it was given. *)
Theorem filter_valid_ais_lines_idempotent lines :
  filter_valid_ais_lines (filter_valid_ais_lines lines)
  = filter_valid_ais_lines lines /\
  length (filter_valid_ais_lines lines) <= length lines.
Proof.
  split.
  - apply filter_valid_ais_lines_clean. apply Forall_forall.
    intros line Hin.
    apply filter_valid_ais_lines_elem in Hin as (raw & _ & _ & Hclean).
    done.
  - unfold filter_valid_ais_lines. rewrite length_map.
    apply filter_length_le.
Qed.

(** A reading of one upstream chunk: a sentence with its line end, a blank
    line, the noise sentence and a padded sentence. *)
Example filter_valid_ais_lines_example :
  filter_valid_ais_lines
    [lit "!AIVDM,1,1,,B,15M67FC000G?ufbE`FepT@3n00Sa,0*5C" ++ [x0d];
     lit "  "; lit "$ABVSI,r3669961,1,013536.96326433,1386,-98,0*18";
     lit " !AIVDM,2,1,1,A,55?MbV02;H;s<HtKR20EHE:0,0*1C  "; []]
  = [lit "!AIVDM,1,1,,B,15M67FC000G?ufbE`FepT@3n00Sa,0*5C";
     lit "!AIVDM,2,1,1,A,55?MbV02;H;s<HtKR20EHE:0,0*1C"].
Proof. vm_compute. reflexivity. Qed.

End UpstreamFilter.

(** ** Reading one bounded line *)

Section BoundedLine.

Import Relay Spec.

Implicit Types (reader rest : list read_event) (buf line body : list byte).

Lemma is_newline_x0a (b : byte) : is_newline b = true -> b = x0a.
Proof.
  unfold is_newline. intros Hb%N.eqb_eq.
  assert (Byte.of_N (Byte.to_N b) = Byte.of_N (Byte.to_N x0a)) as Heq
    by (by rewrite Hb).
  rewrite !Byte.of_to_N in Heq. by injection Heq.
Qed.

Lemma read_line_loop_Ok reader (max_bytes : nat) buf line rest :
  read_line_loop reader max_bytes buf = (Ok line, rest) ->
  exists body,
    line = buf ++ body ++ [x0a] /\
    Forall (fun b => is_newline b = false) body /\
    length line <= max_bytes /\
    reader = map RData (body ++ [x0a]) ++ rest.
Proof.
  revert buf. induction reader as [|ev reader IH]; intros buf; [done|].
  destruct ev as [b| |]; simpl; [|done|done].
  destruct (Nat.ltb_spec max_bytes (length (buf ++ [b]))) as [|Hlen]; [done|].
  destruct (is_newline b) eqn:Hb.
  - intros [= <- <-]. apply is_newline_x0a in Hb as ->.
    exists []. by repeat split.
  - intros (body & -> & Hbody & Hmax & ->)%IH.
    exists (b :: body). rewrite <- !app_assoc. split; [done|].
    split; [by constructor|]. split; [|done].
    by rewrite <- !app_assoc in Hmax.
Qed.

Lemma read_line_limited_Ok reader (max_bytes : nat) line rest :
  read_line_limited reader max_bytes = (Ok line, rest) <->
  exists body,
    line = body ++ [x0a] /\
    Forall (fun b => is_newline b = false) body /\
    length line <= max_bytes /\
    reader = map RData line ++ rest.
Proof.
  unfold read_line_limited. split.
  - intros (body & -> & Hbody & Hlen & ->)%read_line_loop_Ok.
    by exists body.
  - intros (body & -> & Hbody & Hlen & ->).
    rewrite read_line_loop_line; [done|done|].
    rewrite length_app in Hlen. simpl in *. lia.
Qed.

Lemma read_line_loop_too_long reader (max_bytes : nat) buf rest :
  length buf <= max_bytes ->
  read_line_loop reader max_bytes buf = (Raise ValueError, rest) <->
  exists body b,
    reader = map RData (body ++ [b]) ++ rest /\
    Forall (fun b => is_newline b = false) body /\
    length buf + length body = max_bytes.
Proof.
  revert buf. induction reader as [|ev reader IH]; intros buf Hbuf.
  - split; [done|]. by intros ([|??] & ? & ? & _).
  - destruct ev as [b| |]; simpl.
    + rewrite length_app. simpl.
      destruct (Nat.ltb_spec max_bytes (length buf + 1)) as [Hlt|Hle].
      * split.
        -- intros [= <-]. exists [], b. split; [done|].
           split; [constructor | simpl; lia].
        -- intros ([|b' body] & b0 & Heq & _ & Hlen); simpl in *.
           ++ by injection Heq as -> ->.
           ++ lia.
      * destruct (is_newline b) eqn:Hb.
        -- split; [done|].
           intros ([|b' body] & b0 & Heq & Hbody & Hlen); simpl in *.
           ++ lia.
           ++ injection Heq as -> _. apply Forall_cons in Hbody as [Hb' _].
              congruence.
        -- rewrite IH by (rewrite length_app; simpl; lia). split.
           ++ intros (body & b0 & -> & Hbody & Hlen).
              exists (b :: body), b0. split; [done|].
              split; [by constructor|].
              rewrite length_app in Hlen. simpl in *. lia.
           ++ intros ([|b' body] & b0 & Heq & Hbody & Hlen); simpl in *.
              ** lia.
              ** injection Heq as -> ->.
                 apply Forall_cons in Hbody as [_ Hbody].
                 exists body, b0. split; [done|]. split; [done|].
                 rewrite length_app. simpl. lia.
    + split; [done|]. by intros ([|??] & ? & ? & _).
    + split; [done|]. by intros ([|??] & ? & ? & _).
Qed.

(** A line is returned exactly when the peer sent it whole within the
    bound: bytes without a newline, then the newline, at most [max_bytes]
    bytes in all; the reader is left right behind that newline. The line
    is refused as too long exactly when [max_bytes] bytes without a
    newline are followed by one more byte, whatever that byte is; the
    reader is left right behind it. *)
Theorem read_line_limited_returns_whole_line reader (max_bytes : nat)
    line rest :
  (read_line_limited reader max_bytes = (Ok line, rest) <->
   exists body,
     line = body ++ [x0a] /\
     Forall (fun b => is_newline b = false) body /\
     length line <= max_bytes /\
     reader = map RData line ++ rest) /\
  (read_line_limited reader max_bytes = (Raise ValueError, rest) <->
   exists body b,
     reader = map RData (body ++ [b]) ++ rest /\
     Forall (fun b => is_newline b = false) body /\
     length body = max_bytes).
Proof.
  split; [apply read_line_limited_Ok|].
  unfold read_line_limited.
  rewrite read_line_loop_too_long by (simpl; lia). done.
Qed.

Lemma read_line_loop_consumes reader (max_bytes : nat) buf :
  length buf <= max_bytes ->
  exists consumed,
    reader = consumed ++ (read_line_loop reader max_bytes buf).2 /\
    length buf + length consumed <= max_bytes + 1.
Proof.
  revert buf. induction reader as [|ev reader IH]; intros buf Hbuf.
  - exists []. simpl. split; [done|lia].
  - destruct ev as [b| |]; simpl.
    + rewrite length_app. simpl.
      destruct (Nat.ltb_spec max_bytes (length buf + 1)) as [Hover|Hfit].
      * exists [RData b]. simpl. split; [done|lia].
      * destruct (is_newline b).
        -- exists [RData b]. simpl. split; [done|lia].
        -- destruct (IH (buf ++ [b])) as (consumed & Heq & Hlen).
           { rewrite length_app. simpl. lia. }
           exists (RData b :: consumed). simpl. split; [by f_equal|].
           rewrite length_app in Hlen. simpl in Hlen. lia.
    + exists [REof]. simpl. split; [done|lia].
    + exists [RTimeout]. simpl. split; [done|lia].
Qed.

(** Whatever the peer sends, one call takes at most [max_bytes + 1] events
    from the reader, and what it leaves is the rest of the script. *)
Theorem read_line_limited_reads_at_most reader (max_bytes : nat) :
  exists consumed,
    reader = consumed ++ (read_line_limited reader max_bytes).2 /\
    length consumed <= max_bytes + 1.
Proof.
  destruct (read_line_loop_consumes reader max_bytes []) as (c & Heq & Hlen).
  { simpl. lia. }
  exists c. split; [done|]. simpl in Hlen. lia.
Qed.

(** A line of [max_bytes + 1] bytes is refused even when its last byte is
    the newline: the bound is tested before the end of line. *)
Example read_line_limited_overflow_before_newline :
  read_line_limited (map RData (lit "abc" ++ [x0a])) 3
  = (Raise ValueError, []) /\
  read_line_limited (map RData (lit "ab" ++ [x0a]) ++ [REof]) 3
  = (Ok (lit "ab" ++ [x0a]), [REof]) /\
  read_line_limited (map RData (lit "ab") ++ [REof]) 3
  = (Raise ConnectionError, []).
Proof. repeat split; vm_compute; reflexivity. Qed.

End BoundedLine.

(** ** Who the TCP gate admits *)

Set Warnings "-clear-no-such-hyp".

Section TcpAdmission.

Import Relay Spec.

Implicit Types (cfg : AuthConfig) (username password : pystr)
  (reader rest : list read_event) (clients : gset nat).

Lemma verify_tcp_credentials_value cfg username password :
  verify_tcp_credentials cfg username password
  = if is_ascii username && is_ascii (tcp_username cfg)
       && is_ascii password && is_ascii (tcp_password cfg)
    then Ok (bool_decide (username = tcp_username cfg)
             && bool_decide (password = tcp_password cfg))
    else Raise TypeError.
Proof.
  unfold verify_tcp_credentials, compare_digest, pystr_eqb.
  by destruct (is_ascii username), (is_ascii (tcp_username cfg)),
    (is_ascii password), (is_ascii (tcp_password cfg)).
Qed.

Lemma verify_tcp_credentials_true cfg username password :
  verify_tcp_credentials cfg username password = Ok true <->
  (is_ascii username && is_ascii (tcp_username cfg)
   && is_ascii password && is_ascii (tcp_password cfg) = true) /\
  username = tcp_username cfg /\ password = tcp_password cfg.
Proof.
  rewrite verify_tcp_credentials_value.
  destruct (is_ascii username && is_ascii (tcp_username cfg)
            && is_ascii password && is_ascii (tcp_password cfg)).
  - split.
    + intros [= [Hu Hp]%andb_true_iff].
      apply bool_decide_eq_true in Hu, Hp. done.
    + intros (_ & -> & ->). by rewrite !bool_decide_eq_true_2.
  - split; [done | by intros [? _]].
Qed.

(** The credential check answers true exactly for the configured pair,
    false exactly for another pair, and raises [TypeError], nothing else,
    as soon as one of the four texts holds a character outside ASCII. *)
Theorem verify_tcp_credentials_outcomes cfg username password :
  let ascii :=
    is_ascii username && is_ascii (tcp_username cfg)
    && is_ascii password && is_ascii (tcp_password cfg) in
  (verify_tcp_credentials cfg username password = Ok true <->
   ascii = true /\ username = tcp_username cfg /\
   password = tcp_password cfg) /\
  (verify_tcp_credentials cfg username password = Ok false <->
   ascii = true /\
   (username, password) <> (tcp_username cfg, tcp_password cfg)) /\
  (forall e, verify_tcp_credentials cfg username password = Raise e <->
             ascii = false /\ e = TypeError).
Proof.
  intros ascii. rewrite verify_tcp_credentials_value. fold ascii.
  destruct ascii.
  - split; [|split; [|intros e]].
    + split.
      * intros [= [Hu Hp]%andb_true_iff].
        apply bool_decide_eq_true in Hu, Hp. done.
      * intros (_ & -> & ->). by rewrite !bool_decide_eq_true_2.
    + split.
      * intros [= Hno]. split; [done|]. intros [= Hu Hp].
        by rewrite !bool_decide_eq_true_2 in Hno.
      * intros [_ Hne]. f_equal. apply andb_false_iff.
        destruct (decide (username = tcp_username cfg)) as [Hu|Hu];
          [|left; by apply bool_decide_eq_false_2].
        right. apply bool_decide_eq_false_2. intros Hp. apply Hne.
        by rewrite Hu, Hp.
    + split; [done|]. by intros [? _].
  - split; [|split; [|intros e]].
    + split; [done|]. by intros [? _].
    + split; [done|]. by intros [? _].
    + split; [by intros [= <-] | by intros [_ ->]].
Qed.

Lemma gate_answer_true cfg reader :
  enable_tcp_auth cfg = true ->
  (answer (is_authenticated_tcp_client cfg reader) = Ok true <->
   exists username_line password_line rest,
     reader = map RData username_line ++ map RData password_line ++ rest /\
     whole_line 64 username_line /\ whole_line 256 password_line /\
     verify_tcp_credentials cfg
       (strip (decode_ignore username_line))
       (strip (decode_ignore password_line)) = Ok true).
Proof.
  intros Hen. unfold is_authenticated_tcp_client. rewrite Hen. cbn [negb].
  split.
  - destruct (read_line_limited reader 64) as [[l1|e1] r1] eqn:E1.
    2:{ by destruct e1. }
    destruct (read_line_limited r1 256) as [[l2|e2] r2] eqn:E2.
    2:{ by destruct e2. }
    apply read_line_limited_Ok in E1
      as (b1 & Hl1 & Hb1 & Hlen1 & ->).
    apply read_line_limited_Ok in E2
      as (b2 & Hl2 & Hb2 & Hlen2 & ->).
    destruct (verify_tcp_credentials cfg (strip (decode_ignore l1))
                (strip (decode_ignore l2))) as [[|]|e3] eqn:Ev; [|done|done].
    intros _. exists l1, l2, r2. split; [done|].
    split; [by exists b1|]. split; [by exists b2|]. done.
  - intros (l1 & l2 & rest & -> & (b1 & Hl1 & Hb1 & Hlen1)
            & (b2 & Hl2 & Hb2 & Hlen2) & Hv).
    assert (read_line_limited (map RData l1 ++ map RData l2 ++ rest) 64
            = (Ok l1, map RData l2 ++ rest)) as ->.
    { apply read_line_limited_Ok. by exists b1. }
    assert (read_line_limited (map RData l2 ++ rest) 256 = (Ok l2, rest))
      as ->.
    { apply read_line_limited_Ok. by exists b2. }
    by rewrite Hv.
Qed.

Lemma handle_ops_answer cfg (writer : nat) reader clients :
  Add writer ∈ ops (handle_tcp_client cfg writer reader clients) <->
  answer (is_authenticated_tcp_client cfg reader) = Ok true.
Proof.
  unfold handle_tcp_client.
  destruct (answer (is_authenticated_tcp_client cfg reader)) as [[|]|e].
  - split; [done|]. intros _.
    destruct (existsb is_eof (unread (is_authenticated_tcp_client cfg reader)));
      apply list_elem_of_here.
  - split; [by intros []%elem_of_nil | done].
  - split; [by intros []%elem_of_nil | done].
Qed.

(** With the gate switched on, a connection is added to the registry if
    and only if the client sent two whole lines, of at most 64 and 256
    bytes, whose decoded and stripped texts are the configured username
    and password, all of them ASCII. *)
Theorem tcp_gate_admits_iff cfg (writer : nat) reader clients :
  enable_tcp_auth cfg = true ->
  (Add writer ∈ ops (handle_tcp_client cfg writer reader clients) <->
   exists username_line password_line rest,
     reader = map RData username_line ++ map RData password_line ++ rest /\
     whole_line 64 username_line /\ whole_line 256 password_line /\
     is_ascii (tcp_username cfg) = true /\
     is_ascii (tcp_password cfg) = true /\
     strip (decode_ignore username_line) = tcp_username cfg /\
     strip (decode_ignore password_line) = tcp_password cfg).
Proof.
  intros Hen. rewrite handle_ops_answer, (gate_answer_true _ _ Hen).
  split.
  - intros (l1 & l2 & rest & Hr & Hw1 & Hw2 & Hv).
    apply verify_tcp_credentials_true in Hv as (Hascii & Hu & Hp).
    apply andb_true_iff in Hascii as [Hascii Ha4].
    apply andb_true_iff in Hascii as [Hascii Ha3].
    apply andb_true_iff in Hascii as [Ha1 Ha2].
    exists l1, l2, rest. by repeat split.
  - intros (l1 & l2 & rest & Hr & Hw1 & Hw2 & Ha2 & Ha4 & Hu & Hp).
    exists l1, l2, rest. split; [done|]. split; [done|]. split; [done|].
    apply verify_tcp_credentials_true. rewrite Hu, Hp, Ha2, Ha4.
    by repeat split.
Qed.

(** The handler of one connection never changes the registration of
    another: every other writer is in the registry afterwards exactly when
    it was before; and its own writer, not registered before, is in it
    exactly while an admitted peer has not closed. *)
Theorem handle_tcp_client_touches_only_its_writer
    cfg (writer other : nat) reader clients :
  let run := handle_tcp_client cfg writer reader clients in
  (other <> writer -> (other ∈ tcp_clients run <-> other ∈ clients)) /\
  (writer ∉ clients ->
   (writer ∈ tcp_clients run <->
    answer (is_authenticated_tcp_client cfg reader) = Ok true /\
    existsb is_eof (unread (is_authenticated_tcp_client cfg reader))
    = false)).
Proof.
  intros run. subst run. unfold handle_tcp_client.
  destruct (answer (is_authenticated_tcp_client cfg reader)) as [[|]|e];
    [destruct (existsb is_eof
                 (unread (is_authenticated_tcp_client cfg reader)))|..];
    cbn [tcp_clients]; split; intros Hne; set_solver.
Qed.

End TcpAdmission.

Section TcpAdmissionCases.

Import Relay Spec Samples.

(** The test client of the repository is admitted; its lines could also
    end in CR LF. *)
Lemma tcp_gate_admits_iff_witness :
  Add 7%nat ∈ ops (handle_tcp_client default_auth 7
                     (map RData (lit "admin" ++ [x0d; x0a])
                      ++ map RData (lit "1234" ++ [x0d; x0a]) ++ []) ∅).
Proof.
  apply (tcp_gate_admits_iff default_auth 7%nat _ ∅ eq_refl).
  exists (lit "admin" ++ [x0d; x0a]), (lit "1234" ++ [x0d; x0a]), [].
  split; [reflexivity|].
  split; [exists (lit "admin" ++ [x0d]); split; [reflexivity|];
          split; [repeat constructor | simpl; lia]|].
  split; [exists (lit "1234" ++ [x0d]); split; [reflexivity|];
          split; [repeat constructor | simpl; lia]|].
  repeat split; vm_compute; reflexivity.
Defined.

Lemma handle_tcp_client_touches_only_its_writer_witness :
  3%nat ∈ tcp_clients (handle_tcp_client default_auth 7
                         (line (cps "admin") ++ line (cps "1234"))
                         {[3%nat]}).
Proof.
  apply (proj1 (handle_tcp_client_touches_only_its_writer default_auth
                  7%nat 3%nat (line (cps "admin") ++ line (cps "1234"))
                  {[3%nat]})).
  - discriminate.
  - apply elem_of_singleton. reflexivity.
Defined.

End TcpAdmissionCases.

(** ** Pruning the registries *)

Section Pruning.

Import Fanout Spec.

Variable send_json : nat -> gmap string value -> option exn.
Variable message : gmap string value.

Implicit Types (ws : nat) (bounds : option GeographicBounds) (acc : fanout).

Lemma foldl_delete_lookup {X : Type} (l : list nat) (m : gmap nat X) ws :
  foldl (fun clients w => delete w clients) m l !! ws
  = if bool_decide (ws ∈ l) then None else m !! ws.
Proof.
  revert m. induction l as [|w l IH]; intros m.
  - by rewrite bool_decide_eq_false_2 by apply not_elem_of_nil.
  - cbn [foldl]. rewrite IH.
    destruct (decide (ws ∈ l)) as [Hin|Hin].
    + rewrite !bool_decide_eq_true_2; [done| |done].
      by apply list_elem_of_further.
    + rewrite (bool_decide_eq_false_2 (ws ∈ l)) by done.
      destruct (decide (ws = w)) as [->|Hne].
      * rewrite bool_decide_eq_true_2 by apply list_elem_of_here.
        apply lookup_delete_eq.
      * rewrite bool_decide_eq_false_2, lookup_delete_ne; [done|done|].
        rewrite elem_of_cons. tauto.
Qed.

Lemma broadcast_step_dead acc ws bounds :
  dead (broadcast_step send_json message acc (ws, bounds))
  = dead acc
    ++ match deliver send_json message ws bounds with
       | Dead _ => [ws]
       | _ => []
       end.
Proof.
  unfold broadcast_step, deliver.
  destruct (passes_filter bounds message) as [[|]|];
    [|by rewrite app_nil_r|done].
  destruct (send_json ws message); [done | by rewrite app_nil_r].
Qed.

Lemma broadcast_fold_dead (l : list (nat * option GeographicBounds)) acc ws :
  ws ∈ dead (foldl (broadcast_step send_json message) acc l) <->
  ws ∈ dead acc \/
  exists bounds e, (ws, bounds) ∈ l /\
                   deliver send_json message ws bounds = Dead e.
Proof.
  revert acc. induction l as [|[ws' bounds'] l IH]; intros acc.
  - simpl. split; [by left|]. intros [|(? & ? & []%elem_of_nil & _)]; done.
  - cbn [foldl]. rewrite IH, broadcast_step_dead, elem_of_app. split.
    + intros [[Hacc|Hnew]|(bounds & e & Hin & Hd)].
      * by left.
      * right. exists bounds'.
        destruct (deliver send_json message ws' bounds') as [| |e] eqn:Ed;
          try by apply elem_of_nil in Hnew.
        apply list_elem_of_singleton in Hnew as ->. exists e.
        split; [apply list_elem_of_here | done].
      * right. exists bounds, e.
        split; [by apply list_elem_of_further | done].
    + intros [Hacc|(bounds & e & Hin & Hd)]; [by left; left|].
      apply elem_of_cons in Hin as [[= -> ->]|Hin].
      * left. right. rewrite Hd. apply list_elem_of_here.
      * right. by exists bounds, e.
Qed.

(** After a broadcast that no other task disturbs, a socket is gone from
    the registry exactly when its round raised, in the filter or in the
    send; every other socket is still registered with the filter it had,
    and no socket appears that was not registered. *)
Lemma broadcast_ws_undisturbed_prunes
    (ws_clients : gmap nat (option GeographicBounds)) ws :
  (broadcast_ws_undisturbed send_json message ws_clients).2 !! ws
  = match ws_clients !! ws with
    | Some bounds =>
        match deliver send_json message ws bounds with
        | Dead _ => None
        | _ => Some bounds
        end
    | None => None
    end.
Proof.
  unfold broadcast_ws_undisturbed. cbn [snd]. rewrite foldl_delete_lookup.
  destruct (ws_clients !! ws) as [bounds|] eqn:Ews.
  - destruct (deliver send_json message ws bounds) as [| |e] eqn:Ed.
    + rewrite bool_decide_eq_false_2; [done|].
      rewrite broadcast_fold_dead.
      intros [[]%elem_of_nil|(bounds' & e & Hin%elem_of_map_to_list & Hd)].
      congruence.
    + rewrite bool_decide_eq_false_2; [done|].
      rewrite broadcast_fold_dead.
      intros [[]%elem_of_nil|(bounds' & e & Hin%elem_of_map_to_list & Hd)].
      congruence.
    + rewrite bool_decide_eq_true_2; [done|].
      rewrite broadcast_fold_dead. right. exists bounds, e.
      split; [by apply elem_of_map_to_list | done].
  - by destruct (bool_decide _).
Qed.

End Pruning.

Section PruningCases.

Import Fanout Spec Samples.

(** Socket 2 fails on send: it is pruned, the others are served and stay,
    one with its filter. *)
Example broadcast_ws_prunes_example :
  let send := fun ws (_ : gmap string value) =>
                if Nat.eqb ws 2 then Some ConnectionError else None in
  (broadcast_ws_undisturbed send (report_at 57.0 19.0) three_clients).1
  = {| sent := [3; 1]%nat; called := [2; 3; 1]%nat; dead := [2%nat] |} /\
  (broadcast_ws_undisturbed send (report_at 57.0 19.0) three_clients).2
  = <[1%nat := None]> (<[3%nat := Some bounds_56_58_18_21]> ∅).
Proof. vm_compute. split; reflexivity. Qed.

End PruningCases.

(** ** The structured broadcast among the other tasks *)

Section AmongOtherTasks.

Import Fanout Spec.

Variable send_json : nat -> gmap string value -> option exn.
Variable others : nat -> gmap nat (option GeographicBounds)
                  -> gmap nat (option GeographicBounds).
Variable message : gmap string value.

Implicit Types (ws : nat) (bounds : option GeographicBounds) (acc : fanout)
  (clients ws_clients : gmap nat (option GeographicBounds)).

(** While the other tasks leave the registry alone, the first loop is the
    fold over the registry and comes to its end. *)
Lemma first_loop_undisturbed clients
    (l : list (nat * option GeographicBounds)) acc :
  (forall ws, others ws clients = clients) ->
  (forall ws bounds, (ws, bounds) ∈ l -> clients !! ws = Some bounds) ->
  first_loop send_json others message (size clients) (dom clients)
    (map fst l) acc clients
  = (foldl (broadcast_step send_json message) acc l, clients, Exhausted).
Proof.
  intros Hothers. revert acc.
  induction l as [|[ws bounds] l IH]; intros acc Hl.
  - cbn [map first_loop foldl].
    rewrite Nat.eqb_refl, bool_decide_eq_true_2 by done. done.
  - cbn [map fst first_loop foldl].
    rewrite Nat.eqb_refl, bool_decide_eq_true_2 by done. cbn [negb].
    rewrite (Hl ws bounds) by apply list_elem_of_here.
    assert (match passes_filter bounds message with
            | Ok true => others ws clients
            | _ => clients
            end = clients) as ->.
    { rewrite Hothers. by destruct (passes_filter bounds message) as [[|]|]. }
    apply IH. intros ws' bounds' Hin. apply Hl. by apply list_elem_of_further.
Qed.

Lemma broadcast_ws_undisturbed_eq ws_clients :
  (forall ws, others ws ws_clients = ws_clients) ->
  broadcast_ws send_json others message ws_clients
  = ((broadcast_ws_undisturbed send_json message ws_clients).1,
     (broadcast_ws_undisturbed send_json message ws_clients).2, Exhausted).
Proof.
  intros Hothers. unfold broadcast_ws.
  rewrite first_loop_undisturbed; [done|done|].
  intros ws bounds Hin. by apply elem_of_map_to_list.
Qed.

(** The [for] statement raises only on a registry of another size than
    the one the iteration began with. *)
Lemma first_loop_RuntimeError (used : nat) (keys : gset nat)
    (pending : list nat) acc clients :
  (first_loop send_json others message used keys pending acc clients).2
  = RuntimeError ->
  size (first_loop send_json others message used keys pending acc clients).1.2
  <> used.
Proof.
  revert acc clients. induction pending as [|ws rest IH]; intros acc clients.
  - cbn [first_loop].
    destruct (Nat.eqb_spec (size clients) used) as [Heq|Hne]; cbn [negb];
      [|done].
    by destruct (bool_decide (dom clients = keys)).
  - cbn [first_loop].
    destruct (Nat.eqb_spec (size clients) used) as [Heq|Hne]; cbn [negb];
      [|done].
    destruct (bool_decide (dom clients = keys)); cbn [negb]; [|done].
    destruct (clients !! ws) as [bounds|]; [|done]. apply IH.
Qed.

(** Once the other tasks change the size of the registry during every
    send, the first loop makes one call at most. *)
Lemma first_loop_one_call (used : nat) (keys : gset nat)
    (pending : list nat) acc clients :
  (forall ws r, size (others ws r) <> size r) ->
  size clients = used ->
  length (called (first_loop send_json others message used keys pending acc
                    clients).1.1)
  <= length (called acc) + 1.
Proof.
  intros Hothers. revert acc clients.
  induction pending as [|ws rest IH]; intros acc clients Hsize.
  - cbn [first_loop].
    destruct (negb (size clients =? used)); [simpl; lia|].
    destruct (negb (bool_decide (dom clients = keys))); simpl; lia.
  - cbn [first_loop].
    destruct (negb (size clients =? used)); [simpl; lia|].
    destruct (negb (bool_decide (dom clients = keys))); [simpl; lia|].
    destruct (clients !! ws) as [bounds|]; [|simpl; lia].
    pose proof (broadcast_step_called send_json message acc ws bounds)
      as Hcalled.
    destruct (passes_filter bounds message) as [[|]|] eqn:Hp.
    + (* the send is awaited: the next request for an item raises *)
      assert ((size (others ws clients) =? used) = false) as Hno.
      { apply Nat.eqb_neq. rewrite <- Hsize. apply Hothers. }
      destruct rest as [|ws' rest']; cbn [first_loop]; rewrite Hno;
        cbn [negb fst]; rewrite Hcalled, length_app; simpl; lia.
    + etrans; [apply IH; done|]. rewrite Hcalled, app_nil_r. lia.
    + etrans; [apply IH; done|]. rewrite Hcalled, app_nil_r. lia.
Qed.

(** In a structured broadcast during which the other tasks leave the
    registry as it is, the first loop comes to its end and, for every
    registered subscriber: [send_json] is called for it when its filter is
    unset; when its filter is set to bounds, [send_json] is called for it
    if and only if the report carries coordinates [(lat, lon)] with
    [min_lat <= lat <= max_lat] and [min_lon <= lon <= max_lon]; a report
    without a location is never sent to a subscriber with a set filter;
    and the report arrives whenever the call is made and the transport
    does not fail. *)
Theorem broadcast_ws_delivery ws_clients ws bounds :
  (forall ws', others ws' ws_clients = ws_clients) ->
  ws_clients !! ws = Some bounds ->
  let run := (broadcast_ws send_json others message ws_clients).1.1 in
  (broadcast_ws send_json others message ws_clients).2 = Exhausted /\
  (bounds = None -> ws ∈ called run) /\
  (forall b, bounds = Some b ->
     (ws ∈ called run <->
      exists lat lon,
        carries_coordinates message lat lon /\ in_bounds b lat lon = true)) /\
  (forall b, bounds = Some b -> message !! "location" = None ->
     ws ∉ called run) /\
  (ws ∈ sent run <-> ws ∈ called run /\ send_json ws message = None).
Proof.
  intros Hothers Hws. rewrite broadcast_ws_undisturbed_eq by done.
  cbn [fst snd]. split; [done|].
  by apply broadcast_ws_undisturbed_delivery.
Qed.

(** After a structured broadcast during which the other tasks leave
    the registry as it is, a socket is gone from the registry exactly when
    its round raised, in the filter or in the send; every other socket is
    still registered with the filter it had, and no socket appears that
    was not registered. When instead the [for] statement raises
    [RuntimeError], no dead socket was popped and the registry has another
    size than at the start. *)
Theorem broadcast_ws_prunes_failed_sockets ws_clients ws :
  ((forall ws', others ws' ws_clients = ws_clients) ->
   (broadcast_ws send_json others message ws_clients).2 = Exhausted /\
   (broadcast_ws send_json others message ws_clients).1.2 !! ws
   = match ws_clients !! ws with
     | Some bounds =>
         match deliver send_json message ws bounds with
         | Dead _ => None
         | _ => Some bounds
         end
     | None => None
     end) /\
  ((broadcast_ws send_json others message ws_clients).2 = RuntimeError ->
   size (broadcast_ws send_json others message ws_clients).1.2
   <> size ws_clients).
Proof.
  split.
  - intros Hothers. rewrite broadcast_ws_undisturbed_eq by done.
    cbn [fst snd]. split; [done|].
    apply broadcast_ws_undisturbed_prunes.
  - unfold broadcast_ws.
    pose proof (first_loop_RuntimeError (size ws_clients) (dom ws_clients)
                  (map fst (map_to_list ws_clients))
                  {| sent := []; called := []; dead := [] |} ws_clients)
      as Hrt.
    destruct (first_loop _ _ _ _ _ _ _ _) as [[run clients] ended].
    cbn [fst snd] in Hrt. destruct ended; cbn [fst snd]; [done| |done].
    intros _. by apply Hrt.
Qed.

(** Whatever the registry and the report: once every awaited send lets
    the other tasks change the size of the registry (a client connects or
    disconnects), a broadcast calls [send_json] for one subscriber at
    most. *)
Lemma broadcast_ws_one_call ws_clients :
  (forall ws r, size (others ws r) <> size r) ->
  length (called (broadcast_ws send_json others message ws_clients).1.1) <= 1.
Proof.
  intros Hothers. unfold broadcast_ws.
  pose proof (first_loop_one_call (size ws_clients) (dom ws_clients)
                (map fst (map_to_list ws_clients))
                {| sent := []; called := []; dead := [] |} ws_clients
                Hothers eq_refl) as Hone.
  destruct (first_loop _ _ _ _ _ _ _ _) as [[run clients] ended].
  cbn [fst snd called length] in *. by destruct ended.
Qed.

End AmongOtherTasks.

Section AmongOtherTasksCases.

Import Fanout Spec Samples.

(** C3. Three subscribers are registered and a report at (57.0, 19.0)
    passes the filter of each. While the first send is awaited a fourth
    client is accepted: the [for] statement raises [RuntimeError], the
    broadcast ends after one send, and the two other subscribers, the one
    without a filter among them, do not receive the report. *)
Theorem broadcast_ws_interrupted_by_connect :
  broadcast_ws send_ok connects_4 (report_at 57.0 19.0) three_clients
  = ({| sent := [2%nat]; called := [2%nat]; dead := [] |},
     <[4%nat := None]> three_clients, RuntimeError) /\
  (broadcast_ws send_ok stays (report_at 57.0 19.0) three_clients).1.1
  = {| sent := [2; 3; 1]%nat; called := [2; 3; 1]%nat; dead := [] |}.
Proof. split; vm_compute; reflexivity. Qed.

Lemma broadcast_ws_delivery_witness :
  (broadcast_ws send_ok stays (report_at 60.0 19.0) three_clients).2
  = Exhausted /\
  1%nat ∈ called (broadcast_ws send_ok stays (report_at 60.0 19.0)
                    three_clients).1.1.
Proof.
  assert (forall ws', stays ws' three_clients = three_clients) as Hothers
    by reflexivity.
  assert (three_clients !! 1%nat = Some None) as Hws
    by (vm_compute; reflexivity).
  split.
  - exact (proj1 (broadcast_ws_delivery send_ok stays (report_at 60.0 19.0)
                    three_clients 1%nat None Hothers Hws)).
  - exact (proj1 (proj2 (broadcast_ws_delivery send_ok stays
                           (report_at 60.0 19.0) three_clients 1%nat None
                           Hothers Hws)) eq_refl).
Defined.

Lemma broadcast_ws_prunes_failed_sockets_witness :
  (broadcast_ws send_ok stays (report_at 57.0 19.0) three_clients).2
  = Exhausted /\
  (broadcast_ws send_ok stays (report_at 57.0 19.0) three_clients).1.2
    !! 2%nat
  = match three_clients !! 2%nat with
    | Some bounds =>
        match deliver send_ok (report_at 57.0 19.0) 2%nat bounds with
        | Dead _ => None
        | _ => Some bounds
        end
    | None => None
    end.
Proof.
  apply (proj1 (broadcast_ws_prunes_failed_sockets send_ok stays
                  (report_at 57.0 19.0) three_clients 2%nat)).
  reflexivity.
Defined.

End AmongOtherTasksCases.

(** ** The raw relay *)

Section RawRelay.

Import Relay Spec.

Variable write : nat -> list byte -> option exn.

Implicit Types (clients : gset nat) (served dead closed : list nat).

Lemma raw_fold d (l : list nat) served dead :
  foldl (raw_step write d) (served, dead) l
  = (served ++ List.filter (drained write d) l,
     dead ++ List.filter (fun w => negb (drained write d w)) l).
Proof.
  revert served dead. induction l as [|w l IH]; intros served dead.
  - by rewrite !app_nil_r.
  - cbn [foldl List.filter]. unfold raw_step at 2, drained.
    destruct (write w d); cbn [negb]; rewrite IH; by rewrite <- ?app_assoc.
Qed.

Lemma remove_dead_Ok clients dead closed :
  NoDup dead -> (forall w, w ∈ dead -> w ∈ clients) ->
  remove_dead clients dead closed
  = Ok (clients ∖ list_to_set dead, closed ++ dead).
Proof.
  intros Hnd. revert clients closed.
  induction Hnd as [|w dead Hw Hnd IH]; intros clients closed Hsub.
  - simpl. rewrite app_nil_r. f_equal. f_equal. set_solver.
  - cbn [remove_dead]. unfold set_remove.
    rewrite bool_decide_eq_true_2 by (apply Hsub, list_elem_of_here).
    cbn [mbind result_bind]. rewrite IH.
    + rewrite <- app_assoc. f_equal. f_equal. set_solver.
    + intros w' Hw'. apply elem_of_difference. split.
      * by apply Hsub, list_elem_of_further.
      * intros ->%elem_of_singleton. done.
Qed.

Lemma filter_elements (f : nat -> bool) clients w :
  w ∈ List.filter f (elements clients) <-> w ∈ clients /\ f w = true.
Proof.
  rewrite list_elem_of_In, filter_In, <- list_elem_of_In, elem_of_elements.
  done.
Qed.

Lemma NoDup_List_filter (f : nat -> bool) (l : list nat) :
  NoDup l -> NoDup (List.filter f l).
Proof.
  induction 1 as [|x l Hx Hl IH]; [constructor|].
  simpl. destruct (f x); [|done]. constructor; [|done].
  rewrite list_elem_of_In, filter_In, <- list_elem_of_In. tauto.
Qed.

Lemma broadcast_tcp_run message clients d :
  encode_utf8 (message ++ [13; 10]%N) = Ok d ->
  exists run,
    broadcast_tcp write message clients = Ok run /\
    data run = d /\
    NoDup (delivered run) /\
    (forall w, w ∈ delivered run <-> w ∈ clients /\ write w d = None) /\
    (forall w, w ∈ closed run <->
               w ∈ clients /\ exists e, write w d = Some e) /\
    (forall w, w ∈ remaining run <-> w ∈ clients /\ write w d = None).
Proof.
  intros Hd. unfold broadcast_tcp. rewrite Hd. cbn [mbind result_bind].
  rewrite raw_fold. cbn [app].
  rewrite remove_dead_Ok.
  - cbn [mbind result_bind app]. eexists. split; [done|].
    cbn [data delivered closed remaining]. split; [done|].
    split; [apply NoDup_List_filter, NoDup_elements|].
    split; [|split]; intros w.
    + rewrite filter_elements. unfold drained.
      destruct (write w d); naive_solver.
    + rewrite filter_elements. unfold drained.
      destruct (write w d); naive_solver.
    + rewrite elem_of_difference, elem_of_list_to_set, filter_elements.
      unfold drained. destruct (write w d); naive_solver.
  - apply NoDup_List_filter, NoDup_elements.
  - by intros w [Hw _]%filter_elements.
Qed.

(** *** What decoding leaves can be encoded *)

Lemma encodable_ascii c : (c < 128)%N -> encodable c.
Proof.
  intros Hc. unfold encodable, utf8_of_cp. apply N.ltb_lt in Hc.
  by rewrite Hc.
Qed.

Lemma encodable_below c :
  (c < 55296)%N \/ (57344 <= c < 1114112)%N -> encodable c.
Proof.
  intros Hc. unfold encodable, utf8_of_cp.
  destruct (N.ltb_spec c 128); [done|].
  destruct (N.ltb_spec c 2048); [done|].
  destruct (N.leb_spec 55296 c), (N.ltb_spec c 57344); cbn [andb];
    try lia;
    destruct (N.ltb_spec c 65536); try done;
    destruct (N.ltb_spec c 1114112); try done; lia.
Qed.

Lemma lead_len_range b0 :
  match lead_len b0 with
  | 1 => (b0 < 128)%N
  | 2 => (194 <= b0 < 224)%N
  | 3 => (224 <= b0 < 240)%N
  | 4 => (240 <= b0 < 245)%N
  | _ => True
  end.
Proof.
  unfold lead_len.
  destruct (N.ltb_spec b0 128); [done|].
  destruct (N.ltb_spec b0 194); [done|].
  destruct (N.ltb_spec b0 224); [lia|].
  destruct (N.ltb_spec b0 240); [lia|].
  destruct (N.ltb_spec b0 245); [lia|done].
Qed.

Lemma is_cont_range b : is_cont b = true -> (128 <= b < 192)%N.
Proof.
  unfold is_cont. intros [H1%N.leb_le H2%N.ltb_lt]%andb_true_iff. lia.
Qed.

Lemma second_ok_range b0 b1 :
  second_ok b0 b1 = true ->
  (128 <= b1 < 192)%N /\
  (b0 = 224 -> 160 <= b1)%N /\ (b0 = 237 -> b1 < 160)%N /\
  (b0 = 240 -> 144 <= b1)%N /\ (b0 = 244 -> b1 < 144)%N.
Proof.
  unfold second_ok.
  destruct (N.eqb_spec b0 224) as [->|];
    [intros [H1%N.leb_le H2%N.ltb_lt]%andb_true_iff; lia|].
  destruct (N.eqb_spec b0 237) as [->|];
    [intros [H1%N.leb_le H2%N.ltb_lt]%andb_true_iff; lia|].
  destruct (N.eqb_spec b0 240) as [->|];
    [intros [H1%N.leb_le H2%N.ltb_lt]%andb_true_iff; lia|].
  destruct (N.eqb_spec b0 244) as [->|];
    [intros [H1%N.leb_le H2%N.ltb_lt]%andb_true_iff; lia|].
  intros ?%is_cont_range. lia.
Qed.

Lemma encodable_2 b0 b1 :
  lead_len b0 = 2 -> second_ok b0 b1 = true ->
  encodable ((b0 - 192) * 64 + (b1 - 128)).
Proof.
  intros H0 H1%second_ok_range. pose proof (lead_len_range b0) as Hr.
  rewrite H0 in Hr. apply encodable_below. lia.
Qed.

Lemma encodable_3 b0 b1 b2 :
  lead_len b0 = 3 -> second_ok b0 b1 = true -> is_cont b2 = true ->
  encodable ((b0 - 224) * 4096 + (b1 - 128) * 64 + (b2 - 128)).
Proof.
  intros H0 H1%second_ok_range H2%is_cont_range.
  pose proof (lead_len_range b0) as Hr. rewrite H0 in Hr.
  apply encodable_below.
  destruct (N.lt_total b0 237) as [?|[?|?]]; lia.
Qed.

Lemma encodable_4 b0 b1 b2 b3 :
  lead_len b0 = 4 -> second_ok b0 b1 = true -> is_cont b2 = true ->
  is_cont b3 = true ->
  encodable ((b0 - 240) * 262144 + (b1 - 128) * 4096
             + (b2 - 128) * 64 + (b3 - 128)).
Proof.
  intros H0 H1%second_ok_range H2%is_cont_range H3%is_cont_range.
  pose proof (lead_len_range b0) as Hr. rewrite H0 in Hr.
  apply encodable_below.
  destruct (N.lt_total b0 244) as [?|[?|?]]; lia.
Qed.
Lemma decode_utf8_ignore_encodable_upto (n : nat) (bs : list N) :
  length bs <= n -> Forall encodable (decode_utf8_ignore bs).
Proof.
  revert bs. induction n as [|n IH]; intros bs Hn.
  - destruct bs; [constructor | simpl in Hn; lia].
  - destruct bs as [|b0 r0]; [constructor|]. simpl in Hn.
    cbn [decode_utf8_ignore].
    assert (Forall encodable (decode_utf8_ignore r0)) as Hr0
      by (apply IH; lia).
    destruct (lead_len b0) as [|[|[|[|[|k]]]]] eqn:Hlead.
    + by destruct r0.
    + assert (encodable b0) as Hb0.
      { unfold lead_len in Hlead. apply encodable_ascii.
        destruct (N.ltb_spec b0 128); [done|].
        by repeat destruct (_ <? _)%N. }
      destruct r0; by constructor.
    + destruct r0 as [|b1 r1]; [done|].
      destruct (second_ok b0 b1) eqn:H1; [|done].
      constructor; [by apply encodable_2|]. apply IH. simpl in Hn. lia.
    + destruct r0 as [|b1 [|b2 r2]]; try done.
      destruct (second_ok b0 b1) eqn:H1; [|done].
      destruct (is_cont b2) eqn:H2; [|done]. cbn [andb].
      constructor; [by apply encodable_3|]. apply IH. simpl in Hn. lia.
    + destruct r0 as [|b1 [|b2 [|b3 r3]]]; try done.
      destruct (second_ok b0 b1) eqn:H1; [|done].
      destruct (is_cont b2) eqn:H2; [|done].
      destruct (is_cont b3) eqn:H3; [|done]. cbn [andb].
      constructor; [by apply encodable_4|]. apply IH. simpl in Hn. lia.
    + by destruct r0 as [|b1 [|b2 [|b3 r3]]].
Qed.

Lemma Forall_lstrip (P : N -> Prop) s : Forall P s -> Forall P (lstrip s).
Proof.
  induction 1 as [|c s Hc Hs IH]; [done|].
  simpl. destruct (is_space c); [done | by constructor].
Qed.

Lemma Forall_strip (P : N -> Prop) s : Forall P s -> Forall P (strip s).
Proof.
  intros Hs. unfold strip.
  apply Forall_rev, Forall_lstrip, Forall_rev, Forall_lstrip, Hs.
Qed.

Lemma encode_utf8_encodable s :
  Forall encodable s -> exists d, encode_utf8 s = Ok d.
Proof.
  induction 1 as [|c s Hc _ [d IH]]; [by exists []|].
  simpl. unfold encodable in Hc.
  destruct (utf8_of_cp c) as [bs|]; [|done].
  rewrite IH. by eexists.
Qed.

(** A broadcast of an encodable message serves or closes every registered
    writer, each once: the writers whose write and drain return get the
    message and CRLF and stay registered, the writers whose write or drain
    raises are closed and removed, and no other writer is touched. *)
Theorem broadcast_tcp_serves_or_removes message clients d :
  encode_utf8 (message ++ [13; 10]%N) = Ok d ->
  exists run,
    broadcast_tcp write message clients = Ok run /\
    data run = d /\
    NoDup (delivered run) /\
    (forall w, w ∈ delivered run <-> w ∈ clients /\ write w d = None) /\
    (forall w, w ∈ closed run <->
               w ∈ clients /\ exists e, write w d = Some e) /\
    (forall w, w ∈ remaining run <-> w ∈ clients /\ write w d = None).
Proof. apply broadcast_tcp_run. Qed.

(** In a relay during which no other task changes the registry, the raw
    relay of an upstream line raises nothing, whatever bytes the line
    holds and whatever the writers do: what decoding with errors ignored
    leaves can always be encoded again, and what a writer raises is
    caught. Nothing is broadcast exactly when the decoded line is blank;
    otherwise the registry keeps only writers it had. *)
Theorem relay_raw_line_never_raises (line : list byte) clients :
  exists r,
    relay_raw_line write line clients = Ok r /\
    (r = None <-> strip (decode_ignore line) = []) /\
    (forall run w, r = Some run -> w ∈ remaining run -> w ∈ clients).
Proof.
  unfold relay_raw_line.
  assert (Forall encodable (strip (decode_ignore line))) as Henc.
  { apply Forall_strip. unfold decode_ignore.
    by eapply decode_utf8_ignore_encodable_upto. }
  destruct (strip (decode_ignore line)) as [|c s] eqn:Es.
  - exists None. split; [done|]. split; [done|]. by intros ? ? [=].
  - destruct (encode_utf8_encodable ((c :: s) ++ [13; 10]%N)) as [d Hd].
    { apply Forall_app. split; [done|].
      repeat constructor; by apply encodable_ascii. }
    destruct (broadcast_tcp_run (c :: s) clients d Hd)
      as (run & Hrun & _ & _ & _ & _ & Hrem).
    exists (Some run). rewrite Hrun. split; [done|]. split; [done|].
    intros run' w [= <-] Hw. by apply Hrem in Hw as [? _].
Qed.

(** An upstream line of ASCII text that is not blank is relayed as that
    text without the white space at its ends, followed by CRLF; in a
    relay during which no other task changes the registry it goes to
    exactly the registered writers whose write and drain return. *)
Theorem relay_raw_line_forwards_stripped_text (t : pystr) clients :
  is_ascii t = true -> strip t <> [] ->
  exists run,
    relay_raw_line write (map byte_of t) clients = Ok (Some run) /\
    data run = map byte_of (strip t) ++ [x0d; x0a] /\
    (forall w, w ∈ delivered run <->
               w ∈ clients /\ write w (data run) = None).
Proof.
  intros Ht Hne. unfold relay_raw_line, decode_ignore.
  rewrite (to_N_bytes_of_ascii _ Ht).
  rewrite decode_utf8_ignore_ascii by (by apply is_ascii_forall).
  destruct (strip t) as [|c s] eqn:Es; [done|].
  assert (encode_utf8 ((c :: s) ++ [13; 10]%N)
          = Ok (map byte_of (c :: s) ++ [x0d; x0a])) as Hd.
  { rewrite encode_utf8_ascii.
    - by rewrite map_app.
    - unfold is_ascii. rewrite forallb_app. apply andb_true_iff.
      split; [|done]. rewrite <- Es. by apply is_ascii_strip. }
  destruct (broadcast_tcp_run (c :: s) clients _ Hd)
    as (run & Hrun & Hdata & _ & Hdel & _ & _).
  exists run. rewrite Hrun. split; [done|]. split; [done|].
  by rewrite Hdata.
Qed.

End RawRelay.

Section RawRelayCases.

Import Relay Spec Samples.

Lemma broadcast_tcp_serves_or_removes_witness :
  exists run,
    broadcast_tcp write_fails_on_2 sentence two_writers = Ok run /\
    data run = map byte_of sentence ++ [x0d; x0a] /\
    NoDup (delivered run) /\
    (forall w, w ∈ delivered run <->
       w ∈ two_writers /\
       write_fails_on_2 w (map byte_of sentence ++ [x0d; x0a]) = None) /\
    (forall w, w ∈ closed run <->
       w ∈ two_writers /\
       exists e,
         write_fails_on_2 w (map byte_of sentence ++ [x0d; x0a]) = Some e) /\
    (forall w, w ∈ remaining run <->
       w ∈ two_writers /\
       write_fails_on_2 w (map byte_of sentence ++ [x0d; x0a]) = None).
Proof.
  apply (broadcast_tcp_serves_or_removes write_fails_on_2 sentence
           two_writers).
  vm_compute. reflexivity.
Defined.

Lemma relay_raw_line_forwards_stripped_text_witness :
  exists run,
    relay_raw_line write_fails_on_2
      (map byte_of (sentence ++ [13; 10]%N)) two_writers = Ok (Some run) /\
    data run = map byte_of (strip (sentence ++ [13; 10]%N)) ++ [x0d; x0a] /\
    (forall w, w ∈ delivered run <->
               w ∈ two_writers /\ write_fails_on_2 w (data run) = None).
Proof.
  apply (relay_raw_line_forwards_stripped_text write_fails_on_2
           (sentence ++ [13; 10]%N) two_writers).
  - vm_compute. reflexivity.
  - vm_compute. discriminate.
Defined.

(** The sentence goes out with CRLF to writer 1; writer 2, whose write
    fails, is closed and removed. *)
Example relay_raw_line_example :
  relay_raw_line write_fails_on_2
    (map byte_of (sentence ++ [13; 10]%N)) two_writers
  = Ok (Some {| data := map byte_of sentence ++ [x0d; x0a];
                delivered := [1%nat]; closed := [2%nat];
                remaining := {[1%nat]} |}).
Proof. vm_compute. reflexivity. Qed.

End RawRelayCases.

(** ** Upserts of the storage *)

Section Upsert.

Import Db Spec.

Variable env : sqlite_env.

Implicit Types (d : db) (m : value) (key : sqlval) (kw : vessel_fields)
  (fields : state_fields) (v : vessel).

Lemma bind_param_error (x : value) e :
  bind_param x = Raise e -> binding_error e.
Proof.
  unfold binding_error. destruct x as [| | | | | |? [z|]| |]; simpl; try done;
    try (intros [= <-]; tauto).
  - destruct (_ && _); [done|]. intros [= <-]. tauto.
  - destruct (encode_utf8 s) eqn:E; [done|]. simpl. intros [= <-].
    apply encode_utf8_error in E. tauto.
  - destruct (_ && _); [done|]. intros [= <-]. tauto.
Qed.

Lemma set_field_Ok (arg : value) (old old' : sqlval) x :
  set_field env arg old = Ok x ->
  exists y, bind_param arg = Ok y /\
            set_field env arg old'
            = Ok (match arg with VNone => old' | _ => text_affinity env y end).
Proof.
  unfold set_field. destruct arg; try (by intros _; eexists);
    destruct (bind_param _) as [y|]; try done; intros _; by exists y.
Qed.

Lemma set_field_Raise (arg : value) (old : sqlval) e :
  set_field env arg old = Raise e -> bind_param arg = Raise e.
Proof.
  unfold set_field. destruct arg; try done;
    by destruct (bind_param _).
Qed.

End Upsert.

(** ** Upserts of the storage: outcomes *)

Section UpsertOutcomes.

Import Db Spec.

Variable env : sqlite_env.

Implicit Types (d : db) (m : value) (key : sqlval) (kw : vessel_fields)
  (fields : state_fields) (v : vessel).

Lemma set_field_bindable (arg : value) (old : sqlval) :
  (exists x, set_field env arg old = Ok x) <-> bindable arg.
Proof.
  unfold bindable. split.
  - intros [x (y & Hy & _)%(set_field_Ok env _ _ old)]. by exists y.
  - intros [y Hy]. destruct (set_field env arg old) as [x|e] eqn:E;
      [by exists x|].
    apply set_field_Raise in E. congruence.
Qed.

Lemma update_vessel_outcome d m kw :
  ((update_vessel env d m kw).2 = None <->
   bindable m /\ bindable (f_imo kw) /\ bindable (f_ship_name kw)
   /\ bindable (f_ship_type kw)) /\
  (forall e, (update_vessel env d m kw).2 = Some e ->
             (update_vessel env d m kw).1 = d /\ binding_error e).
Proof.
  rewrite <- (set_field_bindable (f_imo kw) SNull),
    <- (set_field_bindable (f_ship_name kw) SNull),
    <- (set_field_bindable (f_ship_type kw) SNull).
  unfold update_vessel, bindable.
  destruct (set_field env (f_imo kw) SNull) as [x1|e1] eqn:E1;
    [|split; [split; [done|by intros (_ & [? ?] & _)]|]];
    [|intros e [= <-]; split; [done|];
      by apply set_field_Raise, bind_param_error in E1].
  destruct (set_field env (f_ship_name kw) SNull) as [x2|e2] eqn:E2;
    [|split; [split; [done|by intros (_ & _ & [? ?] & _)]|]];
    [|intros e [= <-]; split; [done|];
      by apply set_field_Raise, bind_param_error in E2].
  destruct (set_field env (f_ship_type kw) SNull) as [x3|e3] eqn:E3;
    [|split; [split; [done|by intros (_ & _ & _ & [? ?])]|]];
    [|intros e [= <-]; split; [done|];
      by apply set_field_Raise, bind_param_error in E3].
  destruct (bind_param m) as [key|e4] eqn:E4;
    [|split; [split; [done|by intros ([? ?] & _)]|]];
    [|intros e [= <-]; split; [done|]; by apply bind_param_error in E4].
  split; [|done]. split; [|done]. intros _. by repeat (split; [by eexists|]); eexists.
Qed.

Lemma insert_vessel_outcome d m kw :
  (forall key, bind_param m = Ok key ->
               existsb (has_mmsi env key) (vessels d) = false) ->
  ((insert_vessel env d m kw).2 = None <->
   bindable m /\ bindable (f_imo kw) /\ bindable (f_ship_name kw)
   /\ bindable (f_ship_type kw)) /\
  (forall e, (insert_vessel env d m kw).2 = Some e ->
             (insert_vessel env d m kw).1 = d /\ binding_error e).
Proof.
  intros Hfree. unfold insert_vessel, bindable.
  destruct (bind_param m) as [key|e4] eqn:E4;
    [|split; [split; [done|by intros ([? ?] & _)]|]];
    [|intros e [= <-]; split; [done|]; by apply bind_param_error in E4].
  destruct (bind_param (f_imo kw)) as [x1|e1] eqn:E1;
    [|split; [split; [done|by intros (_ & [? ?] & _)]|]];
    [|intros e [= <-]; split; [done|]; by apply bind_param_error in E1].
  destruct (bind_param (f_ship_name kw)) as [x2|e2] eqn:E2;
    [|split; [split; [done|by intros (_ & _ & [? ?] & _)]|]];
    [|intros e [= <-]; split; [done|]; by apply bind_param_error in E2].
  destruct (bind_param (f_ship_type kw)) as [x3|e3] eqn:E3;
    [|split; [split; [done|by intros (_ & _ & _ & [? ?])]|]];
    [|intros e [= <-]; split; [done|]; by apply bind_param_error in E3].
  rewrite (Hfree key eq_refl).
  split; [|done]. split; [|done]. intros _. by repeat (split; [by eexists|]); eexists.
Qed.

Lemma find_None_existsb {A : Type} (f : A -> bool) (l : list A) :
  find f l = None -> existsb f l = false.
Proof.
  induction l as [|x l IH]; [done|]. simpl.
  destruct (f x); [done | by apply IH].
Qed.

Lemma get_vessel_None d m key :
  get_vessel env d m = Ok None -> bind_param m = Ok key ->
  existsb (has_mmsi env key) (vessels d) = false.
Proof.
  unfold get_vessel. intros Hget Hkey. rewrite Hkey in Hget.
  cbn [mbind result_bind] in Hget. injection Hget as Hfind.
  by apply find_None_existsb.
Qed.

Lemma create_vessel_outcome d m kw :
  ((create_vessel env d m kw).2 = None <->
   bindable m /\ bindable (f_imo kw) /\ bindable (f_ship_name kw)
   /\ bindable (f_ship_type kw)) /\
  (forall e, (create_vessel env d m kw).2 = Some e ->
             (create_vessel env d m kw).1 = d /\ binding_error e).
Proof.
  unfold create_vessel.
  destruct (get_vessel env d m) as [[found|]|e0] eqn:Eget.
  - apply update_vessel_outcome.
  - apply insert_vessel_outcome. intros key. by apply get_vessel_None.
  - unfold get_vessel in Eget.
    destruct (bind_param m) as [key|e4] eqn:E4; [done|].
    cbn [mbind result_bind] in Eget. injection Eget as <-.
    split.
    + split; [done|]. intros ([? ?] & _). congruence.
    + intros e [= <-]. split; [done|]. by apply bind_param_error in E4.
Qed.

Lemma bind_all_outcome (vs : list value) :
  ((exists l, bind_all vs = Ok l /\ length l = length vs) <->
   Forall bindable vs) /\
  (forall l, bind_all vs = Ok l -> length l = length vs) /\
  (forall e, bind_all vs = Raise e -> binding_error e).
Proof.
  induction vs as [|x vs (IH1 & IH2 & IH3)].
  - split; [|by split; [intros l [= <-]|]].
    split; [constructor | by exists []].
  - rewrite bind_all_cons.
    destruct (bind_param x) as [y|e1] eqn:Ex.
    + destruct (bind_all vs) as [ys|e2] eqn:Evs.
      * split; [|split; [|done]].
        -- split; [|intros _; exists (y :: ys); split; [done|];
                    simpl; f_equal; by apply IH2].
           intros _. constructor; [by exists y|]. apply IH1.
           exists ys. split; [done | by apply IH2].
        -- intros l [= <-]. simpl. f_equal. by apply IH2.
      * split; [|split; [done|]].
        -- split; [by intros (? & ? & _)|].
           intros [_ (ys & Hys & _)%IH1]%Forall_cons. done.
        -- intros e [= <-]. by apply IH3.
    + split; [|split; [done|]].
      * split; [by intros (? & ? & _)|].
        intros [[y Hy] _]%Forall_cons. congruence.
      * intros e [= <-]. by apply bind_param_error in Ex.
Qed.

Lemma insert_vessel_state_outcome d m fields :
  ((insert_vessel_state env d m fields).2 = None <->
   Forall bindable (m :: state_values fields)) /\
  (forall e, (insert_vessel_state env d m fields).2 = Some e ->
             (insert_vessel_state env d m fields).1 = d /\ binding_error e).
Proof.
  unfold insert_vessel_state, state_values.
  destruct (bind_all_outcome
              [m; f_latitude fields; f_longitude fields; f_speed fields;
               f_heading fields; f_course fields; f_draught fields;
               f_status fields; f_call_sign fields; f_destination fields])
    as (H1 & H2 & H3).
  destruct (bind_all _) as [l|e0] eqn:Eall.
  - specialize (H2 l eq_refl).
    do 10 (destruct l as [|? l]; [done|]). destruct l; [|done].
    split; [|done]. split; [|done]. intros _. apply H1. by eexists.
  - split.
    + split; [done|]. intros (l & Hl & _)%H1. done.
    + intros e [= <-]. split; [done|]. by apply H3.
Qed.

Lemma create_vessel_state_outcome d m fields :
  ((create_vessel_state env d m fields).2 = None <->
   Forall bindable (m :: state_values fields)) /\
  (forall e, (create_vessel_state env d m fields).2 = Some e ->
             vessel_states (create_vessel_state env d m fields).1
             = vessel_states d /\ binding_error e).
Proof.
  unfold create_vessel_state.
  destruct (get_vessel env d m) as [[found|]|e0] eqn:Eget.
  - destruct (insert_vessel_state_outcome d m fields) as [H1 H2].
    split; [done|]. intros e He. destruct (H2 e He) as [-> ?]. done.
  - destruct (create_vessel_outcome d m no_fields) as [H1 H2].
    destruct (create_vessel_frame env d m no_fields) as [Hst _].
    destruct (create_vessel env d m no_fields) as [d1 [e1|]] eqn:Ecreate.
    + cbn [fst snd] in *. split.
      * split; [done|]. intros [Hm _]%Forall_cons.
        assert (Some e1 = None) as Hno; [|done].
        apply H1. repeat split; try done; by exists SNull.
      * intros e [= <-]. split; [done|]. by apply (H2 e1).
    + cbn [fst snd] in *.
      destruct (insert_vessel_state_outcome d1 m fields) as [H3 H4].
      split; [done|]. intros e He. destruct (H4 e He) as [-> ?]. done.
  - unfold get_vessel in Eget.
    destruct (bind_param m) as [key|e4] eqn:E4; [done|].
    cbn [mbind result_bind] in Eget. injection Eget as <-.
    split.
    + split; [done|]. intros [[? ?] _]%Forall_cons. congruence.
    + intros e [= <-]. split; [done|]. by apply bind_param_error in E4.
Qed.

(** [create_vessel_state] returns without raising exactly when the MMSI
    and the nine fields can be bound; when it raises, the exception is
    one of binding and no state was added. *)
Theorem create_vessel_state_fails_only_on_unbindable d m fields :
  ((create_vessel_state env d m fields).2 = None <->
   Forall bindable (m :: state_values fields)) /\
  (forall e, (create_vessel_state env d m fields).2 = Some e ->
             vessel_states (create_vessel_state env d m fields).1
             = vessel_states d /\ binding_error e).
Proof. apply create_vessel_state_outcome. Qed.

End UpsertOutcomes.

(** ** Upserts of the storage: what is stored *)

Section UpsertRoundTrip.

Import Db Spec.

Variable env : sqlite_env.

Implicit Types (d : db) (m : value) (key : sqlval) (kw : vessel_fields)
  (fields : state_fields) (v : vessel).

Lemma to_N_inj (a b : byte) : Byte.to_N a = Byte.to_N b -> a = b.
Proof.
  intros Hab.
  assert (Byte.of_N (Byte.to_N a) = Byte.of_N (Byte.to_N b)) as Heq
    by (by rewrite Hab).
  rewrite !Byte.of_to_N in Heq. by injection Heq.
Qed.

Lemma map_to_N_inj (x y : list byte) :
  map Byte.to_N x = map Byte.to_N y -> x = y.
Proof.
  revert y. induction x as [|a x IH]; intros [|b y]; simpl; try done.
  intros [= Hab Hxy]. f_equal; [by apply to_N_inj | by apply IH].
Qed.

Lemma text_eqb_eq (a b : sqlval) : text_eqb a b = true -> a = b.
Proof.
  destruct a, b; simpl; try done; intros H%bool_decide_eq_true.
  - by subst.
  - f_equal. by apply map_to_N_inj.
Qed.

Lemma find_map {A : Type} (f : A -> bool) (g : A -> A) (l : list A) :
  (forall x, f (g x) = f x) -> find f (map g l) = g <$> find f l.
Proof.
  intros Hfg. induction l as [|x l IH]; [done|]. simpl.
  rewrite Hfg. by destruct (f x).
Qed.

Lemma find_app_None {A : Type} (f : A -> bool) (l l' : list A) :
  find f l = None -> find f (l ++ l') = find f l'.
Proof.
  induction l as [|x l IH]; [done|]. simpl. by destruct (f x).
Qed.

Lemma stored_field_update (arg : value) (old x : sqlval) :
  set_field env arg SNull = Ok x ->
  stored_field env arg (Some old)
    (match set_field env arg old with Ok y => y | Raise _ => old end).
Proof.
  intros (y & Hy & ->)%(set_field_Ok env _ _ old).
  destruct arg; try done; by exists y.
Qed.

Lemma stored_field_insert (arg : value) (x : sqlval) :
  bind_param arg = Ok x -> stored_field env arg None (text_affinity env x).
Proof.
  intros Hx. destruct arg; try (by exists x).
  simpl in Hx. by injection Hx as <-.
Qed.

Lemma create_vessel_stores d m kw key :
  bind_param m = Ok key -> text_affinity env key <> SNull ->
  (create_vessel env d m kw).2 = None ->
  exists old row,
    get_vessel env d m = Ok old /\
    get_vessel env (create_vessel env d m kw).1 m = Ok (Some row) /\
    mmsi row = text_affinity env key /\
    stored_field env (f_imo kw) (imo <$> old) (imo row) /\
    stored_field env (f_ship_name kw) (ship_name <$> old) (ship_name row) /\
    stored_field env (f_ship_type kw) (ship_type <$> old) (ship_type row).
Proof.
  intros Hkey Hnn. unfold create_vessel, get_vessel. rewrite Hkey.
  cbn [mbind result_bind].
  destruct (find (has_mmsi env key) (vessels d)) as [found|] eqn:Efind.
  - (* an update *)
    unfold update_vessel. rewrite Hkey.
    destruct (set_field env (f_imo kw) SNull) as [x1|] eqn:E1; [|done].
    destruct (set_field env (f_ship_name kw) SNull) as [x2|] eqn:E2; [|done].
    destruct (set_field env (f_ship_type kw) SNull) as [x3|] eqn:E3; [|done].
    intros _. cbn [fst vessels].
    apply find_some in Efind as Hfound. destruct Hfound as [_ Hhas].
    rewrite find_map, Efind.
    + cbn [fmap option_fmap option_map]. rewrite Hhas.
      eexists (Some found), _. split; [done|]. split; [done|].
      cbn [mmsi imo ship_name ship_type].
      split; [by apply text_eqb_eq|].
      split; [by eapply stored_field_update|].
      split; by eapply stored_field_update.
    + intros row. by destruct (has_mmsi env key row) eqn:E.
  - (* an insert *)
    unfold insert_vessel. rewrite Hkey.
    destruct (bind_param (f_imo kw)) as [x1|] eqn:E1; [|done].
    destruct (bind_param (f_ship_name kw)) as [x2|] eqn:E2; [|done].
    destruct (bind_param (f_ship_type kw)) as [x3|] eqn:E3; [|done].
    rewrite (find_None_existsb _ _ Efind). intros _. cbn [fst vessels].
    rewrite find_app_None by done. cbn [find].
    unfold has_mmsi at 1. cbn [mmsi].
    rewrite (text_eqb_refl env) by done.
    eexists None, _. split; [done|]. split; [done|].
    cbn [mmsi imo ship_name ship_type fmap option_fmap option_map].
    split; [done|].
    split; [by apply stored_field_insert|].
    split; by apply stored_field_insert.
Qed.

(** After a [create_vessel] that raised nothing, [get_vessel] finds the
    vessel under the same MMSI, unless the MMSI is stored as NULL. The
    row holds each argument that was given as the column stores it; a
    field given as [None] keeps what the row held before the call, and
    is NULL in a row that the call created. *)
Theorem create_vessel_then_get_vessel d m kw key :
  bind_param m = Ok key -> text_affinity env key <> SNull ->
  (create_vessel env d m kw).2 = None ->
  exists old row,
    get_vessel env d m = Ok old /\
    get_vessel env (create_vessel env d m kw).1 m = Ok (Some row) /\
    mmsi row = text_affinity env key /\
    stored_field env (f_imo kw) (imo <$> old) (imo row) /\
    stored_field env (f_ship_name kw) (ship_name <$> old) (ship_name row) /\
    stored_field env (f_ship_type kw) (ship_type <$> old) (ship_type row).
Proof. apply create_vessel_stores. Qed.

(** *** Invariants *)

Lemma filter_map_length {A : Type} (f : A -> bool) (g : A -> A) (l : list A) :
  (forall x, f (g x) = f x) ->
  length (List.filter f (map g l)) = length (List.filter f l).
Proof.
  intros Hfg. induction l as [|x l IH]; [done|]. simpl.
  rewrite Hfg. destruct (f x); simpl; by rewrite IH.
Qed.

Lemma filter_existsb_false {A : Type} (f : A -> bool) (l : list A) :
  existsb f l = false -> List.filter f l = [].
Proof.
  induction l as [|x l IH]; [done|]. simpl.
  destruct (f x); [done | by apply IH].
Qed.

Lemma update_vessel_unique d m kw :
  unique_keys env d -> unique_keys env (update_vessel env d m kw).1.
Proof.
  intros Hd. unfold update_vessel.
  destruct (set_field env (f_imo kw) SNull); [|done].
  destruct (set_field env (f_ship_name kw) SNull); [|done].
  destruct (set_field env (f_ship_type kw) SNull); [|done].
  destruct (bind_param m) as [key|]; [|done].
  intros key'. cbn [fst vessels]. rewrite filter_map_length; [apply Hd|].
  intros row. by destruct (has_mmsi env key row) eqn:E.
Qed.

Lemma insert_vessel_unique d m kw :
  unique_keys env d -> unique_keys env (insert_vessel env d m kw).1.
Proof.
  intros Hd. unfold insert_vessel.
  destruct (bind_param m) as [key|]; [|done].
  destruct (bind_param (f_imo kw)); [|done].
  destruct (bind_param (f_ship_name kw)); [|done].
  destruct (bind_param (f_ship_type kw)); [|done].
  destruct (existsb (has_mmsi env key) (vessels d)) eqn:Ex; [done|].
  intros key'. cbn [fst vessels]. rewrite List.filter_app, length_app.
  cbn [List.filter]. unfold has_mmsi at 2. cbn [mmsi].
  destruct (text_eqb (text_affinity env key) (text_affinity env key'))
    eqn:Eq; [|specialize (Hd key'); simpl; lia].
  apply text_eqb_eq in Eq.
  rewrite filter_existsb_false; [simpl; lia|].
  unfold has_mmsi in *. by rewrite <- Eq.
Qed.

Lemma create_vessel_unique d m kw :
  unique_keys env d -> unique_keys env (create_vessel env d m kw).1.
Proof.
  intros Hd. unfold create_vessel.
  destruct (get_vessel env d m) as [[found|]|]; [| |done].
  - by apply update_vessel_unique.
  - by apply insert_vessel_unique.
Qed.

Lemma insert_vessel_state_fresh d m fields :
  fresh_ids d -> fresh_ids (insert_vessel_state env d m fields).1.
Proof.
  intros (Hnd & Hseq & Hle).
  destruct (insert_vessel_state_frame env d m fields)
    as [_ [[-> _]|_]]; [done|].
  unfold insert_vessel_state in *.
  destruct (bind_all _) as [l|]; [|done].
  do 10 (destruct l as [|? l]; [done|]). destruct l; [|done].
  cbn [fst]. split; [|split]; cbn [Db.vessel_states Db.seq]; [|lia|].
  - rewrite map_app. apply NoDup_app. split; [done|]. split.
    + intros z (s' & -> & Hs)%list_elem_of_fmap.
      intros Heq%list_elem_of_singleton. cbn [Db.id] in Heq.
      specialize (Hle s' Hs). lia.
    + apply NoDup_singleton.
  - intros s' [Hs|Hs%list_elem_of_singleton]%elem_of_app.
    + specialize (Hle s' Hs). lia.
    + subst s'. cbn [Db.id]. lia.
Qed.

Lemma create_vessel_seq d m kw :
  seq (create_vessel env d m kw).1 = seq d.
Proof.
  unfold create_vessel.
  destruct (get_vessel env d m) as [[found|]|]; [| |done].
  - unfold update_vessel.
    destruct (set_field env (f_imo kw) SNull); [|done].
    destruct (set_field env (f_ship_name kw) SNull); [|done].
    destruct (set_field env (f_ship_type kw) SNull); [|done].
    by destruct (bind_param m).
  - unfold insert_vessel.
    destruct (bind_param m) as [key|]; [|done].
    destruct (bind_param (f_imo kw)); [|done].
    destruct (bind_param (f_ship_name kw)); [|done].
    destruct (bind_param (f_ship_type kw)); [|done].
    by destruct (existsb (has_mmsi env key) (vessels d)).
Qed.

Lemma create_vessel_fresh d m kw :
  fresh_ids d -> fresh_ids (create_vessel env d m kw).1.
Proof.
  unfold fresh_ids. rewrite create_vessel_seq.
  by destruct (create_vessel_frame env d m kw) as [-> _].
Qed.

Lemma create_vessel_state_invariant d m fields :
  unique_keys env d /\ fresh_ids d ->
  unique_keys env (create_vessel_state env d m fields).1 /\
  fresh_ids (create_vessel_state env d m fields).1.
Proof.
  intros [Hu Hf]. unfold create_vessel_state.
  destruct (get_vessel env d m) as [[found|]|]; [| |done].
  - split; [|by apply insert_vessel_state_fresh].
    unfold unique_keys.
    by destruct (insert_vessel_state_frame env d m fields) as [-> _].
  - pose proof (create_vessel_unique d m no_fields Hu) as Hu1.
    pose proof (create_vessel_fresh d m no_fields Hf) as Hf1.
    destruct (create_vessel env d m no_fields) as [d1 [e|]]; [done|].
    cbn [fst] in *. split; [|by apply insert_vessel_state_fresh].
    unfold unique_keys.
    by destruct (insert_vessel_state_frame env d1 m fields) as [-> _].
Qed.

(** Both upserts keep the keys of [vessels] unique and the ids of
    [vessel_states] distinct, positive and within the AUTOINCREMENT
    counter, whatever their arguments and whether or not they raise. *)
Theorem upserts_keep_keys_unique d m kw fields :
  unique_keys env d /\ fresh_ids d ->
  (unique_keys env (create_vessel env d m kw).1 /\
   fresh_ids (create_vessel env d m kw).1) /\
  (unique_keys env (create_vessel_state env d m fields).1 /\
   fresh_ids (create_vessel_state env d m fields).1).
Proof.
  intros [Hu Hf]. split.
  - split; [by apply create_vessel_unique | by apply create_vessel_fresh].
  - by apply create_vessel_state_invariant.
Qed.

End UpsertRoundTrip.

Section UpsertCases.

Import Db Spec Samples.

Lemma create_vessel_then_get_vessel_witness :
  exists old row,
    get_vessel sample_env init_db (VInt 123456789) = Ok old /\
    get_vessel sample_env
      (create_vessel sample_env init_db (VInt 123456789)
         {| f_imo := VInt 9241061; f_ship_name := VNone;
            f_ship_type := VStr (cps "Cargo") |}).1
      (VInt 123456789) = Ok (Some row) /\
    mmsi row = text_affinity sample_env (SInteger 123456789) /\
    stored_field sample_env (VInt 9241061) (imo <$> old) (imo row) /\
    stored_field sample_env VNone (ship_name <$> old) (ship_name row) /\
    stored_field sample_env (VStr (cps "Cargo")) (ship_type <$> old)
      (ship_type row).
Proof.
  apply (create_vessel_then_get_vessel sample_env init_db (VInt 123456789)
           {| f_imo := VInt 9241061; f_ship_name := VNone;
              f_ship_type := VStr (cps "Cargo") |} (SInteger 123456789)).
  - reflexivity.
  - discriminate.
  - vm_compute. reflexivity.
Defined.

Lemma upserts_keep_keys_unique_witness :
  (unique_keys sample_env
     (create_vessel sample_env init_db (VInt 123456789) no_fields).1 /\
   fresh_ids
     (create_vessel sample_env init_db (VInt 123456789) no_fields).1) /\
  (unique_keys sample_env
     (create_vessel_state sample_env init_db (VInt 123456789)
        fields_position).1 /\
   fresh_ids
     (create_vessel_state sample_env init_db (VInt 123456789)
        fields_position).1).
Proof.
  apply (upserts_keep_keys_unique sample_env init_db (VInt 123456789)
           no_fields fields_position).
  split.
  - intros key. simpl. lia.
  - split; [constructor|]. split; [simpl; lia|].
    intros s Hs. simpl in Hs. by apply elem_of_nil in Hs.
Defined.

(** An update with [None] keeps the name the vessel had; an MMSI given
    as text finds the vessel that was stored from a number. *)
Example create_vessel_keeps_unset_fields :
  let d1 := (create_vessel sample_env init_db (VInt 123456789)
               {| f_imo := VNone; f_ship_name := VStr (cps "ANNA");
                  f_ship_type := VNone |}).1 in
  let d2 := (create_vessel sample_env d1 (VStr (cps "123456789"))
               {| f_imo := VInt 9241061; f_ship_name := VNone;
                  f_ship_type := VNone |}).1 in
  length (vessels d2) = 1 /\
  (ship_name <$> vessels d2) = [SText (cps "ANNA")] /\
  (imo <$> vessels d2) = [SText (cps "9241061")].
Proof. vm_compute. repeat split; reflexivity. Qed.

End UpsertCases.

(** ** [create_vessel] among the other workers *)

Section UpsertRace.

Import Db Spec.

Variable env : sqlite_env.

Implicit Types (d seen : db) (m : value) (key : sqlval) (kw : vessel_fields).

Lemma binding_error_not_integrity e :
  binding_error e -> e <> IntegrityError.
Proof. by intros [-> | [-> | ->]]. Qed.

Lemma insert_vessel_cases d m kw key :
  bind_param m = Ok key ->
  ((insert_vessel env d m kw).2 = None <->
   (bindable (f_imo kw) /\ bindable (f_ship_name kw)
    /\ bindable (f_ship_type kw))
   /\ existsb (has_mmsi env key) (vessels d) = false) /\
  ((insert_vessel env d m kw).2 = Some IntegrityError <->
   (bindable (f_imo kw) /\ bindable (f_ship_name kw)
    /\ bindable (f_ship_type kw))
   /\ existsb (has_mmsi env key) (vessels d) = true) /\
  (forall e, (insert_vessel env d m kw).2 = Some e ->
             (insert_vessel env d m kw).1 = d /\
             (binding_error e \/ e = IntegrityError)).
Proof.
  intros Hkey. unfold insert_vessel, bindable. rewrite Hkey.
  destruct (bind_param (f_imo kw)) as [x1|e1] eqn:E1.
  2:{ pose proof (bind_param_error _ _ E1) as Hb.
      split; [|split].
      - split; [done|]. intros [([? ?] & _) _]. congruence.
      - split; [intros [= ->]; by destruct (binding_error_not_integrity _ Hb)|].
        by intros [([? ?] & _) _].
      - intros e [= <-]. split; [done | by left]. }
  destruct (bind_param (f_ship_name kw)) as [x2|e2] eqn:E2.
  2:{ pose proof (bind_param_error _ _ E2) as Hb.
      split; [|split].
      - split; [done|]. by intros [(_ & [? ?] & _) _].
      - split; [intros [= ->]; by destruct (binding_error_not_integrity _ Hb)|].
        by intros [(_ & [? ?] & _) _].
      - intros e [= <-]. split; [done | by left]. }
  destruct (bind_param (f_ship_type kw)) as [x3|e3] eqn:E3.
  2:{ pose proof (bind_param_error _ _ E3) as Hb.
      split; [|split].
      - split; [done|]. by intros [(_ & _ & [? ?]) _].
      - split; [intros [= ->]; by destruct (binding_error_not_integrity _ Hb)|].
        by intros [(_ & _ & [? ?]) _].
      - intros e [= <-]. split; [done | by left]. }
  destruct (existsb (has_mmsi env key) (vessels d)); cbn [fst snd].
  - split; [|split].
    + split; [done | by intros [_ ?]].
    + split; [intros _|done]. split; [|done].
      split; [by eexists|]. split; by eexists.
    + intros e [= <-]. split; [done | by right].
  - split; [|split].
    + split; [intros _|done]. split; [|done].
      split; [by eexists|]. split; by eexists.
    + split; [done | by intros [_ ?]].
    + done.
Qed.

(** [create_vessel] with the other connections writing between its
    lookup and its statement. It returns without raising exactly when its
    four arguments can be bound and the race for a new vessel did not
    happen; it raises [IntegrityError], the violation of the primary key,
    exactly when the arguments can be bound and the race happened; every
    exception it raises is that one or an error of binding, and leaves the
    database as the statement found it. When no connection writes in
    between, this is [create_vessel], which then never raises
    [IntegrityError]. *)
Theorem create_vessel_raises_on_unbindable_or_race seen d m kw :
  let all_bindable :=
    bindable m /\ bindable (f_imo kw) /\ bindable (f_ship_name kw)
    /\ bindable (f_ship_type kw) in
  ((create_vessel_between env seen d m kw).2 = None <->
   all_bindable /\ ~ raced env seen d m) /\
  ((create_vessel_between env seen d m kw).2 = Some IntegrityError <->
   all_bindable /\ raced env seen d m) /\
  (forall e, (create_vessel_between env seen d m kw).2 = Some e ->
             (create_vessel_between env seen d m kw).1 = d /\
             (binding_error e \/ e = IntegrityError)) /\
  create_vessel_between env d d m kw = create_vessel env d m kw /\
  (create_vessel env d m kw).2 <> Some IntegrityError.
Proof.
  intros all_bindable. subst all_bindable.
  split; [|split; [|split; [|split]]].
  4:{ reflexivity. }
  4:{ intros Hint.
      destruct (proj2 (create_vessel_outcome env d m kw) _ Hint) as [_ Hb].
      by destruct (binding_error_not_integrity _ Hb). }
  all: unfold create_vessel_between, get_vessel, raced.
  all: destruct (bind_param m) as [key|e4] eqn:E4; cbn [mbind result_bind].
  - (* None, key bound *)
    destruct (find (has_mmsi env key) (vessels seen)) as [found|] eqn:Efind.
    + destruct (update_vessel_outcome env d m kw) as [Hup _].
      rewrite Hup. split.
      * intros Hb. split; [done|]. intros (key' & [= <-] & Hnone & _).
        congruence.
      * by intros [Hb _].
    + destruct (insert_vessel_cases d m kw key E4) as (Hins & _ & _).
      rewrite Hins. split.
      * intros [(H1 & H2 & H3) Hex]. split.
        -- split; [by exists key | done].
        -- intros (key' & [= <-] & _ & Hin). congruence.
      * intros [(_ & H1 & H2 & H3) Hno]. split; [done|].
        destruct (existsb (has_mmsi env key) (vessels d)) eqn:Ex; [|done].
        destruct Hno. by exists key.
  - split; [done|]. intros [([? ?] & _) _]. congruence.
  - (* IntegrityError, key bound *)
    destruct (find (has_mmsi env key) (vessels seen)) as [found|] eqn:Efind.
    + destruct (update_vessel_outcome env d m kw) as [_ Hup]. split.
      * intros Hint. destruct (Hup _ Hint) as [_ Hb].
        by destruct (binding_error_not_integrity _ Hb).
      * intros [_ (key' & [= <-] & Hnone & _)]. congruence.
    + destruct (insert_vessel_cases d m kw key E4) as (_ & Hins & _).
      rewrite Hins. split.
      * intros [(H1 & H2 & H3) Hex]. split.
        -- split; [by exists key | done].
        -- by exists key.
      * intros [(_ & H1 & H2 & H3) (key' & [= <-] & _ & Hex)]. done.
  - split.
    + intros [= ->]. pose proof (bind_param_error _ _ E4) as Hb.
      by destruct (binding_error_not_integrity _ Hb).
    + intros [([? ?] & _) _]. congruence.
  - (* any exception, key bound *)
    destruct (find (has_mmsi env key) (vessels seen)) as [found|] eqn:Efind.
    + destruct (update_vessel_outcome env d m kw) as [_ Hup].
      intros e He. destruct (Hup e He) as [Hd Hb]. split; [done | by left].
    + by destruct (insert_vessel_cases d m kw key E4) as (_ & _ & Hins).
  - intros e [= <-]. split; [done|]. left. by apply bind_param_error in E4.
Qed.

End UpsertRace.

Section UpsertRaceCases.

Import Db Spec Samples.

(** Two workers persist reports for one new vessel: both lookups find no
    row, the first INSERT goes through, the second violates the primary
    key. *)
Example create_vessel_race :
  let first := create_vessel sample_env init_db (VInt 123456789) no_fields in
  first.2 = None /\
  (create_vessel_between sample_env init_db first.1 (VInt 123456789)
     no_fields).2 = Some IntegrityError /\
  (create_vessel sample_env first.1 (VInt 123456789) no_fields).2 = None.
Proof. vm_compute. repeat split; reflexivity. Qed.

End UpsertRaceCases.

(** ** From the decoder to the storage *)

Section Ingestion.

Import Relay Spec.

Context {S : Type} {gateway : StorageGateway S}.

Implicit Types (entry : gmap string value) (k : string) (v lat lon : value).

Lemma normalize_other_key entry k :
  k ∉ ["lat"; "lon"; "location"] ->
  normalize_ais_message entry !! k
  = (fun v => decode_field k (enum_name v)) <$> entry !! k.
Proof.
  intros Hk. rewrite !elem_of_cons, elem_of_nil in Hk.
  assert ("lat" <> k /\ "lon" <> k /\ "location" <> k) as (H1 & H2 & H3)
    by (split; [|split]; intros <-; tauto).
  rewrite normalize_lookup.
  assert (fold_lat_lon (convert_enums entry) !! k = convert_enums entry !! k)
    as ->.
  { destruct (fold_lat_lon_cases (convert_enums entry))
      as [(lat & lon & _ & _ & _ & ->)|[-> _]]; [|done].
    rewrite !lookup_delete_ne, lookup_insert_ne by done. done. }
  rewrite convert_enums_lookup. by destruct (entry !! k).
Qed.

Lemma normalize_location_stays entry v :
  entry !! "location" = Some v ->
  is_Some (normalize_ais_message entry !! "location").
Proof.
  intros Hloc. rewrite normalize_lookup.
  destruct (fold_lat_lon_cases (convert_enums entry))
    as [(lat & lon & _ & _ & _ & ->)|[-> _]].
  - rewrite !lookup_delete_ne, lookup_insert_eq by done. by eexists.
  - rewrite convert_enums_lookup, Hloc. by eexists.
Qed.

(** The normaliser touches no field but the ones it is about: under every
    key other than [lat], [lon] and [location] the normalised entry holds
    what the entry held, an enum member by its name and the bytes of a
    binary key decoded; it adds no such key and drops none; and a
    [location] that was there is still there. *)
Theorem normalize_ais_message_keeps_other_fields entry k :
  (k ∉ ["lat"; "lon"; "location"] ->
   normalize_ais_message entry !! k
   = (fun v => decode_field k (enum_name v)) <$> entry !! k) /\
  (is_Some (entry !! "location") ->
   is_Some (normalize_ais_message entry !! "location")).
Proof.
  split; [apply normalize_other_key|].
  intros [v Hv]. by eapply normalize_location_stays.
Qed.

Lemma normalize_location_folded entry lat lon :
  entry !! "lat" = Some lat -> entry !! "lon" = Some lon ->
  is_number lat = true -> is_number lon = true ->
  normalize_ais_message entry !! "location" = Some (geo_point lon lat).
Proof.
  intros Hlat Hlon Nlat Nlon.
  apply is_number_enum_name in Nlat as [Elat Ilat].
  apply is_number_enum_name in Nlon as [Elon Ilon].
  rewrite !normalize_lookup. unfold fold_lat_lon.
  rewrite !convert_enums_lookup, Hlat, Hlon. simpl.
  rewrite Elat, Elon, Ilat, Ilon. simpl.
  rewrite lookup_delete_ne, lookup_delete_ne, lookup_insert_eq by done.
  simpl. by rewrite decode_field_other by apply location_not_bin.
Qed.

Lemma is_number_as_num v : is_number v = true -> exists n, as_num v = Some n.
Proof. destruct v; try done; by eexists. Qed.

Lemma extract_coordinates_in_range decoded lon lat :
  decoded !! "location" = Some (geo_point lon lat) ->
  is_number lat = true -> is_number lon = true ->
  in_valid_range lon lat = true ->
  _extract_coordinates decoded = Ok (lon, lat).
Proof.
  intros Hloc Nlat Nlon Hrange.
  destruct (is_number_as_num _ Nlat) as [b Hb].
  destruct (is_number_as_num _ Nlon) as [a Ha].
  rewrite (extract_coordinates_list decoded _ [lon; lat] Hloc) by done.
  simpl.
  rewrite (as_num_not_None _ _ Ha), (as_num_not_None _ _ Hb). cbn [andb].
  destruct (truthy lon && truthy lat) eqn:Ht.
  - apply andb_true_iff in Ht as [Tlon Tlat].
    rewrite (is_valid_geo_point_truthy _ _ _ _ Ha Hb Tlon Tlat), Hrange.
    done.
  - by rewrite is_valid_geo_point_falsy.
Qed.

(** A decoded report with a numeric latitude and longitude within range
    reaches the storage with that position: the normaliser folds the pair
    into the location, the extraction reads it back, longitude first, and
    the persistence step calls [create_vessel] and, unless that raises,
    [create_vessel_state] with the latitude and the longitude the decoder
    gave, not swapped, for the MMSI of the report. *)
Theorem decoded_position_reaches_storage entry lat lon (database : S) :
  entry !! "lat" = Some lat -> entry !! "lon" = Some lon ->
  is_number lat = true -> is_number lon = true ->
  in_valid_range lon lat = true ->
  let decoded := normalize_ais_message entry in
  _extract_coordinates decoded = Ok (lon, lat) /\
  exists vessel state,
    mmsi vessel = dict_get decoded "mmsi" /\
    latitude state = lat /\ longitude state = lon /\
    vessel_mmsi state = mmsi vessel /\
    (process_ais_message decoded database).1.1
    = match (create_vessel vessel database).2 with
      | None => [CreateVessel vessel; CreateVesselState state]
      | Some _ => [CreateVessel vessel]
      end.
Proof.
  intros Hlat Hlon Nlat Nlon Hrange decoded.
  assert (_extract_coordinates decoded = Ok (lon, lat)) as Hex.
  { apply extract_coordinates_in_range; try done.
    by apply normalize_location_folded. }
  split; [done|].
  exists (_extract_vessel_data decoded),
    (_extract_vessel_state decoded lon lat (_extract_vessel_data decoded)).
  split; [done|]. split; [done|]. split; [done|]. split; [done|].
  unfold process_ais_message. rewrite Hex.
  destruct (create_vessel (_extract_vessel_data decoded) database)
    as [database1 [e|]]; [done|].
  by destruct (create_vessel_state _ database1).
Qed.

End Ingestion.

Section IngestionCases.

Import Relay Spec Samples.

Lemma normalize_ais_message_keeps_other_fields_witness :
  normalize_ais_message decoded_position !! "mmsi"
  = (fun v => decode_field "mmsi" (enum_name v)) <$> decoded_position !! "mmsi".
Proof.
  apply (proj1 (normalize_ais_message_keeps_other_fields
                  decoded_position "mmsi")).
  rewrite !elem_of_cons, elem_of_nil.
  intros [?|[?|[?|[]]]]; discriminate.
Defined.

Lemma decoded_position_reaches_storage_witness :
  let decoded := normalize_ais_message decoded_position in
  _extract_coordinates decoded
  = Ok (VFloat 18.25%float, VFloat 57.5%float) /\
  exists vessel state,
    mmsi vessel = dict_get decoded "mmsi" /\
    latitude state = VFloat 57.5%float /\
    longitude state = VFloat 18.25%float /\
    vessel_mmsi state = mmsi vessel /\
    (process_ais_message (gateway := sqlite_gateway) decoded Db.init_db).1.1
    = match (create_vessel (StorageGateway := sqlite_gateway)
               vessel Db.init_db).2 with
      | None => [CreateVessel vessel; CreateVesselState state]
      | Some _ => [CreateVessel vessel]
      end.
Proof.
  apply (decoded_position_reaches_storage (gateway := sqlite_gateway)
           decoded_position (VFloat 57.5%float) (VFloat 18.25%float)
           Db.init_db).
  - vm_compute. reflexivity.
  - vm_compute. reflexivity.
  - reflexivity.
  - reflexivity.
  - vm_compute. reflexivity.
Defined.

(** The report of identifier 123456789 at 57.5 N 18.25 E, run through the
    normaliser and the persistence step on an empty database, leaves one
    vessel and one state with that position. *)
Example decoded_position_is_stored :
  let run := process_ais_message (gateway := sqlite_gateway)
               (normalize_ais_message decoded_position) Db.init_db in
  run.2 = None /\
  (Db.mmsi <$> Db.vessels run.1.2) = [Db.SText (cps "123456789")] /\
  ((fun s => (Db.vessel_mmsi s, Db.latitude s, Db.longitude s))
     <$> Db.vessel_states run.1.2)
  = [(Db.SText (cps "123456789"), Db.SReal 57.5%float,
      Db.SReal 18.25%float)].
Proof. vm_compute. repeat split; reflexivity. Qed.

End IngestionCases.

(** ** A report with one coordinate *)

Section LoneCoordinate.

Import Relay Spec.

Context {S : Type} {gateway : StorageGateway S}.

Implicit Types (entry : gmap string value) (lat lon : value).

Lemma isinstance_not_None v :
  isinstance_int_float v = true -> is_not_None v = true.
Proof. by destruct v. Qed.

(** With no location of its own, a normalised entry has the folded point
    of two numbers for its location, or none. *)
Lemma normalize_location_cases entry :
  entry !! "location" = None ->
  (exists lat lon,
      isinstance_int_float lat && isinstance_int_float lon = true /\
      normalize_ais_message entry !! "location" = Some (geo_point lon lat))
  \/ normalize_ais_message entry !! "location" = None.
Proof.
  intros Hloc. rewrite normalize_lookup.
  destruct (fold_lat_lon_cases (convert_enums entry))
    as [(lat & lon & _ & _ & Hnum & ->)|[-> _]].
  - left. exists lat, lon. split; [done|].
    rewrite !lookup_delete_ne, lookup_insert_eq by done. simpl.
    by rewrite decode_field_other by apply location_not_bin.
  - right. by rewrite convert_enums_lookup, Hloc.
Qed.

Lemma extract_coordinates_no_location decoded :
  decoded !! "location" = None ->
  _extract_coordinates decoded = Ok (VNone, VNone).
Proof. intros Hloc. unfold _extract_coordinates. by rewrite Hloc. Qed.

Lemma normalize_unfolded entry :
  entry !! "location" = None ->
  (forall lat lon,
     entry !! "lat" = Some lat -> entry !! "lon" = Some lon ->
     is_number lat && is_number lon = false) ->
  normalize_ais_message entry !! "location" = None.
Proof.
  intros Hloc Hno. rewrite normalize_lookup.
  assert (fold_lat_lon (convert_enums entry) = convert_enums entry) as ->.
  { unfold fold_lat_lon. rewrite !convert_enums_lookup.
    destruct (entry !! "lat") as [lat|] eqn:Elat; [|done].
    destruct (entry !! "lon") as [lon|] eqn:Elon; [|done]. simpl.
    by rewrite !isinstance_enum_name, (Hno lat lon). }
  by rewrite convert_enums_lookup, Hloc.
Qed.

(** C2, as the code has it. For a decoded entry without a location of its
    own, the pair the extraction reads from the normalised entry never has
    exactly one component: it is the folded pair of two numbers or
    [(None, None)]. When the entry does not hold both a numeric latitude
    and a numeric longitude (only one of them is present, or one is not a
    number), the normaliser folds nothing, the extraction raises nothing
    and returns [(None, None)], and the persistence step calls
    [create_vessel] and, unless that raises, [create_vessel_state] with
    latitude and longitude both [None]: the report reaches the storage,
    without a position. *)
Theorem lone_coordinate_reaches_storage entry (database : S) :
  entry !! "location" = None ->
  let decoded := normalize_ais_message entry in
  (forall lon lat,
     _extract_coordinates decoded = Ok (lon, lat) ->
     is_not_None lon = is_not_None lat) /\
  ((forall lat lon,
      entry !! "lat" = Some lat -> entry !! "lon" = Some lon ->
      is_number lat && is_number lon = false) ->
   decoded !! "location" = None /\
   _extract_coordinates decoded = Ok (VNone, VNone) /\
   exists vessel state,
     mmsi vessel = dict_get decoded "mmsi" /\
     latitude state = VNone /\ longitude state = VNone /\
     vessel_mmsi state = mmsi vessel /\
     (process_ais_message decoded database).1.1
     = match (create_vessel vessel database).2 with
       | None => [CreateVessel vessel; CreateVesselState state]
       | Some _ => [CreateVessel vessel]
       end).
Proof.
  intros Hloc decoded. split.
  - intros lon lat.
    destruct (normalize_location_cases entry Hloc)
      as [(lat' & lon' & Hnum & Hfold)|Hnone].
    + apply andb_true_iff in Hnum as [Hlat Hlon].
      rewrite (extract_coordinates_list decoded _ [lon'; lat'] Hfold) by done.
      simpl.
      rewrite (isinstance_not_None _ Hlat), (isinstance_not_None _ Hlon).
      cbn [andb].
      destruct (is_valid_geo_point lon' lat') as [[|]|]; simpl; try done.
      intros [= <- <-].
      by rewrite (isinstance_not_None _ Hlat), (isinstance_not_None _ Hlon).
    + rewrite (extract_coordinates_no_location decoded Hnone).
      by intros [= <- <-].
  - intros Hno.
    pose proof (normalize_unfolded entry Hloc Hno) as Hnone.
    pose proof (extract_coordinates_no_location decoded Hnone) as Hex.
    split; [done|]. split; [done|].
    exists (_extract_vessel_data decoded),
      (_extract_vessel_state decoded VNone VNone (_extract_vessel_data decoded)).
    split; [done|]. split; [done|]. split; [done|]. split; [done|].
    unfold process_ais_message. rewrite Hex.
    destruct (create_vessel (_extract_vessel_data decoded) database)
      as [database1 [e|]]; [done|].
    by destruct (create_vessel_state _ database1).
Qed.

End LoneCoordinate.

Section LoneCoordinateCases.

Import Relay Spec Samples.

Lemma lone_coordinate_reaches_storage_witness :
  normalize_ais_message decoded_latitude_only !! "location" = None /\
  _extract_coordinates (normalize_ais_message decoded_latitude_only)
  = Ok (VNone, VNone).
Proof.
  assert (decoded_latitude_only !! "location" = None) as Hloc
    by (vm_compute; reflexivity).
  assert (forall lat lon,
            decoded_latitude_only !! "lat" = Some lat ->
            decoded_latitude_only !! "lon" = Some lon ->
            is_number lat && is_number lon = false) as Hno.
  { intros lat lon _ Hlon. vm_compute in Hlon. discriminate. }
  pose proof (proj2 (lone_coordinate_reaches_storage
                       (gateway := sqlite_gateway) decoded_latitude_only
                       Db.init_db Hloc) Hno) as (H1 & H2 & _).
  split; [exact H1 | exact H2].
Defined.

(** C2 as stated fails for a report that holds a latitude and no
    longitude: it is not rejected. The normaliser folds nothing, the
    extraction returns [(None, None)], both storage calls are made, and
    the database holds the vessel and a state without a position. *)
Lemma latitude_only_is_persisted :
  _extract_coordinates (normalize_ais_message decoded_latitude_only)
  = Ok (VNone, VNone) /\
  (process_ais_message (gateway := sqlite_gateway)
     (normalize_ais_message decoded_latitude_only) Db.init_db).1.1
  = [CreateVessel vessel_123456789;
     CreateVesselState (state_123456789 VNone VNone)] /\
  (process_ais_message (gateway := sqlite_gateway)
     (normalize_ais_message decoded_latitude_only) Db.init_db).2 = None /\
  ((fun s => (Db.vessel_mmsi s, Db.latitude s, Db.longitude s))
     <$> Db.vessel_states
           (process_ais_message (gateway := sqlite_gateway)
              (normalize_ais_message decoded_latitude_only) Db.init_db).1.2)
  = [(Db.SText (cps "123456789"), Db.SNull, Db.SNull)].
Proof. repeat split; vm_compute; reflexivity. Qed.

End LoneCoordinateCases.

(** ** The queue between the reader and the workers *)

Section Decoupling.

Import Relay Spec.

Context {S : Type} {gateway : StorageGateway S}.

Implicit Types (srv : server S) (message : gmap string value)
  (burst : list (gmap string value)).

Lemma full_room {A : Type} (q : queue A) : full q = true <-> room q = Some 0.
Proof.
  unfold full, room. destruct (Z.leb_spec (maxsize q) 0); [done|].
  destruct (Z.leb_spec (maxsize q) (Z.of_nat (length (items q)))).
  - split; [intros _; f_equal; lia | done].
  - split; [done|]. intros [= Hz]. lia.
Qed.

Lemma enqueue_for_db_full srv message :
  full (db_queue srv) = true ->
  enqueue_for_db message srv
  = {| db_queue := db_queue srv; database := database srv;
       log := log srv ++ [dropped_record]; calls := calls srv |}.
Proof. intros Hfull. unfold enqueue_for_db, put_nowait. by rewrite Hfull. Qed.

Lemma enqueue_for_db_room srv message :
  full (db_queue srv) = false ->
  enqueue_for_db message srv
  = {| db_queue := {| maxsize := maxsize (db_queue srv);
                      items := items (db_queue srv) ++ [message] |};
       database := database srv; log := log srv; calls := calls srv |}.
Proof. intros Hfull. unfold enqueue_for_db, put_nowait. by rewrite Hfull. Qed.

Lemma enqueue_burst srv burst :
  let srv' := foldl (fun s message => enqueue_for_db message s) srv burst in
  let taken := accepted (db_queue srv) burst in
  items (db_queue srv') = items (db_queue srv) ++ taken /\
  maxsize (db_queue srv') = maxsize (db_queue srv) /\
  log srv' = log srv ++ replicate (length burst - length taken) dropped_record /\
  database srv' = database srv /\ calls srv' = calls srv.
Proof.
  revert srv. induction burst as [|message burst IH]; intros srv.
  - cbn [foldl]. unfold accepted. destruct (room _); simpl;
      rewrite ?take_nil, !app_nil_r; done.
  - cbn [foldl]. cbv zeta in *.
    destruct (full (db_queue srv)) eqn:Hfull.
    + rewrite enqueue_for_db_full by done.
      destruct (IH {| db_queue := db_queue srv; database := database srv;
                      log := log srv ++ [dropped_record];
                      calls := calls srv |}) as (H1 & H2 & H3 & H4 & H5).
      cbn [db_queue database log calls] in *.
      apply full_room in Hfull. unfold accepted in *. rewrite Hfull in *.
      cbn [take length] in *. rewrite H1, H2, H3, H4, H5.
      rewrite <- app_assoc, !Nat.sub_0_r. done.
    + rewrite enqueue_for_db_room by done.
      destruct (IH {| db_queue := {| maxsize := maxsize (db_queue srv);
                                     items := items (db_queue srv) ++ [message] |};
                      database := database srv; log := log srv;
                      calls := calls srv |}) as (H1 & H2 & H3 & H4 & H5).
      cbn [db_queue database log calls maxsize items] in *.
      rewrite H1, H2, H3, H4, H5. clear H1 H2 H3 H4 H5 IH.
      unfold accepted, room, full in *. cbn [maxsize items] in *.
      rewrite length_app. cbn [length].
      destruct (Z.leb_spec (maxsize (db_queue srv)) 0).
      * rewrite <- app_assoc. done.
      * apply Z.leb_gt in Hfull.
        replace (Z.to_nat (maxsize (db_queue srv))
                 - length (items (db_queue srv)))
          with (Datatypes.S (Z.to_nat (maxsize (db_queue srv))
                   - (length (items (db_queue srv)) + 1))) by lia.
        cbn [take length]. rewrite <- app_assoc. done.
Qed.

(** Of a burst of messages the queue takes the first that fit, in the
    order of arrival behind what it held, and drops the rest with one
    warning each; the queue never holds more than it may, and neither the
    storage nor the calls made on it change. *)
Theorem enqueue_for_db_takes_what_fits srv burst :
  let srv' := foldl (fun s message => enqueue_for_db message s) srv burst in
  let taken := accepted (db_queue srv) burst in
  items (db_queue srv') = items (db_queue srv) ++ taken /\
  maxsize (db_queue srv') = maxsize (db_queue srv) /\
  log srv' = log srv ++ replicate (length burst - length taken) dropped_record /\
  database srv' = database srv /\ calls srv' = calls srv /\
  (forall n, room (db_queue srv) = Some n -> length taken <= n).
Proof.
  pose proof (enqueue_burst srv burst) as (H1 & H2 & H3 & H4 & H5).
  repeat (split; [done|]).
  intros n Hn. unfold accepted. rewrite Hn, length_take. lia.
Qed.

Lemma db_worker_step_empty srv :
  items (db_queue srv) = [] -> db_worker_step srv = srv.
Proof. intros Hq. unfold db_worker_step. by rewrite Hq. Qed.

Lemma db_worker_empty rounds srv :
  items (db_queue srv) = [] -> db_worker rounds srv = srv.
Proof.
  intros Hq. induction rounds as [|n IH]; [done|].
  cbn [db_worker]. by rewrite db_worker_step_empty.
Qed.

Lemma db_worker_batch rounds srv :
  let batch := take rounds (items (db_queue srv)) in
  let srv' := db_worker rounds srv in
  items (db_queue srv') = drop rounds (items (db_queue srv)) /\
  maxsize (db_queue srv') = maxsize (db_queue srv) /\
  calls srv' = calls srv ++ (persist_all batch (database srv)).1.1 /\
  database srv' = (persist_all batch (database srv)).1.2 /\
  log srv'
  = log srv ++ ((fun _ => worker_error_record)
                  <$> (persist_all batch (database srv)).2).
Proof.
  cbv zeta. revert srv. induction rounds as [|n IH]; intros srv.
  - cbn [db_worker take drop persist_all fst snd fmap list_fmap].
    by rewrite !app_nil_r.
  - cbn [db_worker].
    destruct (items (db_queue srv)) as [|message rest] eqn:Hq.
    + rewrite db_worker_step_empty, db_worker_empty, Hq by done.
      cbn [take drop persist_all fst snd fmap list_fmap].
      by rewrite !app_nil_r.
    + destruct (IH (db_worker_step srv)) as (H1 & H2 & H3 & H4 & H5).
      rewrite H1, H2, H3, H4, H5. clear H1 H2 H3 H4 H5.
      unfold db_worker_step. rewrite Hq.
      cbn [take drop persist_all].
      destruct (process_ais_message message (database srv))
        as [[made database1] raised].
      cbn [db_queue items maxsize calls database log].
      destruct (persist_all (take n rest) database1)
        as [[made' database2] errors].
      cbn [fst snd]. rewrite fmap_app, <- !app_assoc.
      repeat split; try done. destruct raised; [|done].
      by rewrite <- app_assoc.
Qed.

(** With the persistence steps taken one at a time (one worker, or no
    two steps overlapping in the executor threads), the waiting messages
    are persisted in the order of arrival, each once and each on the
    storage the one before left: after [rounds] rounds the first [rounds]
    messages are gone from the queue, the calls and the storage are those
    of the persistence steps in turn, and each step that raised left one
    error record and did not stop the later ones. Once every message has
    had its round the queue is empty and further rounds change nothing. *)
Theorem db_worker_persists_in_order rounds srv :
  let batch := take rounds (items (db_queue srv)) in
  let srv' := db_worker rounds srv in
  (items (db_queue srv') = drop rounds (items (db_queue srv)) /\
   maxsize (db_queue srv') = maxsize (db_queue srv) /\
   calls srv' = calls srv ++ (persist_all batch (database srv)).1.1 /\
   database srv' = (persist_all batch (database srv)).1.2 /\
   log srv'
   = log srv ++ ((fun _ => worker_error_record)
                   <$> (persist_all batch (database srv)).2)) /\
  (length (items (db_queue srv)) <= rounds ->
   items (db_queue srv') = [] /\ db_worker_step srv' = srv').
Proof.
  intros batch srv'. split; [apply db_worker_batch|].
  intros Hlen.
  assert (items (db_queue srv') = []) as Hq.
  { subst srv'. destruct (db_worker_batch rounds srv) as [-> _].
    by apply drop_ge. }
  split; [done | by apply db_worker_step_empty].
Qed.

End Decoupling.

Section DecouplingCases.

Import Relay Spec Samples.

(** A queue for two messages meets a burst of three: two are taken, the
    third is dropped with a warning; two worker rounds then persist the
    two, in order, and empty the queue. *)
Example burst_of_three_on_queue_of_two :
  let srv :=
    {| db_queue := {| maxsize := 2; items := [] |}; database := Db.init_db;
       log := []; calls := [] |} in
  let burst :=
    [normalize_ais_message decoded_position; report_zero_longitude;
     normalize_ais_message decoded_position] in
  let srv1 := foldl (fun s message => enqueue_for_db message s) srv burst in
  let srv2 := db_worker (gateway := sqlite_gateway) 2 srv1 in
  items (db_queue srv1) = take 2 burst /\
  log srv1 = [dropped_record] /\
  items (db_queue srv2) = [] /\
  length (calls srv2) = 4 /\
  length (Db.vessels (database srv2)) = 1 /\
  length (Db.vessel_states (database srv2)) = 2.
Proof. vm_compute. repeat split; reflexivity. Qed.

End DecouplingCases.
